(** * The extraction pipeline of the AI model capabilities viewer

    A shallow embedding of the parsing core of [app.js]: [parseModelData],
    [extractModelsFromBlock], [parseModelDetails], [findModelDetails],
    [getProviderFromModelName] and [getProviderDescription], together
    with the part of the JavaScript string and regular-expression library
    that these functions call.

    Conventions of the embedding.
    - A JavaScript string is a [string], a sequence of code units; the
      character classes and the change of case are those of the code
      units below 256.  Positions are code-unit indices.
    - A regular expression is a term of [Re.regex], written after the
      pattern of the source, and matched by a backtracking matcher that
      follows the priorities of the language.
    - An object used as a dictionary is the ordered list of its own
      properties (module [Obj]).  A read [o[k]] that finds no own
      property answers the member of [Object.prototype] of that name,
      when there is one ([Obj.read]); an assignment defines an own
      property.  The one exception is the key [__proto__], whose
      assignment replaces the prototype of the object: the embedding
      does not follow it, and the theorems whose truth depends on it
      are stated for documents without that word.
    - The result of [parseInt] is the exact integer up to 2^53, beyond
      which a number is rounded; the result of [parseFloat] is kept as
      the text it is read from.
    - A call either returns or throws (type [completion]).  The calls of
      [log] only write to the diagnostic sink and are left out. *)

From Stdlib Require Import String Ascii List Bool Arith NArith ZArith Lia.
From Stdlib Require Import Permutation Sorted.
Import ListNotations.

Local Open Scope string_scope.
Local Open Scope list_scope.
Local Open Scope nat_scope.

(** Concatenation of strings, the [+] of JavaScript. *)
Infix "+++" := String.append (right associativity, at level 60).

Set Implicit Arguments.

(* ===================================================================== *)
(** ** Strings *)
(* ===================================================================== *)

Module Str.

Definition code (c : ascii) : nat := nat_of_ascii c.

Definition between (lo hi : nat) (c : ascii) : bool :=
  (lo <=? code c) && (code c <=? hi).

(** [\d] *)
Definition isDigit (c : ascii) : bool := between 48 57 c.

(** [\w] : letters, digits and the underscore. *)
Definition isWord (c : ascii) : bool :=
  between 65 90 c || between 97 122 c || isDigit c || (code c =? 95).

(** [\s], which is also the set that [trim] strips: tab, line feed,
    vertical tab, form feed, carriage return, space, no-break space. *)
Definition isSpace (c : ascii) : bool :=
  between 9 13 c || (code c =? 32) || (code c =? 160).

(** Line terminators, which [.] refuses to match. *)
Definition isLineTerminator (c : ascii) : bool :=
  (code c =? 10) || (code c =? 13).

Definition isChar (c : ascii) : ascii -> bool := Ascii.eqb c.

Fixpoint oneOf (set : string) (c : ascii) : bool :=
  match set with
  | EmptyString => false
  | String x set' => Ascii.eqb x c || oneOf set' c
  end.

Definition lowerChar (c : ascii) : ascii :=
  if between 65 90 c
     || (between 192 222 c && negb (code c =? 215))
  then ascii_of_nat (code c + 32) else c.

Fixpoint toLowerCase (s : string) : string :=
  match s with
  | EmptyString => EmptyString
  | String c s' => String (lowerChar c) (toLowerCase s')
  end.

Fixpoint drop (n : nat) (s : string) : string :=
  match n, s with
  | 0, _ => s
  | S n', String _ s' => drop n' s'
  | S _, EmptyString => EmptyString
  end.

Fixpoint take (n : nat) (s : string) : string :=
  match n, s with
  | 0, _ => EmptyString
  | S n', String c s' => String c (take n' s')
  | S _, EmptyString => EmptyString
  end.

(** [s.substring(a, b)] for [a <= b]; [s.substring(a)] is [drop a s]. *)
Definition substring (a b : nat) (s : string) : string :=
  take (b - a) (drop a s).

Fixpoint startsWith (p s : string) : bool :=
  match p, s with
  | EmptyString, _ => true
  | String a p', String b s' => Ascii.eqb a b && startsWith p' s'
  | String _ _, EmptyString => false
  end.

(** [s.includes(p)] *)
Fixpoint includes (p s : string) : bool :=
  startsWith p s ||
  match s with
  | EmptyString => false
  | String _ s' => includes p s'
  end.

Fixpoint trimStart (s : string) : string :=
  match s with
  | String c s' => if isSpace c then trimStart s' else s
  | EmptyString => EmptyString
  end.

Fixpoint rev_acc (s acc : string) : string :=
  match s with
  | EmptyString => acc
  | String c s' => rev_acc s' (String c acc)
  end.

Definition rev (s : string) : string := rev_acc s EmptyString.

Definition trimEnd (s : string) : string := rev (trimStart (rev s)).

Definition trim (s : string) : string := trimEnd (trimStart s).

(** [s.split(sep)] for a non-empty separator string. *)
Fixpoint split_go (sep : string) (cur : string) (fuel : nat) (s : string)
  : list string :=
  match fuel with
  | 0 => [rev cur]
  | S fuel' =>
      match s with
      | EmptyString => [rev cur]
      | String c s' =>
          if startsWith sep s
          then rev cur :: split_go sep EmptyString fuel'
                            (drop (String.length sep) s)
          else split_go sep (String c cur) fuel' s'
      end
  end.

Definition split (sep s : string) : list string :=
  split_go sep EmptyString (S (String.length s)) s.

Fixpoint filterChars (p : ascii -> bool) (s : string) : string :=
  match s with
  | EmptyString => EmptyString
  | String c s' =>
      if p c then String c (filterChars p s') else filterChars p s'
  end.

End Str.

(* ===================================================================== *)
(** ** Regular expressions

    A backtracking matcher with the priorities of the ECMAScript one:
    alternatives left to right, greedy repetitions longest first, lazy
    ones shortest first, an iteration that consumes nothing is refused,
    a lookahead is matched once and not re-entered. *)
(* ===================================================================== *)

Module Re.

Inductive regex : Type :=
| Eps                                  (* the empty pattern *)
| Chr (p : ascii -> bool)              (* one character of a class *)
| Cat (a b : regex)                    (* a b *)
| Alt (a b : regex)                    (* a|b *)
| Star (greedy : bool) (a : regex)     (* a* and a*? *)
| Grp (i : nat) (a : regex)            (* capturing group number i *)
| Look (a : regex)                     (* (?=a) *)
| Bos                                  (* ^ without the m flag *)
| Eos.                                 (* $ without the m flag *)

Record mstate : Type := MState {
  pos : nat;                     (* index of the next character *)
  rest : string;                 (* the input from [pos] on *)
  caps : list (nat * string)     (* captures, latest first *)
}.

(** The repetition of a pattern whose matcher is [step]: at most [fuel]
    more iterations, each of which has to consume a character. *)
Fixpoint iterate (step : mstate -> (mstate -> option mstate) -> option mstate)
  (greedy : bool) (k : mstate -> option mstate) (fuel : nat) (st : mstate)
  {struct fuel} : option mstate :=
  match fuel with
  | 0 => k st
  | S fuel' =>
      let again := fun st' =>
        if String.length (rest st') <? String.length (rest st)
        then iterate step greedy k fuel' st' else None in
      if greedy then
        match step st again with
        | Some x => Some x
        | None => k st
        end
      else
        match k st with
        | Some x => Some x
        | None => step st again
        end
  end.

(** [run r st k]: match [r] from the state [st], then go on with [k];
    the first success in the order of the priorities is the result. *)
Fixpoint run (r : regex) (st : mstate) (k : mstate -> option mstate)
  {struct r} : option mstate :=
  match r with
  | Eps => k st
  | Chr p =>
      match rest st with
      | String c s' =>
          if p c then k (MState (S (pos st)) s' (caps st)) else None
      | EmptyString => None
      end
  | Cat a b => run a st (fun st' => run b st' k)
  | Alt a b =>
      match run a st k with
      | Some x => Some x
      | None => run b st k
      end
  | Star greedy a => iterate (run a) greedy k (String.length (rest st)) st
  | Grp i a =>
      run a st (fun st' =>
        k (MState (pos st') (rest st')
             ((i, Str.take (pos st' - pos st) (rest st)) :: caps st')))
  | Look a =>
      match run a st Some with
      | Some st' => k (MState (pos st) (rest st) (caps st'))
      | None => None
      end
  | Bos => if pos st =? 0 then k st else None
  | Eos =>
      match rest st with
      | EmptyString => k st
      | String _ _ => None
      end
  end.

(** Derived forms. *)
Definition plus (a : regex) : regex := Cat a (Star true a).
Definition plusLazy (a : regex) : regex := Cat a (Star false a).
Definition star (a : regex) : regex := Star true a.

Fixpoint lit (s : string) : regex :=
  match s with
  | EmptyString => Eps
  | String c s' => Cat (Chr (Str.isChar c)) (lit s')
  end.

Fixpoint seq (rs : list regex) : regex :=
  match rs with
  | [] => Eps
  | [r] => r
  | r :: rs' => Cat r (seq rs')
  end.

Definition digit : regex := Chr Str.isDigit.                  (* \d *)
Definition word : regex := Chr Str.isWord.                    (* \w *)
Definition space : regex := Chr Str.isSpace.                  (* \s *)
Definition anyChar : regex := Chr (fun _ => true).            (* [\s\S] *)
Definition dot : regex :=                                     (* . *)
  Chr (fun c => negb (Str.isLineTerminator c)).
Definition noneOf (set : string) : regex :=                   (* [^...] *)
  Chr (fun c => negb (Str.oneOf set c)).
Definition anyOf (set : string) : regex :=                    (* [...] *)
  Chr (Str.oneOf set).

(** The result of a successful match. *)
Record result : Type := Result {
  index : nat;                   (* where the match starts *)
  stop : nat;                    (* where it ends *)
  text : string;                 (* the matched text, [m[0]] *)
  groups : list (nat * string)
}.

(** [m[i]] for a group that took part in the match. *)
Fixpoint lookup (i : nat) (gs : list (nat * string)) : string :=
  match gs with
  | [] => EmptyString
  | (j, s) :: gs' => if i =? j then s else lookup i gs'
  end.

Definition group (i : nat) (m : result) : string := lookup i (groups m).

(** The match that starts exactly at position [p], where [s] is the
    input from [p] on. *)
Definition matchAt (r : regex) (p : nat) (s : string) : option result :=
  match run r (MState p s []) Some with
  | Some st => Some (Result p (pos st) (Str.take (pos st - p) s) (caps st))
  | None => None
  end.

(** The leftmost match at or after position [p]. *)
Fixpoint search (r : regex) (p : nat) (s : string) : option result :=
  match matchAt r p s with
  | Some m => Some m
  | None =>
      match s with
      | EmptyString => None
      | String _ s' => search r (S p) s'
      end
  end.

(** [s.match(r)] and [r.exec(s)] for a regex without the g flag. *)
Definition exec (r : regex) (s : string) : option result := search r 0 s.

(** The successive results of [r.exec(s)] for a regex with the g flag,
    from [lastIndex = p] until it returns null.  An empty match moves
    on by one character. *)
Fixpoint execAll_from (r : regex) (fuel p : nat) (s : string)
  : list result :=
  match fuel with
  | 0 => []
  | S fuel' =>
      match search r p s with
      | None => []
      | Some m =>
          let next := if index m <? stop m then stop m else S (stop m) in
          m :: execAll_from r fuel' next (Str.drop (next - p) s)
      end
  end.

Definition execAll (r : regex) (s : string) : list result :=
  execAll_from r (S (String.length s)) 0 s.

(** [s.match(r)] for a regex with the g flag: the matched texts, or
    null when there is none. *)
Definition matchG (r : regex) (s : string) : option (list string) :=
  match execAll r s with
  | [] => None
  | ms => Some (map text ms)
  end.

(** [s.replace(r, by)] for a regex with the g flag and a replacement
    without dollar patterns. *)
Fixpoint replace_go (ms : list result) (by_ : string) (p : nat) (s : string)
  : string :=
  match ms with
  | [] => s
  | m :: ms' =>
      Str.take (index m - p) s +++ by_
        +++ replace_go ms' by_ (stop m) (Str.drop (stop m - p) s)
  end.

Definition replaceG (r : regex) (by_ : string) (s : string) : string :=
  replace_go (execAll r s) by_ 0 s.

(** [s.replace(r, by)] for a regex without the g flag. *)
Definition replace (r : regex) (by_ : string) (s : string) : string :=
  match exec r s with
  | None => s
  | Some m => Str.take (index m) s +++ by_ +++ Str.drop (stop m) s
  end.

(** [s.split(r)] for a regex without capturing groups: [p] is the start
    of the pending piece and [q] the position that is tried next.  A
    position is tried twice at most, once more after a cut was made at
    it. *)
Fixpoint split_go (r : regex) (fuel p q : nat) (s : string) : list string :=
  match fuel with
  | 0 => [Str.drop p s]
  | S fuel' =>
      if String.length s <=? q then [Str.drop p s]
      else
        match matchAt r q (Str.drop q s) with
        | None => split_go r fuel' p (S q) s
        | Some m =>
            let e := Nat.min (stop m) (String.length s) in
            if e =? p then split_go r fuel' p (S q) s
            else Str.substring p q s :: split_go r fuel' e e s
        end
  end.

Definition split (r : regex) (s : string) : list string :=
  match s with
  | EmptyString =>
      match matchAt r 0 s with
      | Some _ => []
      | None => [s]
      end
  | String _ _ => split_go r (2 * String.length s + 2) 0 0 s
  end.

End Re.

Import Re.

(* ===================================================================== *)
(** ** Objects used as dictionaries

    The own properties of an object, in creation order.  Assigning to a
    property that exists keeps its place; [for (k in o)] visits the keys
    that are array indices first, in ascending order, and then the other
    keys in creation order. *)
(* ===================================================================== *)

Module Obj.

Definition t (V : Type) : Type := list (string * V).

Section Ops.
Context {V : Type}.

Fixpoint get (k : string) (o : t V) : option V :=
  match o with
  | [] => None
  | (k', v) :: o' => if String.eqb k k' then Some v else get k o'
  end.

(** [o[k] = v], for a key other than [__proto__]. *)
Fixpoint set (k : string) (v : V) (o : t V) : t V :=
  match o with
  | [] => [(k, v)]
  | (k', v') :: o' =>
      if String.eqb k k' then (k', v) :: o' else (k', v') :: set k v o'
  end.

Definition keys (o : t V) : list string := map fst o.

Definition values (o : t V) : list V := map snd o.

Definition has (k : string) (o : t V) : bool :=
  match get k o with
  | Some _ => true
  | None => false
  end.
End Ops.

(** The names of the members of [Object.prototype], which every object
    inherits: eleven functions, and the accessor [__proto__]. *)
Definition members : list string :=
  ["constructor"; "__defineGetter__"; "__defineSetter__"; "hasOwnProperty";
   "__lookupGetter__"; "__lookupSetter__"; "isPrototypeOf";
   "propertyIsEnumerable"; "toString"; "valueOf"; "__proto__";
   "toLocaleString"].

Definition inherited (k : string) : bool := existsb (String.eqb k) members.

(** What a read [o[k]] finds: the value of an own property, or the
    member of [Object.prototype] of that name.  Both are truthy in the
    objects of this program, whose own values are objects, arrays,
    [true] and non-empty strings. *)
Inductive found (V : Type) : Type :=
| Value (v : V)
| Member (name : string).

Arguments Value {V} v.
Arguments Member {V} name.

(** [o[k]], with [None] for [undefined]. *)
Definition read {V : Type} (k : string) (o : t V) : option (found V) :=
  match get k o with
  | Some v => Some (Value v)
  | None => if inherited k then Some (Member k) else None
  end.

(** The value of a string of decimal digits. *)
Fixpoint decimal (acc : N) (s : string) : option N :=
  match s with
  | EmptyString => Some acc
  | String c s' =>
      if Str.isDigit c
      then decimal (acc * 10 + N.of_nat (Str.code c - 48)) s'
      else None
  end.

(** A key is an array index when it is the canonical decimal form of an
    integer below 2^32 - 1. *)
Definition arrayIndex (k : string) : option N :=
  match k with
  | EmptyString => None
  | String c k' =>
      if Ascii.eqb c "0" && negb (String.eqb k' EmptyString) then None
      else if 10 <? String.length k then None
      else
        match decimal 0 k with
        | Some n => if (n <? 4294967295)%N then Some n else None
        | None => None
        end
  end.

Fixpoint insertIndex (x : N * string) (l : list (N * string))
  : list (N * string) :=
  match l with
  | [] => [x]
  | y :: l' => if (fst x <=? fst y)%N then x :: l else y :: insertIndex x l'
  end.

Fixpoint indexKeys (ks : list string) : list (N * string) :=
  match ks with
  | [] => []
  | k :: ks' =>
      match arrayIndex k with
      | Some n => insertIndex (n, k) (indexKeys ks')
      | None => indexKeys ks'
      end
  end.

Definition isNamed (k : string) : bool :=
  match arrayIndex k with
  | Some _ => false
  | None => true
  end.

(** The keys in the order of [for (k in o)]. *)
Definition forIn {V : Type} (o : t V) : list string :=
  map snd (indexKeys (keys o)) ++ filter isNamed (keys o).

End Obj.


(* ===================================================================== *)
(** ** Values stored in a capability record *)
(* ===================================================================== *)

(** The result of [parseInt(s, 10)]: NaN when [s] does not start with a
    digit; the integer that the digits write when it is at most 2^53 in
    absolute value, where every integer is a number; beyond, the number
    that the implementation rounds the integer [z] to (infinite for the
    largest), of which nothing more is said. *)
Inductive num : Type :=
| NaN
| Int (z : Z)
| Rounded (z : Z).

(** The number for the integer [z]. *)
Definition number (z : Z) : num :=
  if (Z.abs z <=? 9007199254740992)%Z then Int z else Rounded z.

(** The result of [parseFloat(src)], kept as the text it is read from. *)
Inductive float : Type :=
| ParseFloat (src : string).

Inductive value : Type :=
| VNum (n : num)
| VStr (s : string)
| VBool (b : bool)
| VStrings (l : list string)             (* an array of strings *)
| VCost (fields : Obj.t float)           (* the [costInfo] object *)
| VFloatText (f : float) (suffix : string).  (* the template [`${f}suffix`] *)

(** A capability record, the [details] object of [parseModelDetails]. *)
Definition Capabilities : Type := Obj.t value.

Fixpoint digitsValue (acc : option Z) (s : string) : option Z :=
  match s with
  | EmptyString => acc
  | String c s' =>
      if Str.isDigit c
      then digitsValue
             (Some (match acc with Some a => a | None => 0 end * 10
                    + Z.of_nat (Str.code c - 48))%Z) s'
      else acc
  end.

(** [parseInt(s, 10)]: leading white space, an optional sign, then the
    longest run of digits. *)
Definition parseInt (s : string) : num :=
  let s := Str.trimStart s in
  let '(neg, ds) :=
    match s with
    | String "-" s' => (true, s')
    | String "+" s' => (false, s')
    | _ => (false, s)
    end in
  match digitsValue None ds with
  | Some z => number (if neg then - z else z)%Z
  | None => NaN
  end.

Definition LF : string := String (ascii_of_nat 10) EmptyString.
Definition doubleQuote : string := String (ascii_of_nat 34) EmptyString.
(** The single and the double quote: the members of the character class
    written [Q] in the patterns quoted below. *)
Definition quotes : string := "'" +++ doubleQuote.

(* ===================================================================== *)
(** ** parseModelDetails *)
(* ===================================================================== *)

(** [/name:\s*([^,\n]+)/] *)
Definition fieldRe (name : string) : regex :=
  seq [lit name; lit ":"; star space; Grp 1 (plus (noneOf ("," +++ LF)))].

(** [/name:\s*Q([^Q]+)Q/] *)
Definition quotedRe (name : string) : regex :=
  seq [lit name; lit ":"; star space; anyOf quotes;
       Grp 1 (plus (noneOf quotes)); anyOf quotes].

(** [/name:\s*(\d+)/] *)
Definition digitsRe (name : string) : regex :=
  seq [lit name; lit ":"; star space; Grp 1 (plus digit)].

(** [/reasoningCapabilities:\s*(\{[^}]+\}|false)/] *)
Definition reasoningRe : regex :=
  seq [lit "reasoningCapabilities:"; star space;
       Grp 1 (Alt (seq [lit "{"; plus (noneOf "}"); lit "}"]) (lit "false"))].

(** [/reasoningSlider:\s*(\{[^}]+\})/] *)
Definition reasoningSliderRe : regex :=
  seq [lit "reasoningSlider:"; star space;
       Grp 1 (seq [lit "{"; plus (noneOf "}"); lit "}"])].

(** [/values:\s*\[([^\]]+)\]/] *)
Definition valuesRe : regex :=
  seq [lit "values:"; star space; lit "["; Grp 1 (plus (noneOf "]")); lit "]"].

(** [/openSourceThinkTags:\s*\[\s*Q([^Q]+)Q\s*,\s*Q([^Q]+)Q\s*\]/] *)
Definition thinkTagsRe : regex :=
  seq [lit "openSourceThinkTags:"; star space; lit "["; star space;
       anyOf quotes; Grp 1 (plus (noneOf quotes)); anyOf quotes;
       star space; lit ","; star space;
       anyOf quotes; Grp 2 (plus (noneOf quotes)); anyOf quotes;
       star space; lit "]"].

(** [/cost:\s*{\s*([^}]+)\s*}/] *)
Definition costRe : regex :=
  seq [lit "cost:"; star space; lit "{"; star space;
       Grp 1 (plus (noneOf "}")); star space; lit "}"].

(** [/sizeGb:\s*([^,\n}]+)/] *)
Definition sizeGbRe : regex :=
  seq [lit "sizeGb:"; star space; Grp 1 (plus (noneOf ("," +++ LF +++ "}")))].

(** [s.replace(/[^0-9]/g, '')] *)
Definition stripNonDigits (s : string) : string :=
  replaceG (Chr (fun c => negb (Str.isDigit c))) "" s.

(** [v === s] for a property value [v] that may be undefined. *)
Definition isString (v : option value) (s : string) : bool :=
  match v with
  | Some (VStr t) => String.eqb t s
  | _ => false
  end.

(** The statements of [parseModelDetails] that fill in the slider fields,
    run when [reasoningSlider] matched with text [sliderValue]. *)
Definition parseSlider (sliderValue : string) (details : Capabilities)
  : Capabilities :=
  let details :=
    match exec (quotedRe "type") sliderValue with
    | Some m => Obj.set "reasoningSliderType" (VStr (group 1 m)) details
    | None => details
    end in
  if isString (Obj.get "reasoningSliderType" details) "budget_slider" then
    let minMatch := exec (digitsRe "min") sliderValue in
    let maxMatch := exec (digitsRe "max") sliderValue in
    let defaultMatch := exec (digitsRe "default") sliderValue in
    let details :=
      match minMatch with
      | Some m =>
          Obj.set "reasoningBudgetMin" (VNum (parseInt (group 1 m))) details
      | None => details
      end in
    let details :=
      match maxMatch with
      | Some m =>
          Obj.set "reasoningBudgetMax" (VNum (parseInt (group 1 m))) details
      | None => details
      end in
    match defaultMatch with
    | Some m =>
        Obj.set "reasoningBudgetDefault" (VNum (parseInt (group 1 m))) details
    | None => details
    end
  else if isString (Obj.get "reasoningSliderType" details) "effort_slider" then
    let valuesMatch := exec valuesRe sliderValue in
    let defaultMatch := exec (quotedRe "default") sliderValue in
    let details :=
      match valuesMatch with
      | Some m =>
          Obj.set "reasoningEffortValues"
            (VStrings (map (fun v => replaceG (anyOf quotes) "" (Str.trim v))
                           (Str.split "," (group 1 m))))
            details
      | None => details
      end in
    match defaultMatch with
    | Some m => Obj.set "reasoningEffortDefault" (VStr (group 1 m)) details
    | None => details
    end
  else details.

(** The statements run when [reasoningCapabilities] matched with the
    trimmed text [value]. *)
Definition parseReasoning (value : string) (details : Capabilities) : Capabilities :=
  if String.eqb value "false" then
    Obj.set "hasReasoning" (VBool false) details
  else
    let details := Obj.set "hasReasoning" (VBool true) details in
    let details :=
      match exec (fieldRe "canTurnOffReasoning") value with
      | Some m =>
          Obj.set "canTurnOffReasoning"
            (VBool (String.eqb (Str.trim (group 1 m)) "true")) details
      | None => details
      end in
    let details :=
      match exec (fieldRe "canIOReasoning") value with
      | Some m =>
          Obj.set "canIOReasoning"
            (VBool (String.eqb (Str.trim (group 1 m)) "true")) details
      | None => details
      end in
    let details :=
      match exec reasoningSliderRe value with
      | Some m => parseSlider (group 1 m) details
      | None => details
      end in
    match exec thinkTagsRe value with
    | Some m => Obj.set "thinkTags" (VStrings [group 1 m; group 2 m]) details
    | None => details
    end.

(** The [costInfo] object built from the text inside [cost: { ... }]. *)
Definition parseCost (costContent : string) : Obj.t float :=
  let costInfo : Obj.t float := [] in
  let costInfo :=
    match exec (fieldRe "input") costContent with
    | Some m => Obj.set "input" (ParseFloat (group 1 m)) costInfo
    | None => costInfo
    end in
  let costInfo :=
    match exec (fieldRe "output") costContent with
    | Some m => Obj.set "output" (ParseFloat (group 1 m)) costInfo
    | None => costInfo
    end in
  let costInfo :=
    match exec (fieldRe "cache_read") costContent with
    | Some m => Obj.set "cacheRead" (ParseFloat (group 1 m)) costInfo
    | None => costInfo
    end in
  match exec (fieldRe "cache_write") costContent with
  | Some m => Obj.set "cacheWrite" (ParseFloat (group 1 m)) costInfo
  | None => costInfo
  end.

(** The statements run when [downloadable] matched. *)
Definition parseDownloadable (modelSection value : string) (details : Capabilities)
  : Capabilities :=
  let downloadable := negb (String.eqb value "false") in
  let details := Obj.set "downloadable" (VBool downloadable) details in
  if downloadable then
    match exec sizeGbRe modelSection with
    | Some m =>
        let sizeValue := Str.trim (group 1 m) in
        Obj.set "downloadSize"
          (if String.eqb sizeValue "'not-known'" then VStr "Unknown"
           else VFloatText (ParseFloat sizeValue) " GB")
          details
    | None => details
    end
  else details.

Definition parseModelDetails (modelSection : string) : Capabilities :=
  let details : Capabilities := [] in
  (* Extract context window *)
  let details :=
    match exec (fieldRe "contextWindow") modelSection with
    | Some m =>
        Obj.set "contextWindow"
          (VNum (parseInt (stripNonDigits (group 1 m)))) details
    | None => details
    end in
  (* Extract reserved output token space *)
  let details :=
    match exec (fieldRe "reservedOutputTokenSpace") modelSection with
    | Some m =>
        let value := Str.trim (group 1 m) in
        Obj.set "reservedOutputTokenSpace"
          (if String.eqb value "null" then VStr "Not specified"
           else VNum (parseInt (stripNonDigits value)))
          details
    | None => details
    end in
  (* Extract system message support *)
  let details :=
    match exec (fieldRe "supportsSystemMessage") modelSection with
    | Some m =>
        let value := Str.trim (group 1 m) in
        Obj.set "supportsSystemMessage"
          (if String.eqb value "false" then VBool false
           else VStr (replaceG (lit "'") "" value))
          details
    | None => details
    end in
  (* Extract FIM support *)
  let details :=
    match exec (fieldRe "supportsFIM") modelSection with
    | Some m =>
        Obj.set "supportsFIM"
          (VBool (String.eqb (Str.trim (group 1 m)) "true")) details
    | None => details
    end in
  (* Extract special tool format *)
  let details :=
    match exec (quotedRe "specialToolFormat") modelSection with
    | Some m => Obj.set "specialToolFormat" (VStr (group 1 m)) details
    | None => details
    end in
  (* Extract reasoning capabilities *)
  let details :=
    match exec reasoningRe modelSection with
    | Some m => parseReasoning (Str.trim (group 1 m)) details
    | None => details
    end in
  (* Extract cost information *)
  let details :=
    match exec costRe modelSection with
    | Some m => Obj.set "cost" (VCost (parseCost (group 1 m))) details
    | None => details
    end in
  (* Extract downloadable info *)
  match exec (fieldRe "downloadable") modelSection with
  | Some m => parseDownloadable modelSection (Str.trim (group 1 m)) details
  | None => details
  end.


(* ===================================================================== *)
(** ** Completions

    A call either returns a value or ends abruptly with an exception. *)
(* ===================================================================== *)

Inductive error : Type :=
| Error (message : string).

Inductive completion (A : Type) : Type :=
| Return (a : A)
| Throw (e : error).

Arguments Return {A} a.
Arguments Throw {A} e.

Definition bind {A B : Type} (c : completion A) (f : A -> completion B)
  : completion B :=
  match c with
  | Return a => f a
  | Throw e => Throw e
  end.

Notation "x <- c ;; k" := (bind c (fun x => k))
  (at level 61, c at next level, right associativity).

(** [try { body } catch (err) { handler }] *)
Definition tryCatch {A : Type} (body : completion A)
  (handler : error -> completion A) : completion A :=
  match body with
  | Return a => Return a
  | Throw e => handler e
  end.

(** [c] returns, and its value satisfies [P]. *)
Definition returns {A : Type} (c : completion A) (P : A -> Prop) : Prop :=
  match c with
  | Return a => P a
  | Throw _ => False
  end.

(** [forEach] over a list with a body that may throw. *)
Fixpoint forEachM {A S : Type} (body : S -> A -> completion S)
  (l : list A) (s : S) : completion S :=
  match l with
  | [] => Return s
  | x :: l' => s' <- body s x ;; forEachM body l' s'
  end.

(* ===================================================================== *)
(** ** The host

    What the program takes from its environment: the collation behind
    [localeCompare], and the fragments on which the call of the field
    extractor ends abruptly.  The extractor as written raises on no
    string: the program is the host [raises := fun _ => false].  The
    other hosts serve to state that a property of the fault boundary
    holds wherever a fault comes from. *)
(* ===================================================================== *)

Record Host : Type := {
  localeCompare : string -> string -> comparison;
  raises : string -> bool
}.

(* ===================================================================== *)
(** ** The data model *)
(* ===================================================================== *)

(** The [capabilities] of a model are a capability record or, when they
    are read under a name that no record has, the member of
    [Object.prototype] of that name. *)
Module Model.
Record t : Type := Make {
  name : string;
  capabilities : Obj.found Capabilities
}.
End Model.

(** A provider while its [models] are still names.  The description is
    what [getProviderDescription] returns. *)
Module Declared.
Record t : Type := Make {
  name : string;
  models : list string;
  description : Obj.found string
}.
End Declared.

Module Provider.
Record t : Type := Make {
  name : string;
  models : list Model.t;
  description : Obj.found string;
  unlistedModels : option (list Model.t)
}.
End Provider.

Module Entry.
Record t : Type := Make { name : string; content : string }.
End Entry.

Record Output : Type := { providers : Obj.t Provider.t }.

(* ===================================================================== *)
(** ** getProviderDescription and getProviderFromModelName *)
(* ===================================================================== *)

Definition descriptions : Obj.t string :=
  [("openAI", "OpenAI's cutting-edge models known for state-of-the-art performance across a wide range of tasks.");
   ("anthropic", "Anthropic's Claude models emphasize safety, helpfulness, and alignment with human values.");
   ("xAI", "X.AI's Grok models designed to be informative, conversational, and knowledgeable.");
   ("gemini", "Google's Gemini multimodal models combining text, code, images, and more.");
   ("deepseek", "DeepSeek's models focusing on deep reasoning and specialized for coding tasks.");
   ("ollama", "Open-source platform for running local models with easy setup and management.");
   ("vLLM", "High-throughput, memory-efficient inference engine for large language models.");
   ("openRouter", "Platform providing unified access to models from multiple providers.");
   ("groq", "Fast inference platform with optimized infrastructure for LLM performance.");
   ("mistral", "Models designed for efficiency and performance in a range of enterprise applications.");
   ("openAICompatible", "Models compatible with OpenAI's API format from various providers.");
   ("lmStudio", "Desktop application for running LLMs locally with an intuitive interface.");
   ("liteLLM", "Tool for standardizing API calls across different LLM providers.");
   ("googleVertex", "Google's Vertex AI platform for machine learning and AI model deployment.");
   ("microsoftAzure", "Microsoft's cloud-based AI services with integration into Azure.");
   ("meta", "Meta's Llama family of open source large language models.");
   ("qwen", "Alibaba Cloud's Qwen models excelling in reasoning and multilingual capabilities.");
   ("other", "Miscellaneous AI models from various providers.")].

(** [descriptions[providerName] || `AI model provider: ${providerName}`] *)
Definition getProviderDescription (providerName : string)
  : Obj.found string :=
  match Obj.read providerName descriptions with
  | Some d => d
  | None => Obj.Value ("AI model provider: " +++ providerName)
  end.

Definition getProviderFromModelName (modelName : string) : option string :=
  let modelLower := Str.toLowerCase modelName in
  if Str.includes "gpt" modelLower || Str.startsWith "o1" modelLower
     || Str.startsWith "o3" modelLower || Str.startsWith "o4" modelLower
  then Some "openAI"
  else if Str.includes "claude" modelLower then Some "anthropic"
  else if Str.includes "grok" modelLower then Some "xAI"
  else if Str.includes "gemini" modelLower then Some "gemini"
  else if Str.includes "llama" modelLower then Some "meta"
  else if Str.includes "mistral" modelLower
          || Str.includes "codestral" modelLower then Some "mistral"
  else if Str.includes "deepseek" modelLower then Some "deepseek"
  else if Str.includes "qwen" modelLower then Some "qwen"
  else None.

(* ===================================================================== *)
(** ** findModelDetails *)
(* ===================================================================== *)

(** The chain of replacements that [findModelDetails] applies to the
    lower-cased queried name and to every lower-cased key. *)
Definition normalizeName (lowered : string) : string :=
  let s := replaceG (Chr (fun c => Str.oneOf "-_." c || Str.isSpace c))
                    "" lowered in                     (* /[-_\s.]/g *)
  let s := replaceG (seq [plus digit; lit "."; plus digit]) "" s in
                                                      (* /\d+\.\d+/g *)
  let s := replaceG (seq [plus digit; lit "b"]) "" s in   (* /\d+b/g *)
  replace (seq [lit ":"; star dot; Eos]) "" s.        (* /:.*$/ *)

Definition modelFamilies : Obj.t (list string) :=
  [("gpt4", ["gpt-4"; "gpt-4o"; "gpt-4.1"; "o4"]);
   ("gpt3", ["gpt-3.5"; "gpt-3"]);
   ("claude", ["claude-3"; "claude-3.5"; "claude-3.7"; "claude-3-opus";
               "claude-3-sonnet"]);
   ("llama", ["llama3"; "llama-3"; "llama-3.1"; "llama-3.2"; "llama-3.3"]);
   ("gemini", ["gemini-1.5"; "gemini-2.0"; "gemini-2.5"]);
   ("mistral", ["mistral"; "ministral"; "codestral"]);
   ("qwen", ["qwen"; "qwen-2.5"; "qwen-3"; "qwq"])].

(** [patterns.some(pattern => name.toLowerCase().includes(pattern.toLowerCase()))] *)
Definition inFamily (patterns : list string) (name : string) : bool :=
  existsb (fun pattern =>
             Str.includes (Str.toLowerCase pattern) (Str.toLowerCase name))
          patterns.

(** The first key of [for (k in o)] that satisfies [p], with its value. *)
Definition firstKey {V : Type} (p : string -> bool) (o : Obj.t V) : option V :=
  match find p (Obj.forIn o) with
  | Some k => Obj.get k o
  | None => None
  end.

Fixpoint familyMatch (families : list (string * list string))
  (modelName : string) (modelInfoBlocks : Obj.t Capabilities)
  : option Capabilities :=
  match families with
  | [] => None
  | (_, patterns) :: families' =>
      if inFamily patterns modelName then
        match firstKey (inFamily patterns) modelInfoBlocks with
        | Some d => Some d
        | None => familyMatch families' modelName modelInfoBlocks
        end
      else familyMatch families' modelName modelInfoBlocks
  end.

(** The result is [None] for [null]. *)
Definition findModelDetails (modelName : string)
  (modelInfoBlocks : Obj.t Capabilities) : option (Obj.found Capabilities) :=
  match Obj.read modelName modelInfoBlocks with
  | Some d => Some d                                  (* direct match *)
  | None =>
      let normalizedModelName := normalizeName (Str.toLowerCase modelName) in
      match firstKey (fun blockModelName =>
                let normalizedBlockName :=
                  normalizeName (Str.toLowerCase blockModelName) in
                Str.includes normalizedBlockName normalizedModelName
                || Str.includes normalizedModelName normalizedBlockName)
              modelInfoBlocks with
      | Some d => Some (Obj.Value d)
      | None =>
          option_map Obj.Value
            (familyMatch modelFamilies modelName modelInfoBlocks)
      end
  end.

(* ===================================================================== *)
(** ** extractModelsFromBlock *)
(* ===================================================================== *)

(** [new RegExp(`const ${blockName} = \\{([\\s\\S]+?)\\} as const`)] and
    the same after [export]; a block name is made of word characters,
    which stand for themselves in a pattern. *)
Definition blockRegexes (blockName : string) : list regex :=
  [seq [lit "const "; lit blockName; lit " = {";
        Grp 1 (plusLazy anyChar); lit "} as const"];
   seq [lit "export const "; lit blockName; lit " = {";
        Grp 1 (plusLazy anyChar); lit "} as const"]].

(** The first pattern of the list that matches, with its match. *)
Fixpoint firstMatch (regexes : list regex) (fileContent : string)
  : option result :=
  match regexes with
  | [] => None
  | regex :: regexes' =>
      match exec regex fileContent with
      | Some m => Some m
      | None => firstMatch regexes' fileContent
      end
  end.

(** [/'([^']+)':\s*\{/g] *)
Definition modelNameRegex : regex :=
  seq [lit "'"; Grp 1 (plus (noneOf "'")); lit "':"; star space; lit "{"].

(** The variables of the splitting loop. *)
Record SplitState : Type := {
  modelSections : list Entry.t;
  currentModelName : string;
  lastIndex : nat
}.

(** One turn of [while ((match = modelNameRegex.exec(blockContent)) !== null)]. *)
Definition splitStep (blockContent : string) (st : SplitState) (m : result)
  : SplitState :=
  {| modelSections :=
       if 0 <? lastIndex st
       then modelSections st
              ++ [Entry.Make (currentModelName st)
                    (Str.substring (lastIndex st) (index m) blockContent)]
       else modelSections st;
     currentModelName := group 1 m;
     lastIndex := index m |}.

(** The sections found by the boundary scan, last section included. *)
Definition scanSections (blockContent : string) : list Entry.t :=
  let st := fold_left (splitStep blockContent)
              (execAll modelNameRegex blockContent)
              {| modelSections := []; currentModelName := ""; lastIndex := 0 |} in
  if 0 <? lastIndex st
  then modelSections st
         ++ [Entry.Make (currentModelName st) (Str.drop (lastIndex st) blockContent)]
  else modelSections st.

(** [/(?='\w+[-\w\d.]*':)/] *)
Definition simpleSplitRegex : regex :=
  Look (seq [lit "'"; plus word;
             star (Chr (fun c => Str.oneOf "-." c || Str.isWord c || Str.isDigit c));
             lit "':"]).

(** [/'([^']+)'\s*:/] *)
Definition simpleNameRegex : regex :=
  seq [lit "'"; Grp 1 (plus (noneOf "'")); lit "'"; star space; lit ":"].

(** The fallback, used when the boundary scan found nothing. *)
Definition simpleSections (blockContent : string) : list Entry.t :=
  fold_left (fun modelSections section =>
               match exec simpleNameRegex section with
               | Some m => modelSections ++ [Entry.Make (group 1 m) section]
               | None => modelSections
               end)
            (Re.split simpleSplitRegex blockContent) [].

(** The section-splitting step: from the trimmed block body to the
    [modelSections] array. *)
Definition splitSections (blockContent : string) : list Entry.t :=
  match scanSections blockContent with
  | [] => simpleSections blockContent
  | modelSections => modelSections
  end.

(** The call [parseModelDetails(section.content)] on a host. *)
Definition callParseModelDetails (h : Host) (content : string)
  : completion Capabilities :=
  if raises h content
  then Throw (Error ("parseModelDetails: " +++ content))
  else Return (parseModelDetails content).

Definition extractModelsFromBlock (h : Host) (fileContent blockName : string)
  (modelInfoBlocks : Obj.t Capabilities) : completion (Obj.t Capabilities) :=
  match firstMatch (blockRegexes blockName) fileContent with
  | Some blockMatch =>
      if negb (String.eqb (group 1 blockMatch) "") then
        let blockContent := Str.trim (group 1 blockMatch) in
        forEachM (fun modelInfoBlocks section =>
                    if negb (String.eqb (Entry.name section) "") then
                      d <- callParseModelDetails h (Entry.content section) ;;
                      Return (Obj.set (Entry.name section) d modelInfoBlocks)
                    else Return modelInfoBlocks)
                 (splitSections blockContent) modelInfoBlocks
      else Return modelInfoBlocks
  | None => Return modelInfoBlocks
  end.

(* ===================================================================== *)
(** ** parseModelData *)
(* ===================================================================== *)

(** [/export const defaultProviderSettings = \{([^}]+)\}/s] *)
Definition providerRegex : regex :=
  seq [lit "export const defaultProviderSettings = {";
       Grp 1 (plus (noneOf "}")); lit "}"].

(** [/^\s*(\w+):\s*\{/] *)
Definition providerLineRegex : regex :=
  seq [Bos; star space; Grp 1 (plus word); lit ":"; star space; lit "{"].

(** The statements run on the body [providerMatch[1]] of the declaration:
    one provider for each line of the form [name: {]. *)
Definition readProviderLines (body : string) : Obj.t Declared.t :=
  let providerData := Str.trim body in
  let providerLines := Str.split LF providerData in
  fold_left (fun providers line =>
               match exec providerLineRegex line with
               | Some m =>
                   let providerName := group 1 m in
                   Obj.set providerName
                     (Declared.Make providerName []
                        (getProviderDescription providerName))
                     providers
               | None => providers
               end)
            providerLines [].

(** Extract provider data. *)
Definition declaredProviders (fileContent : string) : Obj.t Declared.t :=
  match exec providerRegex fileContent with
  | Some providerMatch =>
      if negb (String.eqb (group 1 providerMatch) "")
      then readProviderLines (group 1 providerMatch)
      else []
  | None => []
  end.

(** [/export const defaultModelsOfProvider = \{([^}]+)\}/s] *)
Definition defaultModelsRegex : regex :=
  seq [lit "export const defaultModelsOfProvider = {";
       Grp 1 (plus (noneOf "}")); lit "}"].

(** [/(\w+):\s*\[/] *)
Definition providerSectionRegex : regex :=
  seq [Grp 1 (plus word); lit ":"; star space; lit "["].

(** [/'([^']+)'/g] *)
Definition quotedNameRegex : regex :=
  seq [lit "'"; Grp 1 (plus (noneOf "'")); lit "'"].

(** Extract default models of provider. *)
Definition defaultModels (fileContent : string) (providers : Obj.t Declared.t)
  : Obj.t Declared.t :=
  match exec defaultModelsRegex fileContent with
  | Some defaultModelsMatch =>
      if negb (String.eqb (group 1 defaultModelsMatch) "") then
        let modelsData := Str.trim (group 1 defaultModelsMatch) in
        let providerSections := Str.split "]," modelsData in
        fold_left (fun providers section =>
                     match exec providerSectionRegex section with
                     | Some providerMatch =>
                         let providerName := group 1 providerMatch in
                         match Obj.read providerName providers with
                         | Some (Obj.Value p) =>
                             match matchG quotedNameRegex section with
                             | Some modelMatches =>
                                 Obj.set providerName
                                   (Declared.Make (Declared.name p)
                                      (map (replaceG (lit "'") "") modelMatches)
                                      (Declared.description p))
                                   providers
                             | None => providers
                             end
                         | Some (Obj.Member _) =>
                             (* the list goes to the member; [providers]
                                has no new property *)
                             providers
                         | None => providers
                         end
                     | None => providers
                     end)
                  providerSections providers
      else providers
  | None => providers
  end.

(** [/const\s+(NAME)\s*=\s*\{([^}]+)\}\s*as\s*const/g], where NAME is
    [\w+ModelOptions\w*]. *)
Definition allModelBlocksRegex : regex :=
  seq [lit "const"; plus space;
       Grp 1 (seq [plus word; lit "ModelOptions"; star word]);
       star space; lit "="; star space; lit "{";
       Grp 2 (plus (noneOf "}")); lit "}";
       star space; lit "as"; star space; lit "const"].

Definition knownBlocks : list string :=
  ["openAIModelOptions"; "anthropicModelOptions"; "xAIModelOptions";
   "geminiModelOptions"; "openSourceModelOptions_assumingOAICompat";
   "deepseekModelOptions"; "mistralModelOptions"; "groqModelOptions";
   "ollamaModelOptions"; "openRouterModelOptions_assumingOpenAICompat";
   "googleVertexModelOptions"; "microsoftAzureModelOptions"].

(** The block names in the order in which [parseModelData] extracts them:
    the ones found by [allModelBlocksRegex], then the known ones. *)
Definition blockNames (fileContent : string) : list string :=
  map (group 1) (execAll allModelBlocksRegex fileContent) ++ knownBlocks.

(** Extract model capabilities from all possible blocks. *)
Definition extractAllBlocks (h : Host) (fileContent : string)
  : completion (Obj.t Capabilities) :=
  forEachM (fun modelInfoBlocks blockName =>
              extractModelsFromBlock h fileContent blockName modelInfoBlocks)
           (blockNames fileContent) [].

(** [models.filter(model => { if (!uniqueModels[model.name]) { ... } })],
    where [uniqueModels] is given by the names it has as own properties.
    The read [uniqueModels[model.name]] also finds the members of
    [Object.prototype]: a model with such a name is not kept. *)
Fixpoint uniqueFilter (uniqueModels : list string) (models : list Model.t)
  : list Model.t :=
  match models with
  | [] => []
  | model :: models' =>
      if existsb (String.eqb (Model.name model)) uniqueModels
         || Obj.inherited (Model.name model)
      then uniqueFilter uniqueModels models'
      else model :: uniqueFilter (Model.name model :: uniqueModels) models'
  end.

(** [Array.prototype.sort] with a comparison function: a stable sort. *)
Fixpoint insertSorted {A : Type} (cmp : A -> A -> comparison) (x : A)
  (l : list A) : list A :=
  match l with
  | [] => [x]
  | y :: l' =>
      match cmp x y with
      | Gt => y :: insertSorted cmp x l'
      | _ => x :: l
      end
  end.

Definition sort {A : Type} (cmp : A -> A -> comparison) (l : list A) : list A :=
  fold_right (insertSorted cmp) [] l.

(** [(a, b) => a.name.localeCompare(b.name)] *)
Definition byName (h : Host) (a b : Model.t) : comparison :=
  localeCompare h (Model.name a) (Model.name b).

(** [extraModels], which [parseModelData] creates empty and never fills. *)
Definition extraModels : Obj.t (list string) := [].

(** The fault of a call of something that is not a function. *)
Definition notAFunction (what : string) : error :=
  Error ("TypeError: " +++ what +++ " is not a function").

(** The loop over [modelInfoBlocks] that looks for the models of a
    provider without explicit models.  When the name of the model does
    not contain the name of the provider, [extraModels[providerName]] is
    read: it is [undefined] unless the provider is named like a member
    of [Object.prototype], and then the call of [includes] on that
    member raises. *)
Definition scanModelBlocks (providerName : string)
  (modelInfoBlocks : Obj.t Capabilities) (models : list string)
  : completion (list string) :=
  forEachM (fun models modelName =>
              if Str.includes (Str.toLowerCase providerName)
                              (Str.toLowerCase modelName)
              then Return (models ++ [modelName])
              else
                match Obj.read providerName extraModels with
                | Some (Obj.Value l) =>
                    if existsb (String.eqb modelName) l
                    then Return (models ++ [modelName])
                    else Return models
                | Some (Obj.Member _) =>
                    Throw (notAFunction "extraModels[providerName].includes")
                | None => Return models
                end)
           (Obj.forIn modelInfoBlocks) models.

(** [findModelDetails(modelName, modelInfoBlocks) || {}] *)
Definition detailsOrEmpty (modelName : string)
  (modelInfoBlocks : Obj.t Capabilities) : Obj.found Capabilities :=
  match findModelDetails modelName modelInfoBlocks with
  | Some modelDetails => modelDetails
  | None => Obj.Value []
  end.

(** The statements of a turn that follow the scan: map the names to
    models, remove the duplicates, sort. *)
Definition listModels (h : Host) (modelInfoBlocks : Obj.t Capabilities)
  (names : list string) : list Model.t :=
  let models :=
    map (fun modelName =>
           Model.Make modelName (detailsOrEmpty modelName modelInfoBlocks))
        names in
  let models := uniqueFilter [] models in
  sort (byName h) models.

(** One turn of the loop that adds model capabilities to providers, on
    the provider [p] stored under [providerName]. *)
Definition associateProvider (h : Host) (modelInfoBlocks : Obj.t Capabilities)
  (providerName : string) (p : Declared.t) : completion Provider.t :=
  let hasExplicitModels := 0 <? List.length (Declared.models p) in
  names <- (if negb hasExplicitModels
            then scanModelBlocks providerName modelInfoBlocks
                   (Declared.models p)
            else Return (Declared.models p)) ;;
  Return (Provider.Make (Declared.name p)
            (listModels h modelInfoBlocks names)
            (Declared.description p) None).

(** A [for (k in o)] loop whose body reads and reassigns [o[k]] only. *)
Definition forEachOwn {V W : Type} (body : string -> V -> W) (o : Obj.t V)
  : Obj.t W :=
  map (fun kv => (fst kv, body (fst kv) (snd kv))) o.

(** The same loop with a body that may throw.  The turns do not depend on
    each other, and the fault of this program is the same at every turn
    that raises it: the order of the turns does not show in the result. *)
Fixpoint forEachOwnM {V W : Type} (body : string -> V -> completion W)
  (o : Obj.t V) : completion (Obj.t W) :=
  match o with
  | [] => Return []
  | (k, v) :: o' =>
      w <- body k v ;;
      o'' <- forEachOwnM body o' ;;
      Return ((k, w) :: o'')
  end.

(** [providers[providerName].models.some(m => m.name === modelName)] for
    some provider. *)
Definition assigned (providers : Obj.t Provider.t) (modelName : string) : bool :=
  existsb (fun p =>
             existsb (fun m => String.eqb (Model.name m) modelName)
                     (Provider.models p))
          (Obj.values providers).

(** One turn of the loop over the model blocks that collects the models
    no provider lists.  The state is [providers] and
    [unassignedModels['other']].  The hint is one of the eight names that
    [getProviderFromModelName] returns, none of which is a member of
    [Object.prototype]: [providers[providerHint]] is an own property or
    [undefined]. *)
Definition collectStep (modelInfoBlocks : Obj.t Capabilities)
  (st : Obj.t Provider.t * option (list Model.t)) (modelName : string)
  : Obj.t Provider.t * option (list Model.t) :=
  let '(providers, other) := st in
  if assigned providers modelName then st
  else
    let model :=
      Model.Make modelName
        match Obj.read modelName modelInfoBlocks with
        | Some d => d
        | None => Obj.Value []
        end in
    let toOther :=
      (providers,
       Some (match other with Some l => l | None => [] end ++ [model])) in
    match getProviderFromModelName modelName with
    | Some providerHint =>
        match Obj.get providerHint providers with
        | Some p =>
            (Obj.set providerHint
               (Provider.Make (Provider.name p) (Provider.models p)
                  (Provider.description p)
                  (Some (match Provider.unlistedModels p with
                         | Some l => l
                         | None => []
                         end ++ [model])))
               providers,
             other)
        | None => toOther
        end
    | None => toOther
    end.

Definition collectUnassigned (modelInfoBlocks : Obj.t Capabilities)
  (providers : Obj.t Provider.t)
  : Obj.t Provider.t * option (list Model.t) :=
  fold_left (collectStep modelInfoBlocks) (Obj.forIn modelInfoBlocks)
            (providers, None).

(** Add the 'other' provider if there are unassigned models. *)
Definition addOther (other : option (list Model.t))
  (providers : Obj.t Provider.t) : Obj.t Provider.t :=
  match other with
  | Some l =>
      if 0 <? List.length l then
        Obj.set "other"
          (Provider.Make "other" l
             (Obj.Value
                "Models that are not explicitly associated with a specific provider.")
             None)
          providers
      else providers
  | None => providers
  end.

(** Add unlisted models to their respective providers. *)
Definition mergeUnlisted (providerName : string) (p : Provider.t) : Provider.t :=
  match Provider.unlistedModels p with
  | Some unlisted =>
      Provider.Make (Provider.name p) (Provider.models p ++ unlisted)
        (Provider.description p) None
  | None => p
  end.

(** Add empty providers with no models. *)
Definition fillEmpty (providerName : string) (p : Provider.t) : Provider.t :=
  if List.length (Provider.models p) =? 0 then
    Provider.Make (Provider.name p)
      [Model.Make ("No models listed for " +++ providerName) (Obj.Value [])]
      (Provider.description p) (Provider.unlistedModels p)
  else p.

(** The statements of [parseModelData] that follow the loop that adds
    model capabilities to providers: from the [providers] object that
    this loop leaves to the final one. *)
Definition finishProviders (modelInfoBlocks : Obj.t Capabilities)
  (providers : Obj.t Provider.t) : Obj.t Provider.t :=
  let '(providers, other) := collectUnassigned modelInfoBlocks providers in
  let providers := addOther other providers in
  let providers := forEachOwn mergeUnlisted providers in
  forEachOwn fillEmpty providers.

(** The statements of [parseModelData] that follow the extraction of the
    blocks: from the declared providers and the capability records to the
    final [providers] object. *)
Definition resolveProviders (h : Host) (modelInfoBlocks : Obj.t Capabilities)
  (providers : Obj.t Declared.t) : completion (Obj.t Provider.t) :=
  providers <- forEachOwnM (associateProvider h modelInfoBlocks) providers ;;
  Return (finishProviders modelInfoBlocks providers).

(** The body of the [try] statement of [parseModelData]. *)
Definition parseModelData_try (h : Host) (fileContent : string)
  : completion Output :=
  let providers := declaredProviders fileContent in
  let providers := defaultModels fileContent providers in
  modelInfoBlocks <- extractAllBlocks h fileContent ;;
  providers <- resolveProviders h modelInfoBlocks providers ;;
  Return {| providers := providers |}.

(** The empty provider mapping, [{ providers: {} }]. *)
Definition emptyOutput : Output := {| providers := [] |}.

Definition parseModelData (h : Host) (fileContent : string)
  : completion Output :=
  tryCatch (parseModelData_try h fileContent)
           (fun err => Return emptyOutput).
(* ===================================================================== *)
(** ** Sample hosts and documents *)
(* ===================================================================== *)

(** The lines of a text, each followed by a line feed. *)
Fixpoint unlines (l : list string) : string :=
  match l with
  | [] => EmptyString
  | x :: l' => x +++ LF +++ unlines l'
  end.

(** Comparison of strings by code units.  On two names that first differ
    at a pair of digits or at a pair of lower-case letters, the collation
    of every locale gives the same answer. *)
Fixpoint codeUnitCompare (a b : string) : comparison :=
  match a, b with
  | EmptyString, EmptyString => Eq
  | EmptyString, String _ _ => Lt
  | String _ _, EmptyString => Gt
  | String x a', String y b' =>
      match Nat.compare (Str.code x) (Str.code y) with
      | Eq => codeUnitCompare a' b'
      | c => c
      end
  end.

(** The host on which the field extractor never raises. *)
Definition plainHost : Host :=
  {| localeCompare := codeUnitCompare; raises := fun _ => false |}.

(** A host on which the field extractor raises on the entry ['gpt-4.1']. *)
Definition faultyHost : Host :=
  {| localeCompare := codeUnitCompare;
     raises := Str.startsWith "'gpt-4.1'" |}.

(** Two providers with settings objects, an explicit list for one of
    them, and one capability block of three entries. *)
Definition sampleDocument : string :=
  unlines
    ["export const defaultProviderSettings = {";
     "  openAI: {";
     "    apiKey: '',";
     "  },";
     "  anthropic: {";
     "    apiKey: '',";
     "  },";
     "}";
     "";
     "export const defaultModelsOfProvider = {";
     "  openAI: ['o3'],";
     "}";
     "";
     "const openAIModelOptions = {";
     "  'o3': {";
     "    contextWindow: 200_000,";
     "    reservedOutputTokenSpace: null,";
     "  },";
     "  'gpt-4.1': {";
     "    contextWindow: 1_047_576,";
     "    reservedOutputTokenSpace: 32_768,";
     "  },";
     "  'gpt-4o': {";
     "    contextWindow: 128_000,";
     "    reservedOutputTokenSpace: 16_384,";
     "  },";
     "} as const"].

(** The body of a capability block with two entries, the first one at
    offset 0. *)
Definition twoEntries : string :=
  "'o3': { contextWindow: 200_000 }," +++ LF +++
  "'gpt-4o': { contextWindow: 128_000 },".

(** A document whose only capability entry is a Llama model, with no
    provider [meta] declared. *)
Definition llamaDocument : string :=
  unlines
    ["export const defaultProviderSettings = {";
     "  openAI: {";
     "    apiKey: '',";
     "  },";
     "}";
     "";
     "const openSourceModelOptions_assumingOAICompat = {";
     "  // open weights";
     "  'llama3': {";
     "    contextWindow: 32_000,";
     "  },";
     "} as const"].


(** The explicit list of the one provider names [constructor], twice,
    and [gpt-4o]. *)
Definition constructorDocument : string :=
  unlines
    ["export const defaultProviderSettings = {";
     "  openAI: {";
     "    apiKey: '',";
     "  },";
     "}";
     "";
     "export const defaultModelsOfProvider = {";
     "  openAI: ['constructor', 'gpt-4o', 'constructor'],";
     "}"].

(** The names of the models of each provider of an output. *)
Definition modelNames (out : Output) : list (string * list string) :=
  map (fun kv => (fst kv, map Model.name (Provider.models (snd kv))))
      (providers out).


(** An entry fragment whose reserved output token space has no digit. *)
Definition digitlessFragment : string :=
  "'o3': {" +++ LF +++
  "  contextWindow: 200_000," +++ LF +++
  "  reservedOutputTokenSpace: undefined," +++ LF +++
  "},".

(** An entry fragment whose reserved output token space is [null]. *)
Definition nullFragment : string :=
  "'o3': {" +++ LF +++
  "  contextWindow: 200_000," +++ LF +++
  "  reservedOutputTokenSpace: null," +++ LF +++
  "},".

(** The capability records extracted from [llamaDocument]. *)
Definition llamaBlocks : Obj.t Capabilities :=
  Eval vm_compute in
    match extractAllBlocks plainHost llamaDocument with
    | Return modelInfoBlocks => modelInfoBlocks
    | Throw _ => []
    end.


(* ===================================================================== *)
(** ** The order of the output contract *)
(* ===================================================================== *)

(** The order that the output contract of the specification asks of the
    models of a provider: by name, under the collation of the host. *)
Definition sortedByName (h : Host) (models : list Model.t) : Prop :=
  StronglySorted (fun a b => byName h a b <> Gt) models.

(* ===================================================================== *)
(** ** Vocabulary of the statements *)
(* ===================================================================== *)

(** The names of a list of models. *)
Definition names (l : list Model.t) : list string := map Model.name l.

(** The placeholder model of the provider stored under [providerName]. *)
Definition placeholder (providerName : string) : Model.t :=
  Model.Make ("No models listed for " +++ providerName) (Obj.Value []).

(** The models of the provider stored under [providerName], or its
    placeholder when there is none. *)
Definition orPlaceholder (providerName : string) (l : list Model.t)
  : list Model.t :=
  match l with
  | [] => [placeholder providerName]
  | _ => l
  end.

(** The [providers] object that the statements after the association
    loop leave before the last pass, the one that adds the
    placeholders. *)
Definition mergedProviders (modelInfoBlocks : Obj.t Capabilities)
  (providers : Obj.t Provider.t) : Obj.t Provider.t :=
  let '(providers, other) := collectUnassigned modelInfoBlocks providers in
  forEachOwn mergeUnlisted (addOther other providers).

(** The document does not hold the word [__proto__]: no name that the
    patterns of the program take from it is the key whose assignment
    replaces the prototype of an object. *)
Definition protoFree (fileContent : string) : Prop :=
  Str.includes "__proto__" fileContent = false.

(** The keys of the capability mapping whose lower-case form contains
    the lower-case name of the provider, as the scan meets them. *)
Definition scannedNames (providerName : string)
  (modelInfoBlocks : Obj.t Capabilities) : list string :=
  filter (fun modelName =>
            Str.includes (Str.toLowerCase providerName)
                         (Str.toLowerCase modelName))
         (Obj.forIn modelInfoBlocks).

(** The scan for the provider raises: the provider is named like a
    member of [Object.prototype], and the name of some capability entry
    does not contain its name. *)
Definition scanFaults (providerName : string)
  (modelInfoBlocks : Obj.t Capabilities) : bool :=
  Obj.inherited providerName
  && existsb (fun modelName =>
                negb (Str.includes (Str.toLowerCase providerName)
                                   (Str.toLowerCase modelName)))
             (Obj.forIn modelInfoBlocks).

(** The turn of the association loop for the provider [p] raises. *)
Definition turnFaults (modelInfoBlocks : Obj.t Capabilities)
  (providerName : string) (p : Declared.t) : bool :=
  negb (0 <? List.length (Declared.models p))
  && scanFaults providerName modelInfoBlocks.

(** Some turn of the association loop raises. *)
Definition associationFaults (modelInfoBlocks : Obj.t Capabilities)
  (declared : Obj.t Declared.t) : bool :=
  existsb (fun kv => turnFaults modelInfoBlocks (fst kv) (snd kv)) declared.

(** The names that a turn of the association loop maps to models. *)
Definition namesOf (modelInfoBlocks : Obj.t Capabilities)
  (providerName : string) (p : Declared.t) : list string :=
  if negb (0 <? List.length (Declared.models p))
  then Declared.models p ++ scannedNames providerName modelInfoBlocks
  else Declared.models p.

(** The provider that a turn of the association loop leaves when it
    raises no fault. *)
Definition listedProvider (h : Host) (modelInfoBlocks : Obj.t Capabilities)
  (providerName : string) (p : Declared.t) : Provider.t :=
  Provider.Make (Declared.name p)
    (listModels h modelInfoBlocks (namesOf modelInfoBlocks providerName p))
    (Declared.description p) None.

(** The [providers] object that the association loop leaves when no turn
    raises, and the final one. *)
Definition associated (h : Host) (modelInfoBlocks : Obj.t Capabilities)
  (declared : Obj.t Declared.t) : Obj.t Provider.t :=
  forEachOwn (listedProvider h modelInfoBlocks) declared.

Definition resolved (h : Host) (modelInfoBlocks : Obj.t Capabilities)
  (declared : Obj.t Declared.t) : Obj.t Provider.t :=
  finishProviders modelInfoBlocks (associated h modelInfoBlocks declared).

(** The providers that the document declares, with their explicit
    lists. *)
Definition declaredWithLists (fileContent : string) : Obj.t Declared.t :=
  defaultModels fileContent (declaredProviders fileContent).

(** [m] is the first model of [l] with the name [n]. *)
Definition firstNamed (n : string) (l : list Model.t) : option Model.t :=
  find (fun m => String.eqb (Model.name m) n) l.

(** The state of a provider while the unlisted models are collected:
    its models have distinct names, and its unlisted models have distinct
    names, taken from the keys [seen] so far, none of which is the name
    of one of its models. *)
Definition providerDistinct (seen : list string) (p : Provider.t) : Prop :=
  NoDup (names (Provider.models p))
  /\ match Provider.unlistedModels p with
     | Some unlisted =>
         NoDup (names unlisted)
         /\ forall n, In n (names unlisted) ->
                      In n seen /\ ~ In n (names (Provider.models p))
     | None => True
     end.

Definition otherDistinct (seen : list string) (other : option (list Model.t))
  : Prop :=
  match other with
  | Some l => NoDup (names l) /\ forall n, In n (names l) -> In n seen
  | None => True
  end.

(** The entry [modelName] is listed by no provider, and the keyword rules
    lead to no provider of [providers]: either no rule matches the name,
    or the provider of the rule that matches is not there. *)
Definition unrouted (providers : Obj.t Provider.t) (modelName : string) : bool :=
  negb (assigned providers modelName)
  && match getProviderFromModelName modelName with
     | Some providerHint => negb (Obj.has providerHint providers)
     | None => true
     end.

(** The names of the models collected for the provider [other]. *)
Definition otherNames (other : option (list Model.t)) : list string :=
  match other with
  | Some l => names l
  | None => []
  end.

(** Two [providers] objects with the same keys and, key by key, the same
    models. *)
Definition sameModels (a b : Obj.t Provider.t) : Prop :=
  map (fun kv => (fst kv, Provider.models (snd kv))) a
  = map (fun kv => (fst kv, Provider.models (snd kv))) b.

(** A matcher that, when it succeeds, has called its continuation on a
    state further in the input. *)
Definition advances
  (step : mstate -> (mstate -> option mstate) -> option mstate) : Prop :=
  forall st k res,
    step st k = Some res ->
    exists st' pre,
      k st' = Some res
      /\ rest st = pre +++ rest st'
      /\ pos st' = pos st + String.length pre.

(** The separators that [normalizeName] removes first. *)
Definition isSeparator (c : ascii) : bool :=
  Str.oneOf "-_." c || Str.isSpace c.

(** The state of the loop that collects the unlisted models, after the
    keys [seen]. *)
Definition collectDistinct (seen : list string)
  (st : Obj.t Provider.t * option (list Model.t)) : Prop :=
  (forall k p, In (k, p) (fst st) -> providerDistinct seen p)
  /\ otherDistinct seen (snd st).

(** The names that the splitting loop has met: those of the sections
    pushed so far, and the pending one. *)
Definition namesMet (st : SplitState) : list string :=
  map Entry.name (modelSections st) ++ [currentModelName st].

(** The field of the reserved output token space. *)
Definition reservedField : string := "reservedOutputTokenSpace".

(** Every character of [s] is in the class [q]. *)
Fixpoint allOf (q : ascii -> bool) (s : string) : bool :=
  match s with
  | EmptyString => true
  | String c s' => q c && allOf q s'
  end.

(** The integer that the decimal digits of [s] write after those that
    gave [acc]. *)
Fixpoint decimalValue (acc : Z) (s : string) : Z :=
  match s with
  | EmptyString => acc
  | String c s' => decimalValue (acc * 10 + Z.of_nat (Str.code c - 48))%Z s'
  end.

(** [s] is empty or starts with a character outside the class [q]. *)
Definition stopsAt (q : ascii -> bool) (s : string) : bool :=
  match s with
  | EmptyString => true
  | String c _ => negb (q c)
  end.

(** The opening of the provider-settings declaration. *)
Definition providerSettingsOpening : string :=
  "export const defaultProviderSettings = {".

(* ===================================================================== *)
(** ** Vocabulary of the further properties *)
(* ===================================================================== *)

(** The description that [parseModelData] gives to the provider [other]
    that it creates. *)
Definition otherDescription : Obj.found string :=
  Obj.Value
    "Models that are not explicitly associated with a specific provider.".

(** A declared provider is stored under its name, with the description
    of that name. *)
Definition declaredUnderName (ps : Obj.t Declared.t) : Prop :=
  forall k p, In (k, p) ps ->
    Declared.name p = k /\ Declared.description p = getProviderDescription k.

(** A provider is stored under its name, with the description of that
    name or, for [other], the one of the provider that is created. *)
Definition storedUnderName (ps : Obj.t Provider.t) : Prop :=
  forall k p, In (k, p) ps ->
    Provider.name p = k
    /\ (Provider.description p = getProviderDescription k
        \/ (k = "other" /\ Provider.description p = otherDescription)).

(** The entry [n] is waiting in the state of the loop that collects the
    unlisted models: a provider lists it, or holds it as unlisted, or it
    was put aside for the provider [other]. *)
Definition kept (st : Obj.t Provider.t * option (list Model.t)) (n : string)
  : Prop :=
  (exists k p, In (k, p) (fst st)
     /\ (In n (names (Provider.models p))
         \/ exists u, Provider.unlistedModels p = Some u /\ In n (names u)))
  \/ In n (otherNames (snd st)).

(** The model [m] carries the capabilities that [findModelDetails] finds
    for its name. *)
Definition asLookedUp (modelInfoBlocks : Obj.t Capabilities) (m : Model.t)
  : Prop :=
  Model.capabilities m = detailsOrEmpty (Model.name m) modelInfoBlocks.

(** Every model of the provider [p], listed or unlisted, is as looked
    up. *)
Definition providerLookedUp (modelInfoBlocks : Obj.t Capabilities)
  (p : Provider.t) : Prop :=
  (forall m, In m (Provider.models p) -> asLookedUp modelInfoBlocks m)
  /\ forall u, Provider.unlistedModels p = Some u ->
               forall m, In m u -> asLookedUp modelInfoBlocks m.

(** The state of the loop that collects the unlisted models holds models
    as looked up only. *)
Definition stateLookedUp (modelInfoBlocks : Obj.t Capabilities)
  (st : Obj.t Provider.t * option (list Model.t)) : Prop :=
  (forall k p, In (k, p) (fst st) -> providerLookedUp modelInfoBlocks p)
  /\ forall m, In m (match snd st with Some l => l | None => [] end) ->
               asLookedUp modelInfoBlocks m.

(** The unlisted models of every provider are entries of the capability
    mapping that the keyword rules lead to that provider. *)
Definition routedHere (modelInfoBlocks : Obj.t Capabilities)
  (ps : Obj.t Provider.t) : Prop :=
  forall k p u, In (k, p) ps -> Provider.unlistedModels p = Some u ->
    forall n, In n (names u) ->
      getProviderFromModelName n = Some k /\ In n (Obj.keys modelInfoBlocks).

(** [cmp] never answers [Gt] both ways. *)
Definition neverBothGreater (cmp : string -> string -> comparison) : Prop :=
  forall a b, cmp a b = Gt -> cmp b a <> Gt.

(** The relation [cmp a b <> Gt] is transitive. *)
Definition notGreaterTransitive (cmp : string -> string -> comparison) : Prop :=
  forall a b c, cmp a b <> Gt -> cmp b c <> Gt -> cmp a c <> Gt.

(** The capability records extracted from [sampleDocument]. *)
Definition sampleBlocks : Obj.t Capabilities :=
  Eval vm_compute in
    match extractAllBlocks plainHost sampleDocument with
    | Return modelInfoBlocks => modelInfoBlocks
    | Throw _ => []
    end.

(** The record of [llama3] in [llamaBlocks]. *)
Definition llamaRecord : Capabilities :=
  Eval vm_compute in
    match Obj.get "llama3" llamaBlocks with
    | Some d => d
    | None => []
    end.

(** The provider [openAI] with an explicit list that is not in order and
    names [o3] twice, and what a turn of the association loop makes of
    it on [sampleBlocks]. *)
Definition unsortedProvider : Declared.t :=
  Declared.Make "openAI" ["o3"; "gpt-4o"; "gpt-4.1"; "o3"]
    (getProviderDescription "openAI").

Definition sortedProvider : Provider.t :=
  Eval vm_compute in
    match associateProvider plainHost sampleBlocks "openAI" unsortedProvider
    with
    | Return listed => listed
    | Throw _ => Provider.Make "" [] (Obj.Value "") None
    end.

(** The statements of [parseModelDetails], in four groups: the five
    fields read from the fragment directly, then the reasoning
    capabilities, the cost, and the download information.
    [parseModelDetails] is their composition. *)
Definition simpleFields (modelSection : string) : Capabilities :=
  let details : Capabilities := [] in
  let details :=
    match exec (fieldRe "contextWindow") modelSection with
    | Some m =>
        Obj.set "contextWindow"
          (VNum (parseInt (stripNonDigits (group 1 m)))) details
    | None => details
    end in
  let details :=
    match exec (fieldRe "reservedOutputTokenSpace") modelSection with
    | Some m =>
        let value := Str.trim (group 1 m) in
        Obj.set "reservedOutputTokenSpace"
          (if String.eqb value "null" then VStr "Not specified"
           else VNum (parseInt (stripNonDigits value)))
          details
    | None => details
    end in
  let details :=
    match exec (fieldRe "supportsSystemMessage") modelSection with
    | Some m =>
        let value := Str.trim (group 1 m) in
        Obj.set "supportsSystemMessage"
          (if String.eqb value "false" then VBool false
           else VStr (replaceG (lit "'") "" value))
          details
    | None => details
    end in
  let details :=
    match exec (fieldRe "supportsFIM") modelSection with
    | Some m =>
        Obj.set "supportsFIM"
          (VBool (String.eqb (Str.trim (group 1 m)) "true")) details
    | None => details
    end in
  match exec (quotedRe "specialToolFormat") modelSection with
  | Some m => Obj.set "specialToolFormat" (VStr (group 1 m)) details
  | None => details
  end.

Definition withReasoning (modelSection : string) (details : Capabilities)
  : Capabilities :=
  match exec reasoningRe modelSection with
  | Some m => parseReasoning (Str.trim (group 1 m)) details
  | None => details
  end.

Definition withCost (modelSection : string) (details : Capabilities)
  : Capabilities :=
  match exec costRe modelSection with
  | Some m => Obj.set "cost" (VCost (parseCost (group 1 m))) details
  | None => details
  end.

Definition withDownloadable (modelSection : string) (details : Capabilities)
  : Capabilities :=
  match exec (fieldRe "downloadable") modelSection with
  | Some m => parseDownloadable modelSection (Str.trim (group 1 m)) details
  | None => details
  end.

(** The fields that [simpleFields] can set. *)
Definition simpleFieldNames : list string :=
  ["contextWindow"; "reservedOutputTokenSpace"; "supportsSystemMessage";
   "supportsFIM"; "specialToolFormat"].

(** The fields of a reasoning slider. *)
Definition budgetFields : list string :=
  ["reasoningBudgetMin"; "reasoningBudgetMax"; "reasoningBudgetDefault"].

Definition effortFields : list string :=
  ["reasoningEffortValues"; "reasoningEffortDefault"].

Definition sliderFields : list string :=
  "reasoningSliderType" :: budgetFields ++ effortFields.

(** The fields that describe the reasoning of a model that has it. *)
Definition reasoningFields : list string :=
  "canTurnOffReasoning" :: "canIOReasoning" :: "thinkTags" :: sliderFields.

(** The fields of a capability record. *)
Definition fieldNames : list string :=
  simpleFieldNames ++ "hasReasoning" :: reasoningFields
  ++ ["cost"; "downloadable"; "downloadSize"].

(** A record with fields of [fields] only, each at most once. *)
Definition fieldsWithin (fields : list string) (details : Capabilities) : Prop :=
  NoDup (Obj.keys details) /\ incl (Obj.keys details) fields.

(** The reasoning fields of a record agree with each other: a field that
    describes the reasoning is there only when [hasReasoning] is true,
    the fields of a budget only under the slider type [budget_slider],
    and those of an effort only under the type [effort_slider]. *)
Definition reasoningConsistent (details : Capabilities) : Prop :=
  (forall k, In k reasoningFields -> Obj.get k details <> None ->
     Obj.get "hasReasoning" details = Some (VBool true))
  /\ (forall k, In k budgetFields -> Obj.get k details <> None ->
        Obj.get "reasoningSliderType" details = Some (VStr "budget_slider"))
  /\ (forall k, In k effortFields -> Obj.get k details <> None ->
        Obj.get "reasoningSliderType" details = Some (VStr "effort_slider")).

(** A fragment of a model with a budget slider. *)
Definition budgetFragment : string :=
  "'m': { reasoningCapabilities: { supportsReasoning: true, "
  +++ "reasoningSlider: { type: 'budget_slider', min: 1024, max: 8192, "
  +++ "default: 1024 } }, },".

(** The pattern [r] matches no text without the character [c]. *)
Definition requires (c : ascii) (r : regex) : Prop :=
  forall st k, Str.oneOf (rest st) c = false -> run r st k = None.

(** The strings of a list, one after the other. *)
Definition joined (l : list string) : string :=
  fold_right String.append "" l.

(** [finish] is the statement that follows the loop of the boundary scan:
    the section of the last name. *)
Definition lastSection (blockContent : string) (st : SplitState)
  : list Entry.t :=
  if 0 <? lastIndex st
  then modelSections st
         ++ [Entry.Make (currentModelName st)
               (Str.drop (lastIndex st) blockContent)]
  else modelSections st.

(** The matches start at or after [p], each one no earlier than the one
    before. *)
Fixpoint startFrom (p : nat) (ms : list result) : Prop :=
  match ms with
  | [] => True
  | m :: ms' => p <= index m /\ startFrom (index m) ms'
  end.

(** The record [d] under the key [k] is what parseModelDetails returns
    for a section named [k] of a block of the file, on which the call
    does not raise. *)
Definition fromSection (h : Host) (fileContent : string) (k : string)
  (d : Capabilities) : Prop :=
  k <> ""
  /\ exists blockName blockMatch section,
       In blockName (blockNames fileContent)
       /\ firstMatch (blockRegexes blockName) fileContent = Some blockMatch
       /\ In section (splitSections (Str.trim (group 1 blockMatch)))
       /\ Entry.name section = k
       /\ raises h (Entry.content section) = false
       /\ d = parseModelDetails (Entry.content section).

(** A matcher that, when it succeeds, has called its continuation after
    a run of characters of the class [q], with the captures it was given. *)
Definition consumes (q : ascii -> bool)
  (step : mstate -> (mstate -> option mstate) -> option mstate) : Prop :=
  forall st k res,
    step st k = Some res ->
    exists st' pre,
      k st' = Some res
      /\ rest st = pre +++ rest st'
      /\ pos st' = pos st + String.length pre
      /\ caps st' = caps st
      /\ allOf q pre = true.

(** A pattern without a capturing group or a lookahead. *)
Fixpoint groupFree (r : regex) : bool :=
  match r with
  | Eps | Chr _ | Bos | Eos => true
  | Cat a b | Alt a b => groupFree a && groupFree b
  | Star _ a => groupFree a
  | Grp _ _ | Look _ => false
  end.

(** A sequence whose only group is the group 1, around one or more
    characters of the class [q]. *)
Inductive oneGroup (q : ascii -> bool) : regex -> Prop :=
| oneGroup_here (post : regex) :
    groupFree post = true ->
    oneGroup q (Cat (Grp 1 (plus (Chr q))) post)
| oneGroup_later (a r : regex) :
    groupFree a = true -> oneGroup q r -> oneGroup q (Cat a r).

(** A non-empty string of characters of the class [q]. *)
Definition wordOf (q : ascii -> bool) (s : string) : Prop :=
  s <> "" /\ allOf q s = true.

(** The characters other than the single quote. *)
Definition notQuote (c : ascii) : bool := negb (Str.oneOf "'" c).

(* ===================================================================== *)
(** ** Checks of the embedding on small inputs *)
(* ===================================================================== *)

Example forIn_demo :
  Obj.forIn (Obj.set "b" 1 (Obj.set "10" 2 (Obj.set "a" 3 (Obj.set "9" 4
            (Obj.set "b" 5 [])))))
  = ["9"; "10"; "b"; "a"].
Proof. reflexivity. Qed.

Example parseModelDetails_demo :
  parseModelDetails
    ("'o3': {" +++ LF +++
     "  contextWindow: 1_047_576," +++ LF +++
     "  reservedOutputTokenSpace: 32_768," +++ LF +++
     "  cost: { input: 10.00, output: 40.00, cache_read: 2.50 }," +++ LF +++
     "  downloadable: false," +++ LF +++
     "  supportsFIM: false," +++ LF +++
     "  supportsSystemMessage: 'developer-role'," +++ LF +++
     "  reasoningCapabilities: { supportsReasoning: true, canTurnOffReasoning: false, canIOReasoning: false, reasoningSlider: { type: 'effort_slider', values: ['low', 'medium', 'high'], default: 'low' } }," +++ LF +++
     "},")
  = [("contextWindow", VNum (Int 1047576));
     ("reservedOutputTokenSpace", VNum (Int 32768));
     ("supportsSystemMessage", VStr "developer-role");
     ("supportsFIM", VBool false);
     ("hasReasoning", VBool true);
     ("canTurnOffReasoning", VBool false);
     ("canIOReasoning", VBool false);
     ("reasoningSliderType", VStr "effort_slider");
     ("reasoningEffortValues", VStrings ["low"; "medium"; "high"]);
     ("reasoningEffortDefault", VStr "low");
     ("cost", VCost [("input", ParseFloat "10.00");
                     ("output", ParseFloat "40.00");
                     ("cacheRead", ParseFloat "2.50 ")]);
     ("downloadable", VBool false)].
Proof. vm_compute. reflexivity. Qed.

Example sampleDocument_output :
  returns (parseModelData plainHost sampleDocument)
          (fun out => modelNames out = [("openAI", ["o3"; "gpt-4.1"; "gpt-4o"])]).
Proof. vm_compute. reflexivity. Qed.

Example llamaDocument_output :
  returns (parseModelData plainHost llamaDocument)
          (fun out => modelNames out
                      = [("openAI", ["No models listed for openAI"]);
                         ("other", ["llama3"])]).
Proof. vm_compute. reflexivity. Qed.

Example re_demo_group :
  option_map (fun m => (index m, group 1 m))
    (exec modelNameRegex "x 'gpt-4o':  { a }")
  = Some (2, "gpt-4o").
Proof. reflexivity. Qed.

Example re_demo_split :
  Re.split (Look (lit "'")) "x'a'b" = ["x"; "'a"; "'b"].
Proof. reflexivity. Qed.

Example str_demo_split : Str.split "," "a,b,,c" = ["a"; "b"; ""; "c"].
Proof. reflexivity. Qed.

Example str_demo_trim : Str.trim "  a b  " = "a b".
Proof. reflexivity. Qed.

(* ===================================================================== *)
(** ** Facts about objects *)
(* ===================================================================== *)

Section ObjFacts.
Context {V : Type}.
Implicit Types (o : Obj.t V) (k : string) (v : V).

Lemma get_set_same k v o : Obj.get k (Obj.set k v o) = Some v.
Proof.
  induction o as [|[k' v'] o IH]; simpl.
  - now rewrite String.eqb_refl.
  - destruct (String.eqb k k') eqn:E; simpl; rewrite E; auto.
Qed.

Lemma get_set_other k k' v o :
  k <> k' -> Obj.get k (Obj.set k' v o) = Obj.get k o.
Proof.
  intros Hne. induction o as [|[k1 v1] o IH]; simpl.
  - apply String.eqb_neq in Hne. now rewrite Hne.
  - destruct (String.eqb k' k1) eqn:E; simpl.
    + apply String.eqb_eq in E. subst k1.
      apply String.eqb_neq in Hne. now rewrite Hne.
    + now rewrite IH.
Qed.

Lemma in_set k v o k0 v0 :
  In (k0, v0) (Obj.set k v o) -> (k0 = k /\ v0 = v) \/ In (k0, v0) o.
Proof.
  induction o as [|[k1 v1] o IH]; simpl.
  - intros [H|[]]. inversion H. auto.
  - destruct (String.eqb k k1) eqn:E; simpl.
    + apply String.eqb_eq in E. subst k1.
      intros [H|H]; [inversion H; auto | auto].
    + intros [H|H]; [auto | destruct (IH H); auto].
Qed.

Lemma get_in k v o : Obj.get k o = Some v -> In (k, v) o.
Proof.
  induction o as [|[k1 v1] o IH]; simpl; [discriminate|].
  destruct (String.eqb k k1) eqn:E.
  - apply String.eqb_eq in E. subst k1. intros H. inversion H. auto.
  - auto.
Qed.

Lemma get_none_keys k o : Obj.get k o = None <-> ~ In k (Obj.keys o).
Proof.
  induction o as [|[k1 v1] o IH]; simpl.
  - tauto.
  - destruct (String.eqb k k1) eqn:E.
    + apply String.eqb_eq in E. subst k1. split; [discriminate | tauto].
    + apply String.eqb_neq in E. rewrite IH. split.
      * intros H [H1|H1]; [congruence | tauto].
      * tauto.
Qed.

Lemma has_keys k o : Obj.has k o = true <-> In k (Obj.keys o).
Proof.
  unfold Obj.has. destruct (Obj.get k o) eqn:E.
  - split; auto. intros _. apply get_in in E.
    apply (in_map fst) in E. exact E.
  - apply get_none_keys in E. split; [discriminate | tauto].
Qed.

Lemma keys_set k v o :
  Obj.keys (Obj.set k v o)
  = if Obj.has k o then Obj.keys o else Obj.keys o ++ [k].
Proof.
  unfold Obj.has. induction o as [|[k1 v1] o IH]; simpl; auto.
  destruct (String.eqb k k1) eqn:E; simpl; auto.
  rewrite IH. destruct (Obj.get k o); reflexivity.
Qed.

Lemma NoDup_keys_set k v o :
  NoDup (Obj.keys o) -> NoDup (Obj.keys (Obj.set k v o)).
Proof.
  intros H. rewrite keys_set. destruct (Obj.has k o) eqn:E; auto.
  assert (~ In k (Obj.keys o)) as Hk.
  { rewrite <- has_keys. congruence. }
  apply NoDup_app; auto.
  - constructor; [intros [] | constructor].
  - intros x Hx [Hx'|[]]. subst. tauto.
Qed.

Lemma has_set k k' v o :
  Obj.has k (Obj.set k' v o) = String.eqb k k' || Obj.has k o.
Proof.
  unfold Obj.has. destruct (String.eqb k k') eqn:E; simpl.
  - apply String.eqb_eq in E. subst. now rewrite get_set_same.
  - apply String.eqb_neq in E. now rewrite get_set_other.
Qed.

End ObjFacts.

Section ForEachOwn.
Context {V W : Type} (body : string -> V -> W).

Lemma keys_forEachOwn (o : Obj.t V) :
  Obj.keys (forEachOwn body o) = Obj.keys o.
Proof.
  unfold forEachOwn, Obj.keys. rewrite map_map. reflexivity.
Qed.

Lemma in_forEachOwn (o : Obj.t V) k w :
  In (k, w) (forEachOwn body o) <-> exists v, In (k, v) o /\ w = body k v.
Proof.
  unfold forEachOwn. rewrite in_map_iff. split.
  - intros [[k0 v0] [H Hin]]. simpl in H. inversion H. subst. eauto.
  - intros [v [Hin ->]]. exists (k, v). auto.
Qed.

Lemma has_forEachOwn (o : Obj.t V) k :
  Obj.has k (forEachOwn body o) = Obj.has k o.
Proof.
  apply eq_true_iff_eq. rewrite !has_keys, keys_forEachOwn. tauto.
Qed.

End ForEachOwn.

(* ===================================================================== *)
(** ** The fault boundary of parseModelData *)
(* ===================================================================== *)

Lemma parseModelData_cases (h : Host) (fileContent : string) :
  (exists out, parseModelData_try h fileContent = Return out
               /\ parseModelData h fileContent = Return out)
  \/ (exists e, parseModelData_try h fileContent = Throw e
               /\ parseModelData h fileContent = Return emptyOutput).
Proof.
  unfold parseModelData, tryCatch.
  destruct (parseModelData_try h fileContent) as [out|e]; eauto.
Qed.

(** C2. For every host and every document string, the call of
    parseModelData returns: when the body of its [try] statement returns,
    with that value, and when a fault is raised inside it, with the empty
    provider mapping.  No fault reaches the caller. *)
Theorem parseModelData_never_throws (h : Host) (fileContent : string) :
  returns (parseModelData h fileContent)
    (fun out =>
       match parseModelData_try h fileContent with
       | Return o => out = o
       | Throw _ => out = emptyOutput
       end).
Proof.
  unfold parseModelData, tryCatch.
  destruct (parseModelData_try h fileContent); simpl; reflexivity.
Qed.

(** A loop whose body throws on one of its elements, whatever the state,
    throws. *)
Lemma forEachM_throws {A S : Type} (body : S -> A -> completion S)
  (l : list A) (x : A) :
  In x l ->
  (forall s, exists e, body s x = Throw e) ->
  forall s, exists e, forEachM body l s = Throw e.
Proof.
  intros Hin Hx. induction l as [|y l IH]; [destruct Hin|].
  intros s. simpl. destruct (body s y) as [s'|e] eqn:E; simpl.
  - destruct Hin as [->|Hin].
    + destruct (Hx s) as [e He]. congruence.
    + apply IH, Hin.
  - eauto.
Qed.

(** A loop whose body always returns, returns. *)
Lemma forEachM_returns {A S : Type} (body : S -> A -> completion S)
  (l : list A) :
  (forall s x, exists s', body s x = Return s') ->
  forall s, exists s', forEachM body l s = Return s'.
Proof.
  intros Hbody. induction l as [|x l IH]; intros s; simpl; eauto.
  destruct (Hbody s x) as [s1 H1]. rewrite H1. simpl. apply IH.
Qed.

(** On a host on which the field extractor never raises, as it is
    written, the extraction of the blocks returns for every document. *)
Lemma extractAllBlocks_returns (h : Host) (fileContent : string) :
  (forall content, raises h content = false) ->
  exists modelInfoBlocks,
    extractAllBlocks h fileContent = Return modelInfoBlocks.
Proof.
  intros Hquiet.
  unfold extractAllBlocks. apply forEachM_returns. intros s blockName.
  unfold extractModelsFromBlock.
  destruct (firstMatch _ _) as [blockMatch|]; eauto.
  destruct (negb _); eauto.
  apply forEachM_returns. intros s' section.
  destruct (negb _); eauto.
  unfold callParseModelDetails. rewrite Hquiet. simpl. eauto.
Qed.

(* ===================================================================== *)
(** ** The association loop and its fault *)
(* ===================================================================== *)

Lemma read_extraModels (providerName : string) :
  Obj.read providerName extraModels
  = if Obj.inherited providerName then Some (Obj.Member providerName)
    else None.
Proof. reflexivity. Qed.

(** The scan raises at the first entry whose name does not contain the
    name of a provider named like a member of [Object.prototype]; in
    every other case it adds the entries whose names contain the name of
    the provider. *)
Lemma scan_cases (providerName : string) (keys models : list string) :
  forEachM (fun models modelName =>
              if Str.includes (Str.toLowerCase providerName)
                              (Str.toLowerCase modelName)
              then Return (models ++ [modelName])
              else
                match Obj.read providerName extraModels with
                | Some (Obj.Value l) =>
                    if existsb (String.eqb modelName) l
                    then Return (models ++ [modelName])
                    else Return models
                | Some (Obj.Member _) =>
                    Throw (notAFunction "extraModels[providerName].includes")
                | None => Return models
                end)
           keys models
  = if Obj.inherited providerName
       && existsb (fun modelName =>
                     negb (Str.includes (Str.toLowerCase providerName)
                                        (Str.toLowerCase modelName)))
                  keys
    then Throw (notAFunction "extraModels[providerName].includes")
    else Return (models
                 ++ filter (fun modelName =>
                              Str.includes (Str.toLowerCase providerName)
                                           (Str.toLowerCase modelName))
                           keys).
Proof.
  rewrite read_extraModels.
  revert models. induction keys as [|n keys IH]; intros models; simpl.
  - rewrite andb_false_r, app_nil_r. reflexivity.
  - destruct (Str.includes (Str.toLowerCase providerName)
                           (Str.toLowerCase n)) eqn:E; simpl.
    + rewrite IH. rewrite <- app_assoc. reflexivity.
    + destruct (Obj.inherited providerName); simpl; [reflexivity|].
      rewrite IH. reflexivity.
Qed.

Lemma scanModelBlocks_cases (providerName : string)
  (modelInfoBlocks : Obj.t Capabilities) (models : list string) :
  scanModelBlocks providerName modelInfoBlocks models
  = if scanFaults providerName modelInfoBlocks
    then Throw (notAFunction "extraModels[providerName].includes")
    else Return (models ++ scannedNames providerName modelInfoBlocks).
Proof. unfold scanModelBlocks. apply scan_cases. Qed.

Lemma associateProvider_cases (h : Host) (modelInfoBlocks : Obj.t Capabilities)
  (providerName : string) (p : Declared.t) :
  associateProvider h modelInfoBlocks providerName p
  = if turnFaults modelInfoBlocks providerName p
    then Throw (notAFunction "extraModels[providerName].includes")
    else Return (listedProvider h modelInfoBlocks providerName p).
Proof.
  unfold associateProvider, turnFaults, listedProvider, namesOf.
  destruct (negb (0 <? List.length (Declared.models p))); simpl.
  - rewrite scanModelBlocks_cases.
    destruct (scanFaults providerName modelInfoBlocks); reflexivity.
  - reflexivity.
Qed.

Lemma forEachOwnM_cases (h : Host) (modelInfoBlocks : Obj.t Capabilities)
  (declared : Obj.t Declared.t) :
  forEachOwnM (associateProvider h modelInfoBlocks) declared
  = if associationFaults modelInfoBlocks declared
    then Throw (notAFunction "extraModels[providerName].includes")
    else Return (associated h modelInfoBlocks declared).
Proof.
  unfold associationFaults, associated.
  induction declared as [|[k p] declared IH]; simpl; [reflexivity|].
  rewrite associateProvider_cases.
  destruct (turnFaults modelInfoBlocks k p); simpl; [reflexivity|].
  rewrite IH.
  destruct (existsb _ declared); reflexivity.
Qed.

Lemma resolveProviders_cases (h : Host) (modelInfoBlocks : Obj.t Capabilities)
  (declared : Obj.t Declared.t) :
  resolveProviders h modelInfoBlocks declared
  = if associationFaults modelInfoBlocks declared
    then Throw (notAFunction "extraModels[providerName].includes")
    else Return (resolved h modelInfoBlocks declared).
Proof.
  unfold resolveProviders, resolved. rewrite forEachOwnM_cases.
  destruct (associationFaults modelInfoBlocks declared); reflexivity.
Qed.

(** What the body of the [try] statement does, by cases: the extraction
    of the blocks raises; or a turn of the association loop raises; or
    the body returns the providers that the later statements make of the
    associated ones. *)
Lemma parseModelData_try_cases (h : Host) (fileContent : string) :
  parseModelData_try h fileContent
  = match extractAllBlocks h fileContent with
    | Throw e => Throw e
    | Return modelInfoBlocks =>
        if associationFaults modelInfoBlocks (declaredWithLists fileContent)
        then Throw (notAFunction "extraModels[providerName].includes")
        else Return {| providers := resolved h modelInfoBlocks
                                      (declaredWithLists fileContent) |}
    end.
Proof.
  unfold parseModelData_try, declaredWithLists.
  destruct (extractAllBlocks h fileContent) as [blocks|e]; simpl;
    [|reflexivity].
  rewrite resolveProviders_cases.
  destruct (associationFaults blocks _); reflexivity.
Qed.

Lemma parseModelData_by_cases (h : Host) (fileContent : string) :
  parseModelData h fileContent
  = Return match extractAllBlocks h fileContent with
           | Throw e => emptyOutput
           | Return modelInfoBlocks =>
               if associationFaults modelInfoBlocks
                    (declaredWithLists fileContent)
               then emptyOutput
               else {| providers := resolved h modelInfoBlocks
                                      (declaredWithLists fileContent) |}
           end.
Proof.
  unfold parseModelData. rewrite parseModelData_try_cases.
  destruct (extractAllBlocks h fileContent) as [blocks|e]; simpl;
    [|reflexivity].
  destruct (associationFaults blocks _); reflexivity.
Qed.

(* ===================================================================== *)
(** ** The boundary scan of the section splitter *)
(* ===================================================================== *)

Lemma matchAt_index (r : regex) (p : nat) (s : string) (m : result) :
  matchAt r p s = Some m -> index m = p.
Proof.
  unfold matchAt. destruct (run r _ Some); intros H; inversion H. reflexivity.
Qed.

Lemma search_index (r : regex) (p : nat) (s : string) (m : result) :
  search r p s = Some m -> p <= index m.
Proof.
  revert p. induction s as [|c s IH]; intros p; simpl.
  - destruct (matchAt r p "") eqn:E; [|discriminate].
    intros H. inversion H. subst. apply matchAt_index in E. lia.
  - destruct (matchAt r p (String c s)) eqn:E.
    + intros H. inversion H. subst. apply matchAt_index in E. lia.
    + intros H. apply IH in H. lia.
Qed.

(** The matches of a global pattern that follow the first one do not start
    at offset 0. *)
Lemma execAll_from_positive (r : regex) (fuel p : nat) (s : string) :
  1 <= p -> forall m, In m (execAll_from r fuel p s) -> 1 <= index m.
Proof.
  revert p s. induction fuel as [|fuel IH]; intros p s Hp m; simpl.
  - intros [].
  - destruct (search r p s) as [m0|] eqn:E; [|intros []].
    intros [<-|Hin].
    + apply search_index in E. lia.
    + eapply IH; [|exact Hin].
      destruct (index m0 <? stop m0) eqn:El; [|lia].
      apply Nat.ltb_lt in El. lia.
Qed.

Lemma execAll_tail_positive (r : regex) (s : string) (m : result)
  (ms : list result) :
  execAll r s = m :: ms -> forall m', In m' ms -> 1 <= index m'.
Proof.
  unfold execAll. simpl. destruct (search r 0 s) as [m0|]; [|discriminate].
  intros H. inversion H. subst. apply execAll_from_positive.
  destruct (index m <? stop m) eqn:El; [|lia].
  apply Nat.ltb_lt in El. lia.
Qed.

Section Scan.
Variable blockContent : string.

Lemma splitStep_positive (st : SplitState) (m : result) :
  0 < lastIndex st -> namesMet (splitStep blockContent st m) = namesMet st ++ [group 1 m].
Proof.
  intros H. unfold namesMet, splitStep. simpl.
  apply Nat.ltb_lt in H. rewrite H. now rewrite map_app.
Qed.

Lemma scan_positive (ms : list result) (st : SplitState) :
  0 < lastIndex st -> (forall m, In m ms -> 1 <= index m) ->
  namesMet (fold_left (splitStep blockContent) ms st) = namesMet st ++ map (group 1) ms
  /\ 0 < lastIndex (fold_left (splitStep blockContent) ms st).
Proof.
  revert st. induction ms as [|m ms IH]; intros st Hst Hms; simpl.
  - now rewrite app_nil_r.
  - destruct (IH (splitStep blockContent st m)) as [H1 H2].
    + simpl. specialize (Hms m (or_introl eq_refl)). lia.
    + intros m' Hm'. apply Hms. now right.
    + split; auto. rewrite H1, splitStep_positive by exact Hst.
      now rewrite <- app_assoc.
Qed.

(** What the boundary scan returns, for every block body: the entries in
    order, each under its name, except that the first entry is left out
    when it starts at offset 0. *)
Lemma scanSections_names :
  map Entry.name (scanSections blockContent)
  = match execAll modelNameRegex blockContent with
    | [] => []
    | m :: ms =>
        if index m =? 0 then map (group 1) ms else map (group 1) (m :: ms)
    end.
Proof.
  unfold scanSections.
  destruct (execAll modelNameRegex blockContent) as [|m ms] eqn:E;
    [reflexivity|].
  assert (forall m', In m' ms -> 1 <= index m') as Hms.
  { eapply execAll_tail_positive; eauto. }
  cbn [fold_left].
  set (st0 := {| modelSections := []; currentModelName := "";
                 lastIndex := 0 |}).
  destruct (index m =? 0) eqn:E0.
  - apply Nat.eqb_eq in E0.
    destruct ms as [|m2 ms]; simpl.
    + rewrite E0. reflexivity.
    + destruct (@scan_positive ms
                  (splitStep blockContent (splitStep blockContent st0 m) m2))
        as [H1 H2].
      * simpl. specialize (Hms m2 (or_introl eq_refl)). lia.
      * intros m' Hm'. apply Hms. now right.
      * apply Nat.ltb_lt in H2. rewrite H2.
        rewrite map_app. simpl. fold (namesMet (fold_left (splitStep blockContent) ms
          (splitStep blockContent (splitStep blockContent st0 m) m2))).
        rewrite H1. unfold namesMet, splitStep. simpl. rewrite E0. reflexivity.
  - apply Nat.eqb_neq in E0.
    destruct (@scan_positive ms (splitStep blockContent st0 m)) as [H1 H2].
    + simpl. lia.
    + exact Hms.
    + apply Nat.ltb_lt in H2. rewrite H2.
      rewrite map_app. simpl.
      fold (namesMet (fold_left (splitStep blockContent) ms
                   (splitStep blockContent st0 m))).
      rewrite H1. reflexivity.
Qed.

End Scan.

(** The names of the sections that the splitting step returns, for every
    block body.  The fallback is reached when the scan returns nothing:
    when no entry was found, and when the only entry starts at offset 0. *)
Lemma splitSections_names (blockContent : string) :
  map Entry.name (splitSections blockContent)
  = match execAll modelNameRegex blockContent with
    | [] => map Entry.name (simpleSections blockContent)
    | [m] =>
        if index m =? 0 then map Entry.name (simpleSections blockContent)
        else [group 1 m]
    | m :: ms =>
        if index m =? 0 then map (group 1) ms else map (group 1) (m :: ms)
    end.
Proof.
  pose proof (scanSections_names blockContent) as H.
  unfold splitSections.
  destruct (execAll modelNameRegex blockContent) as [|m [|m2 ms]].
  - destruct (scanSections blockContent); [reflexivity|discriminate].
  - destruct (index m =? 0).
    + destruct (scanSections blockContent); [reflexivity|discriminate].
    + destruct (scanSections blockContent); [discriminate|exact H].
  - destruct (index m =? 0);
      (destruct (scanSections blockContent); [discriminate|exact H]).
Qed.

(* ===================================================================== *)
(** ** Facts about the matcher and about replacements *)
(* ===================================================================== *)

Lemma append_assoc (a b c : string) : (a +++ b) +++ c = a +++ b +++ c.
Proof. induction a as [|x a IH]; simpl; [reflexivity | now rewrite IH]. Qed.

Lemma length_append (a b : string) :
  String.length (a +++ b) = String.length a + String.length b.
Proof. induction a as [|x a IH]; simpl; [reflexivity | now rewrite IH]. Qed.

Lemma take_append (a b : string) : Str.take (String.length a) (a +++ b) = a.
Proof. induction a as [|x a IH]; simpl; [now destruct b | now rewrite IH]. Qed.

Lemma drop_append (a b : string) : Str.drop (String.length a) (a +++ b) = b.
Proof. induction a as [|x a IH]; simpl; [reflexivity | exact IH]. Qed.

Lemma filterChars_append (q : ascii -> bool) (a b : string) :
  Str.filterChars q (a +++ b) = Str.filterChars q a +++ Str.filterChars q b.
Proof.
  induction a as [|x a IH]; simpl; auto.
  destruct (q x); simpl; now rewrite IH.
Qed.

Lemma filterChars_ext (q q' : ascii -> bool) (s : string) :
  (forall c, q c = q' c) -> Str.filterChars q s = Str.filterChars q' s.
Proof.
  intros H. induction s as [|x s IH]; simpl; auto. now rewrite H, IH.
Qed.

Lemma oneOf_append (a b : string) (c : ascii) :
  Str.oneOf (a +++ b) c = Str.oneOf a c || Str.oneOf b c.
Proof.
  induction a as [|x a IH]; simpl; auto. now rewrite IH, orb_assoc.
Qed.

Lemma oneOf_filterChars (q : ascii -> bool) (s : string) (c : ascii) :
  q c = false -> Str.oneOf (Str.filterChars q s) c = false.
Proof.
  intros H. induction s as [|x s IH]; simpl; auto.
  destruct (q x) eqn:E; simpl; auto. rewrite IH, orb_false_r.
  apply Ascii.eqb_neq. congruence.
Qed.

(** *** Replacing the characters of a class *)

Lemma matchAt_chr (p : ascii -> bool) (i : nat) (c : ascii) (s : string) :
  matchAt (Chr p) i (String c s)
  = if p c then Some (Result i (S i) (String c "") []) else None.
Proof.
  unfold matchAt. cbn [run rest pos caps]. destruct (p c); auto.
  cbn [pos caps]. replace (S i - i) with 1 by lia. reflexivity.
Qed.

Lemma search_chr (p : ascii -> bool) (i : nat) (s : string) :
  match search (Chr p) i s with
  | None => Str.filterChars (fun c => negb (p c)) s = s
  | Some m =>
      exists pre c post,
        s = pre +++ String c post
        /\ Str.filterChars (fun c => negb (p c)) pre = pre
        /\ p c = true
        /\ index m = i + String.length pre
        /\ stop m = S (i + String.length pre)
  end.
Proof.
  revert i. induction s as [|c s IH]; intros i.
  - reflexivity.
  - cbn [search]. rewrite matchAt_chr. destruct (p c) eqn:E.
    + exists "", c, s. simpl. repeat split; auto; lia.
    + specialize (IH (S i)). destruct (search (Chr p) (S i) s) as [m|].
      * destruct IH as [pre [c' [post [H1 [H2 [H3 [H4 H5]]]]]]].
        exists (String c pre), c', post. simpl. rewrite E. simpl.
        rewrite H2, <- H1. repeat split; auto; lia.
      * simpl. rewrite E. simpl. now rewrite IH.
Qed.

Lemma replace_go_chr (p : ascii -> bool) (fuel i : nat) (s : string) :
  String.length s < fuel ->
  replace_go (execAll_from (Chr p) fuel i s) "" i s
  = Str.filterChars (fun c => negb (p c)) s.
Proof.
  revert i s. induction fuel as [|fuel IH]; intros i s Hlen; [lia|].
  cbn [execAll_from]. pose proof (search_chr p i s) as Hs.
  destruct (search (Chr p) i s) as [m|].
  - destruct Hs as [pre [c [post [H1 [H2 [H3 [H4 H5]]]]]]].
    assert ((index m <? stop m) = true) as Hlt by (apply Nat.ltb_lt; lia).
    rewrite Hlt. cbn [replace_go].
    replace (index m - i) with (String.length pre) by lia.
    replace (stop m - i) with (String.length (pre +++ String c "")).
    2:{ rewrite length_append. simpl. lia. }
    subst s.
    replace (pre +++ String c post) with ((pre +++ String c "") +++ post)
      at 2 3 by (now rewrite append_assoc).
    rewrite !drop_append, take_append. simpl.
    rewrite IH.
    + rewrite filterChars_append. simpl. rewrite H3, H2. reflexivity.
    + rewrite length_append in Hlen. simpl in Hlen. lia.
  - simpl. now rewrite Hs.
Qed.

(** Replacing every character of a class by nothing keeps the other
    characters, in order. *)
Lemma replaceG_chr (p : ascii -> bool) (s : string) :
  replaceG (Chr p) "" s = Str.filterChars (fun c => negb (p c)) s.
Proof.
  unfold replaceG, execAll. apply replace_go_chr. lia.
Qed.

Lemma stripNonDigits_digits (s : string) :
  stripNonDigits s = Str.filterChars Str.isDigit s.
Proof.
  unfold stripNonDigits. rewrite replaceG_chr. apply filterChars_ext.
  intros c. apply negb_involutive.
Qed.

(** *** The matcher moves forward *)

Lemma iterate_advances
  (step : mstate -> (mstate -> option mstate) -> option mstate)
  (greedy : bool) (k : mstate -> option mstate) :
  advances step ->
  forall fuel st res,
    iterate step greedy k fuel st = Some res ->
    exists st' pre,
      k st' = Some res
      /\ rest st = pre +++ rest st'
      /\ pos st' = pos st + String.length pre.
Proof.
  intros Hstep. induction fuel as [|fuel IH]; intros st res; cbn [iterate].
  - intros H. exists st, "". simpl. repeat split; auto.
  - assert (forall x,
              step st (fun st' =>
                if String.length (rest st') <? String.length (rest st)
                then iterate step greedy k fuel st' else None) = Some x ->
              exists st' pre,
                k st' = Some x
                /\ rest st = pre +++ rest st'
                /\ pos st' = pos st + String.length pre) as Hmore.
    { intros x Hx. apply Hstep in Hx.
      destruct Hx as [st1 [pre1 [H1 [H2 H3]]]].
      destruct (String.length (rest st1) <? String.length (rest st));
        [|discriminate].
      apply IH in H1. destruct H1 as [st2 [pre2 [H4 [H5 H6]]]].
      exists st2, (pre1 +++ pre2). rewrite append_assoc, length_append.
      repeat split; auto; [congruence | lia]. }
    assert (forall x, k st = Some x ->
              exists st' pre,
                k st' = Some x
                /\ rest st = pre +++ rest st'
                /\ pos st' = pos st + String.length pre) as Hstop.
    { intros x Hx. exists st, "". simpl. repeat split; auto. }
    destruct greedy.
    + destruct (step st _) as [x|] eqn:E.
      * intros H. inversion H. subst. now apply Hmore.
      * apply Hstop.
    + destruct (k st) as [x|] eqn:E.
      * intros H. inversion H. subst. now apply Hstop.
      * apply Hmore.
Qed.

Lemma run_advances (r : regex) : advances (run r).
Proof.
  induction r as [|p|a IHa b IHb|a IHa b IHb|g a IHa|i a IHa|a IHa| |];
    intros st k res; cbn [run].
  - intros H. exists st, "". simpl. repeat split; auto.
  - destruct (rest st) as [|c s'] eqn:E; [discriminate|].
    destruct (p c); [|discriminate].
    intros H. eexists. exists (String c ""). split; [exact H|].
    simpl. split; auto. lia.
  - intros H. apply IHa in H. destruct H as [st1 [pre1 [H1 [H2 H3]]]].
    apply IHb in H1. destruct H1 as [st2 [pre2 [H4 [H5 H6]]]].
    exists st2, (pre1 +++ pre2). rewrite append_assoc, length_append.
    repeat split; auto; [congruence | lia].
  - destruct (run a st k) as [x|] eqn:E.
    + intros H. inversion H. subst. now apply IHa.
    + apply IHb.
  - apply iterate_advances. exact IHa.
  - intros H. apply IHa in H. destruct H as [st1 [pre1 [H1 [H2 H3]]]].
    eexists. exists pre1. split; [exact H1|]. simpl. auto.
  - destruct (run a st Some) as [st1|]; [|discriminate].
    intros H. eexists. exists "". split; [exact H|]. simpl. split; auto.
  - destruct (pos st =? 0); [|discriminate].
    intros H. exists st, "". simpl. repeat split; auto.
  - destruct (rest st) eqn:E; [|discriminate].
    intros H. exists st, "". simpl. repeat split; auto.
Qed.

(** *** The version-number pattern after the separators are gone *)

(** [/\d+\.\d+/] *)
Lemma versionRe_needs_dot (st : mstate) (k : mstate -> option mstate) :
  Str.oneOf (rest st) "." = false ->
  run (seq [plus digit; lit "."; plus digit]) st k = None.
Proof.
  intros Hdot.
  destruct (run (seq [plus digit; lit "."; plus digit]) st k) as [res|] eqn:E;
    [|reflexivity].
  exfalso. cbn [seq run] in E.
  apply (run_advances (plus digit)) in E.
  destruct E as [st1 [pre [H1 [H2 _]]]].
  cbn [lit run] in H1.
  destruct (rest st1) as [|c s'] eqn:E1; [discriminate|].
  destruct (Str.isChar "." c) eqn:Ec; [|discriminate].
  unfold Str.isChar in Ec. apply Ascii.eqb_eq in Ec. subst c.
  rewrite H2, oneOf_append in Hdot. simpl in Hdot.
  rewrite orb_true_r in Hdot. discriminate.
Qed.

Lemma versionRe_no_match (s : string) (p : nat) :
  Str.oneOf s "." = false ->
  search (seq [plus digit; lit "."; plus digit]) p s = None.
Proof.
  revert p. induction s as [|c s IH]; intros p Hdot; cbn [search];
    unfold matchAt; rewrite versionRe_needs_dot by exact Hdot; auto.
  apply IH. simpl in Hdot. apply orb_false_iff in Hdot. tauto.
Qed.

(** For every name, the second replacement of the normalization changes
    nothing: once the separators are removed there is no dot left for the
    version-number pattern to match. *)
Lemma normalizeName_version_step (lowered : string) :
  normalizeName lowered
  = replace (seq [lit ":"; star dot; Eos]) ""
      (replaceG (seq [plus digit; lit "b"]) ""
         (Str.filterChars (fun c => negb (isSeparator c)) lowered)).
Proof.
  unfold normalizeName.
  change (Chr (fun c => Str.oneOf "-_." c || Str.isSpace c))
    with (Chr isSeparator).
  rewrite replaceG_chr.
  set (s := Str.filterChars _ lowered).
  assert (replaceG (seq [plus digit; lit "."; plus digit]) "" s = s) as ->;
    [|reflexivity].
  unfold replaceG, execAll. cbn [execAll_from].
  rewrite versionRe_no_match; [reflexivity|].
  apply oneOf_filterChars. reflexivity.
Qed.

(** *** parseInt on the digits of a token *)

Lemma digitsValue_digits (a : Z) (s : string) :
  allOf Str.isDigit s = true ->
  digitsValue (Some a) s = Some (decimalValue a s).
Proof.
  revert a. induction s as [|c s IH]; intros a; simpl; auto.
  intros H. apply andb_true_iff in H. destruct H as [Hc Hs].
  rewrite Hc. now apply IH.
Qed.

Lemma allOf_filterChars (q : ascii -> bool) (s : string) :
  allOf q (Str.filterChars q s) = true.
Proof.
  induction s as [|c s IH]; simpl; auto.
  destruct (q c) eqn:E; simpl; auto. now rewrite E.
Qed.

Lemma decimalValue_nonneg (s : string) (acc : Z) :
  (0 <= acc)%Z -> (0 <= decimalValue acc s)%Z.
Proof.
  revert acc. induction s as [|c s IH]; intros acc H; simpl; [exact H|].
  apply IH. lia.
Qed.

(** parseInt on a string of digits: the number for the integer that the
    digits write. *)
Lemma parseInt_digits (s : string) :
  allOf Str.isDigit s = true -> s <> "" ->
  parseInt s = number (decimalValue 0 s).
Proof.
  destruct s as [|c s]; [congruence|]. intros H _.
  simpl in H. apply andb_true_iff in H. destruct H as [Hc Hs].
  unfold parseInt.
  assert (Str.trimStart (String c s) = String c s) as ->.
  { simpl. replace (Str.isSpace c) with false; auto.
    destruct c as [[] [] [] [] [] [] [] []]; try discriminate Hc; reflexivity. }
  assert ((let '(neg, ds) :=
             match String c s with
             | String "-" s' => (true, s')
             | String "+" s' => (false, s')
             | _ => (false, String c s)
             end in
           match digitsValue None ds with
           | Some z => number (if neg then - z else z)%Z
           | None => NaN
           end)
          = match digitsValue None (String c s) with
            | Some z => number z
            | None => NaN
            end) as ->.
  { destruct c as [[] [] [] [] [] [] [] []]; try discriminate Hc; reflexivity. }
  cbn [digitsValue decimalValue]. rewrite Hc.
  now rewrite digitsValue_digits.
Qed.

Lemma number_not_NaN (z : Z) : number z <> NaN.
Proof. unfold number. destruct (Z.abs z <=? 9007199254740992)%Z; discriminate. Qed.

Lemma filterChars_head (q : ascii -> bool) (s : string) (c : ascii) (t : string) :
  Str.filterChars q s = String c t -> q c = true.
Proof.
  induction s as [|x s IH]; simpl; [discriminate|].
  destruct (q x) eqn:E; auto. intros H. inversion H. now subst.
Qed.

(** parseInt on the digits of a token is NaN in one case only: the token
    has no digit. *)
Lemma parseInt_digits_NaN (v : string) :
  parseInt (stripNonDigits v) = NaN <-> Str.filterChars Str.isDigit v = "".
Proof.
  rewrite stripNonDigits_digits.
  pose proof (allOf_filterChars Str.isDigit v) as Hall.
  destruct (Str.filterChars Str.isDigit v) as [|c t] eqn:E.
  - split; reflexivity.
  - split; [|discriminate]. intros H. exfalso.
    rewrite parseInt_digits in H; [|exact Hall|discriminate].
    now apply number_not_NaN in H.
Qed.

(* ===================================================================== *)
(** ** The body taken from the provider-settings declaration *)
(* ===================================================================== *)

Lemma run_lit (s r : string) (p : nat) (cs : list (nat * string))
  (k : mstate -> option mstate) :
  run (lit s) (MState p (s +++ r) cs) k
  = k (MState (p + String.length s) r cs).
Proof.
  revert p. induction s as [|c s IH]; intros p; cbn [lit run].
  - simpl. now rewrite Nat.add_0_r.
  - simpl. unfold Str.isChar. rewrite Ascii.eqb_refl. rewrite IH.
    now rewrite Nat.add_succ_r.
Qed.

Lemma iterate_class (q : ascii -> bool) (k : mstate -> option mstate)
  (b r : string) (cs : list (nat * string)) (res : mstate) :
  allOf q b = true -> stopsAt q r = true ->
  forall fuel p,
    String.length (b +++ r) <= fuel ->
    k (MState (p + String.length b) r cs) = Some res ->
    iterate (run (Chr q)) true k fuel (MState p (b +++ r) cs) = Some res.
Proof.
  intros Hb Hr. induction b as [|c b IH]; intros fuel p Hfuel Hk.
  - simpl in *. rewrite Nat.add_0_r in Hk.
    destruct fuel as [|fuel]; cbn [iterate]; auto.
    cbn [run rest]. destruct r as [|c r]; [exact Hk|].
    simpl in Hr. apply negb_true_iff in Hr. rewrite Hr. exact Hk.
  - simpl in Hb. apply andb_true_iff in Hb. destruct Hb as [Hc Hb].
    destruct fuel as [|fuel]; [simpl in Hfuel; lia|].
    cbn [iterate]. cbn [run rest String.append]. rewrite Hc.
    cbn [rest pos caps].
    assert ((String.length (b +++ r) <? String.length (String c (b +++ r)))
            = true) as Hlt by (apply Nat.ltb_lt; simpl; lia).
    rewrite Hlt. rewrite IH; auto.
    + simpl in Hfuel. lia.
    + simpl in Hk. now rewrite Nat.add_succ_r in Hk.
Qed.

Lemma allOf_noneOf (set b : string) :
  (forall c, Str.oneOf set c = true -> Str.oneOf b c = false) ->
  allOf (fun c => negb (Str.oneOf set c)) b = true.
Proof.
  intros H. induction b as [|x b IH]; simpl; auto.
  apply andb_true_iff. split.
  - apply negb_true_iff. destruct (Str.oneOf set x) eqn:E; auto.
    specialize (H x E). simpl in H. now rewrite Ascii.eqb_refl in H.
  - apply IH. intros c Hc. specialize (H c Hc). simpl in H.
    apply orb_false_iff in H. tauto.
Qed.


Lemma run_cat (a b : regex) (st : mstate) (k : mstate -> option mstate) :
  run (Cat a b) st k = run a st (fun st' => run b st' k).
Proof. reflexivity. Qed.

Lemma run_grp (i : nat) (a : regex) (st : mstate)
  (k : mstate -> option mstate) :
  run (Grp i a) st k
  = run a st (fun st' =>
      k (MState (pos st') (rest st')
           ((i, Str.take (pos st' - pos st) (rest st)) :: caps st'))).
Proof. reflexivity. Qed.

Lemma run_star (a : regex) (st : mstate) (k : mstate -> option mstate) :
  run (Star true a) st k
  = iterate (run a) true k (String.length (rest st)) st.
Proof. reflexivity. Qed.

Lemma run_chr (q : ascii -> bool) (c : ascii) (s : string) (p : nat)
  (cs : list (nat * string)) (k : mstate -> option mstate) :
  q c = true ->
  run (Chr q) (MState p (String c s) cs) k = k (MState (S p) s cs).
Proof. intros H. cbn [run rest]. now rewrite H. Qed.

(** The pattern [opening([^}]+)\}] on a text that begins with the
    opening. *)
Lemma run_body (opening body tail : string) :
  body <> "" -> Str.oneOf body "}" = false ->
  run (seq [lit opening; Grp 1 (plus (noneOf "}")); lit "}"])
      (MState 0 (opening +++ body +++ "}" +++ tail) []) Some
  = Some (MState (String.length opening + String.length body + 1) tail
            [(1, body)]).
Proof.
  intros Hne Hbody. destruct body as [|x b]; [congruence|].
  assert (allOf (fun c => negb (Str.oneOf "}" c)) (String x b) = true) as Hall.
  { apply allOf_noneOf. intros c Hc. cbn [Str.oneOf] in Hc.
    rewrite orb_false_r in Hc. apply Ascii.eqb_eq in Hc. now subst c. }
  cbn [allOf] in Hall. apply andb_true_iff in Hall. destruct Hall as [Hx Hb].
  cbn [seq]. rewrite run_cat, run_lit, run_cat, run_grp.
  unfold plus, noneOf. rewrite run_cat.
  change (String x b +++ "}" +++ tail) with (String x (b +++ "}" +++ tail)).
  rewrite run_chr by exact Hx. rewrite run_star. cbn [rest pos caps].
  apply iterate_class; auto.
  cbn [pos rest caps].
  replace (S (0 + String.length opening) + String.length b
           - (0 + String.length opening))
    with (String.length (String x b)) by (cbn [String.length]; lia).
  change (String x (b +++ "}" +++ tail)) with (String x b +++ "}" +++ tail).
  rewrite take_append, run_lit. simpl. f_equal. f_equal. lia.
Qed.

Lemma search_here (r : regex) (p : nat) (s : string) (m : result) :
  matchAt r p s = Some m -> search r p s = Some m.
Proof. intros H. destruct s; cbn [search]; now rewrite H. Qed.

Lemma providerRegex_first_body (body tail : string) :
  body <> "" -> Str.oneOf body "}" = false ->
  exists m,
    exec providerRegex (providerSettingsOpening +++ body +++ "}" +++ tail)
    = Some m
    /\ group 1 m = body.
Proof.
  intros Hne Hbody.
  set (document := providerSettingsOpening +++ body +++ "}" +++ tail).
  assert (exists m, matchAt providerRegex 0 document = Some m
                    /\ group 1 m = body) as [m [Hm Hg]].
  { unfold matchAt, providerRegex, document.
    change (lit "export const defaultProviderSettings = {")
      with (lit providerSettingsOpening).
    rewrite run_body by assumption. eexists. split; reflexivity. }
  exists m. split; [|exact Hg].
  unfold exec. exact (@search_here _ _ _ _ Hm).
Qed.

(** In a document that begins with the declaration, the providers are
    read from the text between the opening and the first closing brace;
    what follows that brace is not looked at. *)
Lemma declaredProviders_first_body (body tail : string) :
  body <> "" -> Str.oneOf body "}" = false ->
  declaredProviders (providerSettingsOpening +++ body +++ "}" +++ tail)
  = readProviderLines body.
Proof.
  intros Hne Hbody.
  destruct (providerRegex_first_body tail Hne Hbody) as [m [Hm Hg]].
  unfold declaredProviders. rewrite Hm, Hg.
  apply String.eqb_neq in Hne. now rewrite Hne.
Qed.

(* ===================================================================== *)
(** ** Lists, the filter of duplicates, and the order of enumeration *)
(* ===================================================================== *)

Lemma read_value {V : Type} (k : string) (o : Obj.t V) (v : V) :
  Obj.read k o = Some (Obj.Value v) <-> Obj.get k o = Some v.
Proof.
  unfold Obj.read. destruct (Obj.get k o) as [w|].
  - split; intros H; inversion H; reflexivity.
  - destruct (Obj.inherited k); split; discriminate.
Qed.

Lemma read_get {V : Type} (k : string) (o : Obj.t V) (v : V) :
  Obj.get k o = Some v -> Obj.read k o = Some (Obj.Value v).
Proof. apply read_value. Qed.

Lemma existsb_eqb (x : string) (l : list string) :
  existsb (String.eqb x) l = true <-> In x l.
Proof.
  rewrite existsb_exists. split.
  - intros [y [Hy E]]. apply String.eqb_eq in E. now subst.
  - intros H. exists x. split; auto. apply String.eqb_refl.
Qed.

Lemma uniqueFilter_distinct (seen : list string) (l : list Model.t) :
  NoDup (names (uniqueFilter seen l))
  /\ forall n, In n (names (uniqueFilter seen l)) ->
               ~ In n seen /\ In n (names l) /\ Obj.inherited n = false.
Proof.
  revert seen. induction l as [|m l IH]; intros seen; simpl.
  - split; [constructor | intros n []].
  - destruct (existsb (String.eqb (Model.name m)) seen
              || Obj.inherited (Model.name m)) eqn:E.
    + destruct (IH seen) as [H1 H2]. split; auto.
      intros n Hn. destruct (H2 n Hn) as [Ha [Hb Hc]]. auto.
    + apply orb_false_iff in E. destruct E as [E Ei].
      destruct (IH (Model.name m :: seen)) as [H1 H2]. simpl. split.
      * constructor; auto. intros Hin. destruct (H2 _ Hin) as [Hs _].
        apply Hs. now left.
      * intros n [<-|Hn].
        -- split; [|auto]. rewrite <- existsb_eqb. congruence.
        -- destruct (H2 n Hn) as [Hs [Hl Hi]]. split; auto.
           intros Hin. apply Hs. now right.
Qed.

(** The filter keeps, for every name that is no member of
    [Object.prototype], the first model with that name. *)
Lemma uniqueFilter_first (seen : list string) (l : list Model.t) (n : string) :
  firstNamed n (uniqueFilter seen l)
  = if existsb (String.eqb n) seen || Obj.inherited n then None
    else firstNamed n l.
Proof.
  unfold firstNamed. revert seen. induction l as [|m l IH]; intros seen; simpl.
  - now destruct (existsb _ seen || Obj.inherited n).
  - destruct (String.eqb (Model.name m) n) eqn:Emn.
    + apply String.eqb_eq in Emn. subst n.
      destruct (existsb (String.eqb (Model.name m)) seen
                || Obj.inherited (Model.name m)) eqn:E.
      * rewrite IH, E. reflexivity.
      * simpl. now rewrite String.eqb_refl.
    + destruct (existsb (String.eqb (Model.name m)) seen
                || Obj.inherited (Model.name m)) eqn:E.
      * apply IH.
      * simpl. rewrite Emn, IH. simpl.
        rewrite String.eqb_sym, Emn. reflexivity.
Qed.

Lemma uniqueFilter_names (seen : list string) (l : list Model.t) (n : string) :
  In n (names (uniqueFilter seen l))
  <-> In n (names l) /\ ~ In n seen /\ Obj.inherited n = false.
Proof.
  split.
  - intros H. destruct (uniqueFilter_distinct seen l) as [_ Hd].
    apply Hd in H. tauto.
  - revert seen. induction l as [|x l IH]; intros seen [Hin [Hseen Hi]];
      simpl in *; [contradiction|].
    destruct (existsb (String.eqb (Model.name x)) seen
              || Obj.inherited (Model.name x)) eqn:E.
    + apply IH. split; [|auto]. destruct Hin as [Hx|Hin]; auto.
      exfalso. subst n. rewrite Hi, orb_false_r in E.
      apply existsb_eqb in E. contradiction.
    + simpl. destruct (string_dec (Model.name x) n) as [Hx|Hx]; [now left|].
      right. apply IH. split; [tauto|]. split; [|exact Hi].
      intros [H|H]; [contradiction | auto].
Qed.

Lemma uniqueFilter_incl (seen : list string) (l : list Model.t) (m : Model.t) :
  In m (uniqueFilter seen l) -> In m l.
Proof.
  revert seen. induction l as [|x l IH]; intros seen; simpl; auto.
  destruct (existsb _ seen || Obj.inherited (Model.name x)).
  - intros H. right. eapply IH, H.
  - intros [H|H]; [now left | right; eapply IH, H].
Qed.

Lemma insertSorted_perm {A : Type} (cmp : A -> A -> comparison) (x : A)
  (l : list A) : Permutation (insertSorted cmp x l) (x :: l).
Proof.
  induction l as [|y l IH]; simpl; auto.
  destruct (cmp x y); auto.
  rewrite IH. apply perm_swap.
Qed.

Lemma sort_perm {A : Type} (cmp : A -> A -> comparison) (l : list A) :
  Permutation (sort cmp l) l.
Proof.
  induction l as [|x l IH]; simpl; auto.
  rewrite insertSorted_perm. now constructor.
Qed.

(** The order of [for (k in o)] is a rearrangement of the keys. *)
Lemma insertIndex_perm (x : N * string) (l : list (N * string)) :
  Permutation (Obj.insertIndex x l) (x :: l).
Proof.
  induction l as [|y l IH]; simpl; auto.
  destruct (fst x <=? fst y)%N; auto.
  rewrite IH. apply perm_swap.
Qed.

Lemma indexKeys_perm (ks : list string) :
  Permutation (map snd (Obj.indexKeys ks))
              (filter (fun k => negb (Obj.isNamed k)) ks).
Proof.
  induction ks as [|k ks IH]; simpl; auto.
  unfold Obj.isNamed at 1. destruct (Obj.arrayIndex k) as [n|]; simpl; auto.
  rewrite insertIndex_perm. simpl. now constructor.
Qed.

Lemma filter_partition_perm {A : Type} (f : A -> bool) (l : list A) :
  Permutation (filter (fun x => negb (f x)) l ++ filter f l) l.
Proof.
  induction l as [|x l IH]; simpl; auto.
  destruct (f x); simpl.
  - rewrite <- Permutation_middle. now constructor.
  - now constructor.
Qed.

Lemma forIn_perm {V : Type} (o : Obj.t V) :
  Permutation (Obj.forIn o) (Obj.keys o).
Proof.
  unfold Obj.forIn. rewrite indexKeys_perm. apply filter_partition_perm.
Qed.

Lemma forIn_NoDup {V : Type} (o : Obj.t V) :
  NoDup (Obj.keys o) -> NoDup (Obj.forIn o).
Proof.
  intros H. eapply Permutation_NoDup; [|exact H].
  symmetry. apply forIn_perm.
Qed.

(** Invariants of loops that may throw. *)
Lemma forEachM_invariant {A S : Type} (P : S -> Prop)
  (body : S -> A -> completion S) (l : list A) :
  (forall s x s', P s -> body s x = Return s' -> P s') ->
  forall s s', P s -> forEachM body l s = Return s' -> P s'.
Proof.
  intros Hbody. induction l as [|x l IH]; simpl; intros s s' Hs H.
  - inversion H. now subst.
  - destruct (body s x) as [s1|e] eqn:E; simpl in H; [|discriminate].
    eapply IH; [|exact H]. eapply Hbody; eauto.
Qed.

Lemma existsb_false {A : Type} (f : A -> bool) (l : list A) :
  existsb f l = false <-> forall x, In x l -> f x = false.
Proof.
  induction l as [|y l IH]; simpl.
  - split; auto. intros _ x [].
  - rewrite orb_false_iff, IH. split.
    + intros [Hy Hl] x [<-|Hx]; auto.
    + intros H. split; auto.
Qed.


(* ===================================================================== *)
(** ** The claims settled on sample inputs *)
(* ===================================================================== *)

(** C1. For every block body, the names of the pairs that the splitting
    step returns are the quoted identifiers of the entries, in order,
    unless the first entry begins at offset 0: then, when other entries
    follow, the first one is missing from the result.  The block body
    [twoEntries] holds the entries ['o3'], at offset 0, and ['gpt-4o'];
    the step returns the one pair of ['gpt-4o']. *)
Theorem splitSections_loses_entry_at_offset_0 :
  (forall blockContent,
     map Entry.name (splitSections blockContent)
     = match execAll modelNameRegex blockContent with
       | [] => map Entry.name (simpleSections blockContent)
       | [m] =>
           if index m =? 0 then map Entry.name (simpleSections blockContent)
           else [group 1 m]
       | m :: ms =>
           if index m =? 0 then map (group 1) ms else map (group 1) (m :: ms)
       end)
  /\ map (fun m => (index m, group 1 m)) (execAll modelNameRegex twoEntries)
     = [(0, "o3"); (34, "gpt-4o")]
  /\ splitSections twoEntries
     = [Entry.Make "gpt-4o" "'gpt-4o': { contextWindow: 128_000 },"].
Proof.
  split; [exact splitSections_names|].
  split; vm_compute; reflexivity.
Qed.




(** C4. The name [gpt-3.5-turbo] holds the version number 3.5, and the
    digits 3 and 5 are still in its normalized form.  For every name the
    replacement of the version numbers removes nothing: the dots are
    removed with the other separators by the replacement before it, and
    the normalized form is what the removal of the size suffixes and the
    cut at the first colon make of the name without its separators. *)
Theorem normalizeName_keeps_version_digits :
  normalizeName (Str.toLowerCase "gpt-3.5-turbo") = "gpt35turbo"
  /\ (forall lowered,
        normalizeName lowered
        = replace (seq [lit ":"; star dot; Eos]) ""
            (replaceG (seq [plus digit; lit "b"]) ""
               (Str.filterChars (fun c => negb (isSeparator c)) lowered))).
Proof.
  split; [vm_compute; reflexivity|exact normalizeName_version_step].
Qed.

(** C5. The provider settings of [sampleDocument] have the top-level keys
    [openAI] and [anthropic].  The body taken from the declaration ends
    at the first closing brace, which belongs to the settings of
    [openAI]: [anthropic] is not declared and is not in the output.  In
    every document that begins with the declaration, the providers are
    read from the text before the first closing brace, whatever follows
    it. *)
Theorem providers_after_first_brace_are_lost :
  Obj.keys (declaredProviders sampleDocument) = ["openAI"]
  /\ returns (parseModelData plainHost sampleDocument)
             (fun out => Obj.has "openAI" (providers out) = true
                         /\ Obj.has "anthropic" (providers out) = false)
  /\ (forall body tail,
        body <> "" -> Str.oneOf body "}" = false ->
        declaredProviders (providerSettingsOpening +++ body +++ "}" +++ tail)
        = readProviderLines body).
Proof.
  split; [vm_compute; reflexivity|].
  split; [vm_compute; auto|].
  exact declaredProviders_first_body.
Qed.

(** C8. In the output for [sampleDocument], whatever the collation of
    the host, the models of [openAI] are [o3], from the explicit list,
    followed by [gpt-4.1] and [gpt-4o], which the keyword rule assigned
    after the list was sorted.  The list is not in the order of
    localeCompare, which puts [gpt-4.1] before [o3]. *)
Theorem heuristic_models_follow_the_sorted_ones :
  (forall collation,
     returns (parseModelData {| localeCompare := collation;
                                raises := fun _ => false |}
                             sampleDocument)
             (fun out => modelNames out
                         = [("openAI", ["o3"; "gpt-4.1"; "gpt-4o"])]))
  /\ localeCompare plainHost "o3" "gpt-4.1" = Gt
  /\ returns (parseModelData plainHost sampleDocument)
             (fun out => forall p, Obj.get "openAI" (providers out) = Some p ->
                                   ~ sortedByName plainHost (Provider.models p)).
Proof.
  split; [intros collation; vm_compute; reflexivity|].
  split; [vm_compute; reflexivity|].
  vm_compute. intros p H. inversion H. subst p. clear H.
  intros Hs. inversion Hs as [|a l _ Hall]. subst.
  inversion Hall as [|b l' Hab _]. subst.
  apply Hab. reflexivity.
Qed.

(** C9, counterexample. The value token of [digitlessFragment] is not
    the null marker and has no digit: the field holds NaN, which is no
    integer. *)
Lemma digitless_token_gives_no_integer :
  Obj.get "reservedOutputTokenSpace" (parseModelDetails digitlessFragment)
  = Some (VNum NaN)
  /\ forall z,
       Obj.get "reservedOutputTokenSpace" (parseModelDetails digitlessFragment)
       <> Some (VNum (Int z)).
Proof.
  assert (Obj.get "reservedOutputTokenSpace"
            (parseModelDetails digitlessFragment) = Some (VNum NaN)) as H.
  { vm_compute. reflexivity. }
  split; [exact H|]. intros z. rewrite H. discriminate.
Qed.


(* ===================================================================== *)
(** ** The non-empty invariant *)
(* ===================================================================== *)

Lemma fillEmpty_models (providerName : string) (p : Provider.t) :
  Provider.models (fillEmpty providerName p) <> []
  /\ (Provider.models p = [] ->
      Provider.models (fillEmpty providerName p) = [placeholder providerName])
  /\ (Provider.models p <> [] ->
      Provider.models (fillEmpty providerName p) = Provider.models p).
Proof.
  unfold fillEmpty. destruct (Provider.models p) as [|m l] eqn:E; simpl.
  - split; [discriminate|]. split; [reflexivity|].
    intros H. now destruct H.
  - rewrite E. split; [discriminate|]. split; [discriminate|reflexivity].
Qed.

Lemma fillEmpty_orPlaceholder (providerName : string) (p : Provider.t) :
  fillEmpty providerName p
  = Provider.Make (Provider.name p)
      (orPlaceholder providerName (Provider.models p))
      (Provider.description p) (Provider.unlistedModels p).
Proof.
  unfold fillEmpty, orPlaceholder. destruct p as [n l d u]. simpl.
  destruct l; reflexivity.
Qed.

Lemma finishProviders_merged (modelInfoBlocks : Obj.t Capabilities)
  (providers : Obj.t Provider.t) :
  finishProviders modelInfoBlocks providers
  = forEachOwn fillEmpty (mergedProviders modelInfoBlocks providers).
Proof.
  unfold finishProviders, mergedProviders.
  destruct (collectUnassigned modelInfoBlocks providers). reflexivity.
Qed.

Lemma parseModelData_output (h : Host) (fileContent : string) (out : Output) :
  parseModelData h fileContent = Return out ->
  out = emptyOutput
  \/ exists modelInfoBlocks,
       extractAllBlocks h fileContent = Return modelInfoBlocks
       /\ associationFaults modelInfoBlocks (declaredWithLists fileContent)
          = false
       /\ providers out
          = resolved h modelInfoBlocks (declaredWithLists fileContent).
Proof.
  rewrite parseModelData_by_cases.
  destruct (extractAllBlocks h fileContent) as [blocks|e]; intros H;
    inversion H; subst; auto.
  destruct (associationFaults blocks _) eqn:E; auto.
  right. exists blocks. auto.
Qed.

Lemma collectStep_has (modelInfoBlocks : Obj.t Capabilities)
  (st : Obj.t Provider.t * option (list Model.t)) (n k : string) :
  Obj.has k (fst st) = true ->
  Obj.has k (fst (collectStep modelInfoBlocks st n)) = true.
Proof.
  destruct st as [providers other]. simpl. intros Hk. unfold collectStep.
  destruct (assigned providers n); [exact Hk|].
  destruct (getProviderFromModelName n) as [hint|]; [|exact Hk].
  destruct (Obj.get hint providers); [|exact Hk].
  simpl. rewrite has_set, Hk. apply orb_true_r.
Qed.

Lemma mergedProviders_has (modelInfoBlocks : Obj.t Capabilities)
  (providers : Obj.t Provider.t) (k : string) :
  Obj.has k providers = true ->
  Obj.has k (mergedProviders modelInfoBlocks providers) = true.
Proof.
  intros Hk. unfold mergedProviders, collectUnassigned.
  assert (Obj.has k (fst (fold_left (collectStep modelInfoBlocks)
                            (Obj.forIn modelInfoBlocks) (providers, None)))
          = true) as H.
  { generalize (Obj.forIn modelInfoBlocks).
    change providers with (fst (providers, @None (list Model.t))) in Hk.
    revert Hk. generalize (providers, @None (list Model.t)).
    intros st Hk l. revert st Hk.
    induction l as [|n l IH]; intros st Hk; simpl; [exact Hk|].
    apply IH. now apply collectStep_has. }
  destruct (fold_left _ _ _) as [ps other]. simpl in H.
  rewrite has_forEachOwn. unfold addOther.
  destruct other as [l|]; [|exact H].
  destruct (0 <? List.length l); [|exact H].
  rewrite has_set, H. apply orb_true_r.
Qed.

(** C6. In the output of parseModelData every provider has at least one
    model.  When the extraction of the blocks returns and no turn of the
    association loop raises, the output is the [providers] object that
    the statements before the last pass leave, with the models of every
    provider that has none replaced by the single placeholder of that
    provider, and every other list left as it is; every declared
    provider is in it.  The placeholder is named after the provider and
    its capabilities are empty. *)
Theorem every_provider_has_a_model (h : Host) (fileContent : string) :
  returns (parseModelData h fileContent)
    (fun out => forall k p, In (k, p) (providers out) ->
                            Provider.models p <> [])
  /\ (protoFree fileContent ->
      forall modelInfoBlocks,
        extractAllBlocks h fileContent = Return modelInfoBlocks ->
        associationFaults modelInfoBlocks (declaredWithLists fileContent)
        = false ->
        exists out,
          parseModelData h fileContent = Return out
          /\ providers out
             = forEachOwn
                 (fun k q =>
                    Provider.Make (Provider.name q)
                      (orPlaceholder k (Provider.models q))
                      (Provider.description q) (Provider.unlistedModels q))
                 (mergedProviders modelInfoBlocks
                    (associated h modelInfoBlocks
                       (declaredWithLists fileContent)))
          /\ forall k, Obj.has k (declaredWithLists fileContent) = true ->
                       Obj.has k (providers out) = true)
  /\ (forall k,
        Model.name (placeholder k) = "No models listed for " +++ k
        /\ Model.capabilities (placeholder k) = Obj.Value []).
Proof.
  split; [|split].
  - destruct (parseModelData_cases h fileContent) as [[out [_ H]]|[e [_ H]]];
      rewrite H; simpl.
    + destruct (parseModelData_output _ _ H) as [->|[blocks [_ [_ Hp]]]].
      * intros k p [].
      * rewrite Hp. unfold resolved. rewrite finishProviders_merged.
        intros k p Hin. apply in_forEachOwn in Hin.
        destruct Hin as [v [_ ->]]. apply fillEmpty_models.
    + intros k p [].
  - intros _ blocks Hb Hf. rewrite parseModelData_by_cases, Hb, Hf.
    eexists. split; [reflexivity|]. simpl. unfold resolved.
    rewrite finishProviders_merged. split.
    + unfold forEachOwn. apply map_ext. intros [k q]. simpl.
      now rewrite fillEmpty_orPlaceholder.
    + intros k Hk. rewrite has_forEachOwn. apply mergedProviders_has.
      unfold associated. now rewrite has_forEachOwn.
  - intros k. split; reflexivity.
Qed.

(** C6, on [llamaDocument]: the provider [openAI] has no model before
    the last pass and holds its placeholder in the output. *)
Lemma every_provider_has_a_model_witness :
  protoFree llamaDocument
  /\ exists out,
       parseModelData plainHost llamaDocument = Return out
       /\ providers out
          = forEachOwn
              (fun k q =>
                 Provider.Make (Provider.name q)
                   (orPlaceholder k (Provider.models q))
                   (Provider.description q) (Provider.unlistedModels q))
              (mergedProviders llamaBlocks
                 (associated plainHost llamaBlocks
                    (declaredWithLists llamaDocument)))
       /\ forall k, Obj.has k (declaredWithLists llamaDocument) = true ->
                    Obj.has k (providers out) = true.
Proof.
  assert (protoFree llamaDocument) as Hp by (vm_compute; reflexivity).
  split; [exact Hp|].
  apply (proj1 (proj2 (every_provider_has_a_model plainHost llamaDocument))
           Hp llamaBlocks).
  - vm_compute. reflexivity.
  - vm_compute. reflexivity.
Defined.

(* ===================================================================== *)
(** ** The dedup invariant *)
(* ===================================================================== *)

Lemma listedProvider_distinct (h : Host)
  (modelInfoBlocks : Obj.t Capabilities) (k : string) (p : Declared.t)
  (seen : list string) :
  providerDistinct seen (listedProvider h modelInfoBlocks k p).
Proof.
  unfold providerDistinct, listedProvider, listModels. simpl. split; auto.
  unfold names. eapply Permutation_NoDup.
  - apply Permutation_map. symmetry. apply sort_perm.
  - apply uniqueFilter_distinct.
Qed.

Lemma extractModelsFromBlock_keys (h : Host) (fileContent blockName : string)
  (modelInfoBlocks modelInfoBlocks' : Obj.t Capabilities) :
  NoDup (Obj.keys modelInfoBlocks) ->
  extractModelsFromBlock h fileContent blockName modelInfoBlocks
  = Return modelInfoBlocks' ->
  NoDup (Obj.keys modelInfoBlocks').
Proof.
  unfold extractModelsFromBlock. intros Hnd.
  destruct (firstMatch _ _) as [blockMatch|]; [|intros H; inversion H; now subst].
  destruct (negb _); [|intros H; inversion H; now subst].
  apply forEachM_invariant with (P := fun s => NoDup (Obj.keys s)); auto.
  intros s x s' Hs. destruct (negb _).
  - destruct (callParseModelDetails h (Entry.content x)); simpl;
      intros H; inversion H. subst. now apply NoDup_keys_set.
  - intros H; inversion H. now subst.
Qed.

Lemma extractAllBlocks_keys (h : Host) (fileContent : string)
  (modelInfoBlocks : Obj.t Capabilities) :
  extractAllBlocks h fileContent = Return modelInfoBlocks ->
  NoDup (Obj.keys modelInfoBlocks).
Proof.
  unfold extractAllBlocks.
  apply forEachM_invariant with (P := fun s => NoDup (Obj.keys s)).
  - intros s x s' Hs H. eapply extractModelsFromBlock_keys; eauto.
  - constructor.
Qed.

Lemma assigned_false (providers : Obj.t Provider.t) (n : string) :
  assigned providers n = false ->
  forall k p, In (k, p) providers -> ~ In n (names (Provider.models p)).
Proof.
  unfold assigned. rewrite existsb_false. intros H k p Hin Hn.
  assert (In p (Obj.values providers)) as Hp.
  { unfold Obj.values. change p with (snd (k, p)). now apply in_map. }
  specialize (H p Hp). rewrite existsb_false in H.
  unfold names in Hn. apply in_map_iff in Hn. destruct Hn as [m [<- Hm]].
  specialize (H m Hm). simpl in H. rewrite String.eqb_refl in H. discriminate.
Qed.

Lemma providerDistinct_mono (seen seen' : list string) (p : Provider.t) :
  incl seen seen' -> providerDistinct seen p -> providerDistinct seen' p.
Proof.
  unfold providerDistinct. intros Hincl [H1 H2]. split; auto.
  destruct (Provider.unlistedModels p) as [u|]; auto.
  destruct H2 as [H2 H3]. split; auto.
  intros n Hn. destruct (H3 n Hn). auto.
Qed.

Lemma otherDistinct_mono (seen seen' : list string)
  (other : option (list Model.t)) :
  incl seen seen' -> otherDistinct seen other -> otherDistinct seen' other.
Proof.
  unfold otherDistinct. intros Hincl. destruct other as [l|]; auto.
  intros [H1 H2]. split; auto.
Qed.

Lemma names_snoc (l : list Model.t) (m : Model.t) :
  names (l ++ [m]) = names l ++ [Model.name m].
Proof. unfold names. now rewrite map_app. Qed.

Lemma NoDup_snoc (l : list string) (n : string) :
  NoDup l -> ~ In n l -> NoDup (l ++ [n]).
Proof.
  intros Hl Hn. apply NoDup_app; auto.
  - constructor; [intros [] | constructor].
  - intros x Hx [<-|[]]. contradiction.
Qed.

Section Collect.
Variable modelInfoBlocks : Obj.t Capabilities.

Lemma collectStep_distinct (st : Obj.t Provider.t * option (list Model.t))
  (n : string) (seen : list string) :
  collectDistinct seen st -> ~ In n seen ->
  collectDistinct (n :: seen) (collectStep modelInfoBlocks st n).
Proof.
  destruct st as [providers other]. intros [Hp Ho] Hn. simpl in Hp, Ho.
  assert (incl seen (n :: seen)) as Hincl by (intros x Hx; now right).
  assert (forall k p, In (k, p) providers -> providerDistinct (n :: seen) p)
    as Hp'.
  { intros k p Hin. eapply providerDistinct_mono; eauto. }
  assert (otherDistinct (n :: seen) other) as Ho'.
  { eapply otherDistinct_mono; eauto. }
  unfold collectStep.
  set (model := Model.Make n _).
  assert (otherDistinct (n :: seen)
            (Some (match other with Some l => l | None => [] end ++ [model])))
    as Hother.
  { unfold otherDistinct. rewrite names_snoc. simpl.
    destruct other as [l|]; simpl.
    - destruct Ho as [Hl Hs]. split.
      + apply NoDup_snoc; [exact Hl|]. intros Hin. apply Hn. auto.
      + intros x Hx. apply in_app_or in Hx. destruct Hx as [Hx|[<-|[]]].
        * right. auto.
        * now left.
    - split; [constructor; [intros []|constructor]|].
      intros x [<-|[]]. now left. }
  destruct (assigned providers n) eqn:Ea; [split; assumption|].
  destruct (getProviderFromModelName n) as [hint|]; [|split; assumption].
  destruct (Obj.get hint providers) as [p0|] eqn:Eg; [|split; assumption].
  split; [|exact Ho']. simpl.
  intros k p Hin. apply in_set in Hin.
  destruct Hin as [[-> ->]|Hin]; [|eapply Hp'; exact Hin].
  apply get_in in Eg.
  destruct (Hp _ _ Eg) as [Hm Hu]. split; [exact Hm|]. simpl.
  rewrite names_snoc. simpl.
  assert (~ In n (names (Provider.models p0))) as Hfresh.
  { eapply assigned_false; eauto. }
  destruct (Provider.unlistedModels p0) as [u|]; simpl.
  - destruct Hu as [Hu1 Hu2]. split.
    + apply NoDup_snoc; [exact Hu1|].
      intros Hin. destruct (Hu2 _ Hin). contradiction.
    + intros x Hx. apply in_app_or in Hx. destruct Hx as [Hx|[<-|[]]].
      * destruct (Hu2 _ Hx). split; [now right|assumption].
      * split; [now left|assumption].
  - split; [constructor; [intros []|constructor]|].
    intros x [<-|[]]. split; [now left|assumption].
Qed.

Lemma collect_distinct (keys : list string)
  (st : Obj.t Provider.t * option (list Model.t)) (seen : list string) :
  NoDup keys -> (forall k, In k keys -> ~ In k seen) ->
  collectDistinct seen st ->
  exists seen', collectDistinct seen' (fold_left (collectStep modelInfoBlocks) keys st).
Proof.
  revert st seen. induction keys as [|n keys IH]; simpl; intros st seen Hnd Hk Hst.
  - eauto.
  - inversion Hnd as [|? ? Hn Hnd']. subst.
    apply (IH _ (n :: seen)); auto.
    + intros k Hin [<-|Hs]; auto. apply (Hk k); auto.
    + apply collectStep_distinct; auto.
Qed.

End Collect.

Lemma mergeUnlisted_distinct (seen : list string) (k : string) (p : Provider.t) :
  providerDistinct seen p ->
  NoDup (names (Provider.models (mergeUnlisted k p))).
Proof.
  unfold providerDistinct, mergeUnlisted. intros [H1 H2].
  destruct (Provider.unlistedModels p) as [u|]; simpl; auto.
  destruct H2 as [H2 H3]. unfold names. rewrite map_app.
  apply NoDup_app; auto.
  intros x Hx Hu. destruct (H3 x Hu). contradiction.
Qed.

Lemma fillEmpty_distinct (k : string) (p : Provider.t) :
  NoDup (names (Provider.models p)) ->
  NoDup (names (Provider.models (fillEmpty k p))).
Proof.
  unfold fillEmpty. destruct (List.length (Provider.models p) =? 0); auto.
  intros _. simpl. constructor; [intros []|constructor].
Qed.

Lemma resolved_distinct (h : Host)
  (modelInfoBlocks : Obj.t Capabilities) (declared : Obj.t Declared.t) :
  NoDup (Obj.keys modelInfoBlocks) ->
  forall k p, In (k, p) (resolved h modelInfoBlocks declared) ->
              NoDup (names (Provider.models p)).
Proof.
  intros Hnd k p.
  unfold resolved, finishProviders, associated, collectUnassigned.
  destruct (@collect_distinct modelInfoBlocks (Obj.forIn modelInfoBlocks)
              (forEachOwn (listedProvider h modelInfoBlocks) declared, None)
              [])
    as [seen [Hp Ho]].
  - now apply forIn_NoDup.
  - intros ? _ [].
  - split; simpl; auto. intros k0 p0 Hin. apply in_forEachOwn in Hin.
    destruct Hin as [v [_ ->]]. apply listedProvider_distinct.
  - destruct (fold_left _ _ _) as [providers other]. simpl in Hp, Ho.
    intros Hin. apply in_forEachOwn in Hin. destruct Hin as [p1 [Hin ->]].
    apply fillEmpty_distinct.
    apply in_forEachOwn in Hin. destruct Hin as [p2 [Hin ->]].
    apply mergeUnlisted_distinct with (seen := seen).
    assert (forall k p, In (k, p) (addOther other providers) ->
                        providerDistinct seen p) as Hall.
    { unfold addOther. destruct other as [l|]; [|exact Hp].
      destruct (0 <? List.length l); [|exact Hp].
      intros k0 p0 Hin0. apply in_set in Hin0.
      destruct Hin0 as [[_ ->]|Hin0]; [|eapply Hp; exact Hin0].
      split; simpl; [apply Ho|exact I]. }
    eapply Hall. exact Hin.
Qed.

(** C7. The explicit list of [constructorDocument] names [constructor]
    twice and [gpt-4o] once: the output lists [gpt-4o] only, the first
    [constructor] is not kept.  The filter that removes the duplicates
    keeps, for every name that is no member of [Object.prototype], the
    first model with that name, and keeps no model named like a member;
    the names it leaves are distinct.  In every output the names of the
    models of a provider are distinct. *)
Theorem member_named_models_are_not_kept :
  option_map Declared.models
    (Obj.get "openAI" (declaredWithLists constructorDocument))
  = Some ["constructor"; "gpt-4o"; "constructor"]
  /\ returns (parseModelData plainHost constructorDocument)
             (fun out => modelNames out = [("openAI", ["gpt-4o"])])
  /\ (forall models n,
        NoDup (names (uniqueFilter [] models))
        /\ firstNamed n (uniqueFilter [] models)
           = if Obj.inherited n then None else firstNamed n models)
  /\ (forall h fileContent,
        returns (parseModelData h fileContent)
          (fun out => forall k p, In (k, p) (providers out) ->
                                  NoDup (names (Provider.models p)))).
Proof.
  split; [vm_compute; reflexivity|].
  split; [vm_compute; reflexivity|].
  split.
  - intros models n. split.
    + apply uniqueFilter_distinct.
    + apply uniqueFilter_first.
  - intros h fileContent.
    destruct (parseModelData_cases h fileContent) as [[out [_ H]]|[e [_ H]]];
      rewrite H; simpl.
    + destruct (parseModelData_output _ _ H) as [->|[blocks [Hb [_ Hp]]]].
      * intros k p [].
      * rewrite Hp. apply resolved_distinct.
        eapply extractAllBlocks_keys; eauto.
    + intros k p [].
Qed.

(* ===================================================================== *)
(** ** The reserved output token space *)
(* ===================================================================== *)

Ltac other_key := rewrite get_set_other by discriminate.

Ltac keep_field :=
  repeat first
    [ other_key
    | match goal with
      | |- context [match ?e with Some _ => _ | None => _ end] => destruct e
      | |- context [if ?b then _ else _] => destruct b
      end ];
  try reflexivity.

Lemma parseSlider_keeps (sliderValue : string) (details : Capabilities) :
  Obj.get reservedField (parseSlider sliderValue details)
  = Obj.get reservedField details.
Proof.
  unfold parseSlider, reservedField.
  destruct (isString _ "budget_slider"); [|destruct (isString _ "effort_slider")];
    keep_field.
Qed.

Lemma parseReasoning_keeps (value : string) (details : Capabilities) :
  Obj.get reservedField (parseReasoning value details)
  = Obj.get reservedField details.
Proof.
  unfold parseReasoning.
  destruct (String.eqb value "false"); [unfold reservedField; now other_key|].
  destruct (exec thinkTagsRe value);
    [unfold reservedField; other_key; fold reservedField|];
    (destruct (exec reasoningSliderRe value); [rewrite parseSlider_keeps|]);
    unfold reservedField; keep_field.
Qed.

Lemma parseDownloadable_keeps (modelSection value : string)
  (details : Capabilities) :
  Obj.get reservedField (parseDownloadable modelSection value details)
  = Obj.get reservedField details.
Proof.
  unfold parseDownloadable, reservedField. keep_field.
Qed.

Lemma parseModelDetails_reserved (modelSection : string) :
  Obj.get reservedField (parseModelDetails modelSection)
  = match exec (fieldRe reservedField) modelSection with
    | Some m =>
        let value := Str.trim (group 1 m) in
        Some (if String.eqb value "null" then VStr "Not specified"
              else VNum (parseInt (Str.filterChars Str.isDigit value)))
    | None => None
    end.
Proof.
  unfold parseModelDetails.
  destruct (exec (fieldRe "downloadable") modelSection);
    [rewrite parseDownloadable_keeps|];
    (destruct (exec costRe modelSection);
       [unfold reservedField; other_key; fold reservedField|]);
    (destruct (exec reasoningRe modelSection); [rewrite parseReasoning_keeps|]);
    (destruct (exec (quotedRe "specialToolFormat") modelSection);
       [unfold reservedField; other_key; fold reservedField|]);
    (destruct (exec (fieldRe "supportsFIM") modelSection);
       [unfold reservedField; other_key; fold reservedField|]);
    (destruct (exec (fieldRe "supportsSystemMessage") modelSection);
       [unfold reservedField; other_key; fold reservedField|]);
    unfold reservedField;
    (destruct (exec (fieldRe "reservedOutputTokenSpace") modelSection);
       [rewrite get_set_same; cbv zeta; now rewrite stripNonDigits_digits|]);
    (destruct (exec (fieldRe "contextWindow") modelSection);
       [other_key|]); reflexivity.
Qed.

(** C9, as amended. When the pattern of [reservedOutputTokenSpace]
    matches in an entry fragment, the extracted record holds, for a value
    token that is [null] once trimmed, the string [Not specified], and
    for every other token the result of parseInt on the digits of the
    token; when the pattern does not match, the record has no such field.
    The result of parseInt is NaN when the token has no digit, and
    otherwise the number for the integer that the digits write in base
    ten: that integer itself up to 2^53, a rounded number beyond. *)
Theorem reservedOutputTokenSpace_rule :
  (forall modelSection,
     Obj.get "reservedOutputTokenSpace" (parseModelDetails modelSection)
     = match exec (fieldRe "reservedOutputTokenSpace") modelSection with
       | Some m =>
           let value := Str.trim (group 1 m) in
           Some (if String.eqb value "null" then VStr "Not specified"
                 else VNum (parseInt (Str.filterChars Str.isDigit value)))
       | None => None
       end)
  /\ (forall value,
        parseInt (Str.filterChars Str.isDigit value)
        = match Str.filterChars Str.isDigit value with
          | EmptyString => NaN
          | digits =>
              if (decimalValue 0 digits <=? 9007199254740992)%Z
              then Int (decimalValue 0 digits)
              else Rounded (decimalValue 0 digits)
          end).
Proof.
  split.
  - exact parseModelDetails_reserved.
  - intros value.
    destruct (Str.filterChars Str.isDigit value) as [|c t] eqn:E;
      [reflexivity|].
    rewrite <- E. rewrite parseInt_digits.
    + unfold number. rewrite Z.abs_eq; [reflexivity|].
      apply decimalValue_nonneg. lia.
    + apply allOf_filterChars.
    + rewrite E. discriminate.
Qed.

(* ===================================================================== *)
(** ** The provider of the unclassified models *)
(* ===================================================================== *)

Lemma sameModels_keys (a b : Obj.t Provider.t) :
  sameModels a b -> Obj.keys a = Obj.keys b.
Proof.
  unfold sameModels, Obj.keys. intros H.
  apply (f_equal (map fst)) in H. rewrite !map_map in H. exact H.
Qed.

Lemma sameModels_has (a b : Obj.t Provider.t) (k : string) :
  sameModels a b -> Obj.has k a = Obj.has k b.
Proof.
  intros H. apply eq_true_iff_eq. rewrite !has_keys.
  now rewrite (sameModels_keys H).
Qed.

Lemma assigned_models (providers : Obj.t Provider.t) (n : string) :
  assigned providers n
  = existsb (existsb (fun m => String.eqb (Model.name m) n))
            (map (fun kv => Provider.models (snd kv)) providers).
Proof.
  unfold assigned, Obj.values.
  induction providers as [|[k p] l IH]; simpl; auto. now rewrite IH.
Qed.

Lemma sameModels_assigned (a b : Obj.t Provider.t) (n : string) :
  sameModels a b -> assigned a n = assigned b n.
Proof.
  unfold sameModels. intros H. rewrite !assigned_models.
  apply (f_equal (map snd)) in H. rewrite !map_map in H. simpl in H.
  now rewrite H.
Qed.

Lemma sameModels_unrouted (a b : Obj.t Provider.t) (n : string) :
  sameModels a b -> unrouted a n = unrouted b n.
Proof.
  intros H. unfold unrouted. rewrite (sameModels_assigned n H).
  destruct (getProviderFromModelName n) as [hint|]; auto.
  now rewrite (sameModels_has hint H).
Qed.

Lemma sameModels_set (o : Obj.t Provider.t) (k : string) (p p' : Provider.t) :
  Obj.get k o = Some p -> Provider.models p' = Provider.models p ->
  sameModels (Obj.set k p' o) o.
Proof.
  unfold sameModels. intros Hg Hm.
  induction o as [|[k1 p1] o IH]; simpl in *; [discriminate|].
  destruct (String.eqb k k1) eqn:E; simpl.
  - inversion Hg. subst. now rewrite Hm.
  - now rewrite IH.
Qed.

Section CollectOther.
Variable modelInfoBlocks : Obj.t Capabilities.
Variable listed : Obj.t Provider.t.

Lemma collectStep_other (cur : Obj.t Provider.t)
  (other : option (list Model.t)) (n : string) :
  sameModels cur listed -> other <> Some [] ->
  sameModels (fst (collectStep modelInfoBlocks (cur, other) n)) listed
  /\ snd (collectStep modelInfoBlocks (cur, other) n) <> Some []
  /\ otherNames (snd (collectStep modelInfoBlocks (cur, other) n))
     = otherNames other ++ (if unrouted listed n then [n] else []).
Proof.
  intros Hs Ho. unfold collectStep.
  rewrite <- (sameModels_unrouted n Hs). unfold unrouted.
  set (model := Model.Make n _).
  assert (Some (match other with Some l => l | None => [] end ++ [model])
          <> Some []) as Hne.
  { intros H. inversion H as [H1]. destruct other as [l|]; [destruct l|];
      discriminate. }
  assert (otherNames
            (Some (match other with Some l => l | None => [] end ++ [model]))
          = otherNames other ++ [n]) as Hnames.
  { simpl. rewrite names_snoc. now destruct other. }
  destruct (assigned cur n); simpl.
  - now rewrite app_nil_r.
  - destruct (getProviderFromModelName n) as [hint|]; simpl; auto.
    unfold Obj.has. destruct (Obj.get hint cur) as [p0|] eqn:Eg; simpl; auto.
    rewrite app_nil_r. repeat split; auto.
    match goal with
    | |- sameModels (Obj.set hint ?q cur) listed =>
        assert (sameModels (Obj.set hint q cur) cur) as Hset
          by (eapply sameModels_set; [exact Eg|reflexivity])
    end.
    unfold sameModels in *. now rewrite Hset.
Qed.

Lemma collect_other (keys : list string) (cur : Obj.t Provider.t)
  (other : option (list Model.t)) :
  sameModels cur listed -> other <> Some [] ->
  sameModels (fst (fold_left (collectStep modelInfoBlocks) keys (cur, other)))
             listed
  /\ snd (fold_left (collectStep modelInfoBlocks) keys (cur, other)) <> Some []
  /\ otherNames (snd (fold_left (collectStep modelInfoBlocks) keys (cur, other)))
     = otherNames other ++ filter (unrouted listed) keys.
Proof.
  revert cur other. induction keys as [|n keys IH]; intros cur other Hs Ho.
  - simpl. now rewrite app_nil_r.
  - cbn [fold_left].
    destruct (collectStep_other n Hs Ho) as [H1 [H2 H3]].
    destruct (collectStep modelInfoBlocks (cur, other) n) as [cur' other'].
    simpl in H1, H2, H3.
    destruct (IH cur' other' H1 H2) as [H4 [H5 H6]].
    repeat split; auto. rewrite H6, H3, <- app_assoc. simpl.
    now destruct (unrouted listed n).
Qed.

End CollectOther.






(* ===================================================================== *)
(** ** Further properties of the output of parseModelData *)
(* ===================================================================== *)

Lemma fold_left_invariant {A S : Type} (P : S -> Prop) (f : S -> A -> S)
  (l : list A) :
  (forall s x, P s -> P (f s x)) -> forall s, P s -> P (fold_left f l s).
Proof.
  intros Hf. induction l as [|x l IH]; simpl; auto.
Qed.

Lemma readProviderLines_underName (body : string) :
  declaredUnderName (readProviderLines body)
  /\ forall k p, In (k, p) (readProviderLines body) -> Declared.models p = [].
Proof.
  unfold readProviderLines.
  apply fold_left_invariant
    with (P := fun ps => declaredUnderName ps
                         /\ forall k p, In (k, p) ps -> Declared.models p = []).
  - intros ps line [H1 H2]. destruct (exec providerLineRegex line) as [m|]; auto.
    split.
    + intros k p Hin. apply in_set in Hin.
      destruct Hin as [[-> ->]|Hin]; [split; reflexivity | now apply H1].
    + intros k p Hin. apply in_set in Hin.
      destruct Hin as [[-> ->]|Hin]; [reflexivity | eapply H2; eauto].
  - split; intros k p [].
Qed.

Lemma declaredProviders_underName (fileContent : string) :
  declaredUnderName (declaredProviders fileContent).
Proof.
  unfold declaredProviders.
  destruct (exec providerRegex fileContent) as [m|]; [|intros k p []].
  destruct (negb _); [apply readProviderLines_underName | intros k p []].
Qed.

Lemma defaultModels_underName (fileContent : string) (ps : Obj.t Declared.t) :
  declaredUnderName ps -> declaredUnderName (defaultModels fileContent ps).
Proof.
  intros Hps. unfold defaultModels.
  destruct (exec defaultModelsRegex fileContent) as [m|]; auto.
  destruct (negb _); auto.
  apply fold_left_invariant with (P := declaredUnderName); auto.
  intros providers section H.
  destruct (exec providerSectionRegex section) as [pm|]; auto.
  destruct (Obj.read (group 1 pm) providers) as [[p|member]|] eqn:Eg; auto.
  destruct (matchG quotedNameRegex section) as [names|]; auto.
  intros k q Hin. apply in_set in Hin.
  destruct Hin as [[-> ->]|Hin]; [|now apply H].
  apply read_value, get_in in Eg. apply H in Eg. exact Eg.
Qed.

Lemma defaultModels_keys (fileContent : string) (ps : Obj.t Declared.t) :
  Obj.keys (defaultModels fileContent ps) = Obj.keys ps.
Proof.
  unfold defaultModels.
  destruct (exec defaultModelsRegex fileContent) as [m|]; auto.
  destruct (negb _); auto.
  apply fold_left_invariant
    with (P := fun providers => Obj.keys providers = Obj.keys ps); auto.
  intros providers section H.
  destruct (exec providerSectionRegex section) as [pm|]; auto.
  destruct (Obj.read (group 1 pm) providers) as [[p|member]|] eqn:Eg; auto.
  destruct (matchG quotedNameRegex section) as [names|]; auto.
  apply read_value in Eg. rewrite keys_set. unfold Obj.has. now rewrite Eg.
Qed.

Lemma collectStep_underName (modelInfoBlocks : Obj.t Capabilities)
  (st : Obj.t Provider.t * option (list Model.t)) (n : string) :
  storedUnderName (fst st) ->
  storedUnderName (fst (collectStep modelInfoBlocks st n)).
Proof.
  destruct st as [providers other]. simpl. intros H. unfold collectStep.
  destruct (assigned providers n); auto.
  destruct (getProviderFromModelName n) as [hint|]; auto.
  destruct (Obj.get hint providers) as [p0|] eqn:Eg; auto.
  simpl. intros k p Hin. apply in_set in Hin.
  destruct Hin as [[-> ->]|Hin]; [|now apply H].
  apply get_in in Eg. apply H in Eg. exact Eg.
Qed.

Lemma resolved_underName (h : Host)
  (modelInfoBlocks : Obj.t Capabilities) (declared : Obj.t Declared.t) :
  declaredUnderName declared ->
  forall k p, In (k, p) (resolved h modelInfoBlocks declared) ->
    Provider.name p = k
    /\ Provider.unlistedModels p = None
    /\ (Provider.description p = getProviderDescription k
        \/ (k = "other" /\ Provider.description p = otherDescription)).
Proof.
  intros Hd. unfold resolved, finishProviders, associated, collectUnassigned.
  assert (storedUnderName
            (forEachOwn (listedProvider h modelInfoBlocks) declared)) as H0.
  { intros k p Hin. apply in_forEachOwn in Hin. destruct Hin as [d [Hin ->]].
    apply Hd in Hin. destruct Hin as [Hn Hdesc]. simpl. auto. }
  assert (storedUnderName
            (fst (fold_left (collectStep modelInfoBlocks)
                    (Obj.forIn modelInfoBlocks)
                    (forEachOwn (listedProvider h modelInfoBlocks) declared,
                     None)))) as H1.
  { apply fold_left_invariant
      with (P := fun st => storedUnderName (fst st)); auto.
    intros st n. apply collectStep_underName. }
  destruct (fold_left _ _ _) as [cur other]. simpl in H1.
  assert (storedUnderName (addOther other cur)) as H2.
  { unfold addOther. destruct other as [l|]; auto.
    destruct (0 <? List.length l); auto.
    intros k p Hin. apply in_set in Hin.
    destruct Hin as [[-> ->]|Hin]; [|now apply H1].
    simpl. split; auto. }
  intros k p Hin. apply in_forEachOwn in Hin. destruct Hin as [p1 [Hin ->]].
  apply in_forEachOwn in Hin. destruct Hin as [p2 [Hin ->]].
  apply H2 in Hin. destruct Hin as [Hn Hdesc].
  unfold fillEmpty, mergeUnlisted.
  destruct (Provider.unlistedModels p2) as [u|] eqn:Eu; simpl;
    destruct (List.length _ =? 0); simpl; auto.
Qed.

(** X1. Every provider of the output of parseModelData is stored under
    its own name, no longer has a list of unlisted models, and carries
    the description that getProviderDescription gives for its name; the
    one exception is the provider [other] that parseModelData creates,
    whose description is fixed. *)
Theorem output_providers_are_stored_under_their_name (h : Host)
  (fileContent : string) :
  returns (parseModelData h fileContent)
    (fun out => forall k p, In (k, p) (providers out) ->
       Provider.name p = k
       /\ Provider.unlistedModels p = None
       /\ (Provider.description p = getProviderDescription k
           \/ (k = "other" /\ Provider.description p = otherDescription))).
Proof.
  destruct (parseModelData_cases h fileContent) as [[out [_ H]]|[e [_ H]]];
    rewrite H; simpl; [|intros k p []].
  destruct (parseModelData_output _ _ H) as [->|[blocks [_ [_ Hp]]]];
    [intros k p []|].
  rewrite Hp. apply resolved_underName.
  apply defaultModels_underName, declaredProviders_underName.
Qed.

(* ===================================================================== *)
(** ** The providers of the output, their order and their models *)
(* ===================================================================== *)

Lemma has_same_keys {V W : Type} (a : Obj.t V) (b : Obj.t W) (k : string) :
  Obj.keys a = Obj.keys b -> Obj.has k a = Obj.has k b.
Proof.
  intros H.
  destruct (Obj.has k a) eqn:Ea, (Obj.has k b) eqn:Eb; auto.
  - apply has_keys in Ea. rewrite H in Ea. apply has_keys in Ea. congruence.
  - apply has_keys in Eb. rewrite <- H in Eb. apply has_keys in Eb. congruence.
Qed.

Lemma collect_keys (modelInfoBlocks : Obj.t Capabilities)
  (listed : Obj.t Provider.t) :
  Obj.keys (fst (collectUnassigned modelInfoBlocks listed))
  = Obj.keys listed.
Proof.
  unfold collectUnassigned.
  destruct (@collect_other modelInfoBlocks listed
              (Obj.forIn modelInfoBlocks) listed None) as [H _].
  - reflexivity.
  - discriminate.
  - now apply sameModels_keys.
Qed.

Lemma resolved_keys (h : Host) (modelInfoBlocks : Obj.t Capabilities)
  (declared : Obj.t Declared.t) :
  Obj.keys (resolved h modelInfoBlocks declared) = Obj.keys declared
  \/ (Obj.has "other" declared = false
      /\ Obj.keys (resolved h modelInfoBlocks declared)
         = Obj.keys declared ++ ["other"]).
Proof.
  unfold resolved, finishProviders, associated.
  pose proof (collect_keys modelInfoBlocks
                (forEachOwn (listedProvider h modelInfoBlocks) declared)) as Hk.
  destruct (collectUnassigned _ _) as [cur other]. simpl in Hk.
  rewrite keys_forEachOwn in Hk.
  rewrite !keys_forEachOwn.
  unfold addOther. destruct other as [l|]; [|now left].
  destruct (0 <? List.length l); [|now left].
  rewrite keys_set, (has_same_keys cur declared "other" Hk), Hk.
  destruct (Obj.has "other" declared); [now left | right; auto].
Qed.

Lemma forIn_same_keys {V W : Type} (a : Obj.t V) (b : Obj.t W) :
  Obj.keys a = Obj.keys b -> Obj.forIn a = Obj.forIn b.
Proof. unfold Obj.forIn. now intros ->. Qed.

Lemma indexKeys_named_last (ks : list string) (k : string) :
  Obj.isNamed k = true -> Obj.indexKeys (ks ++ [k]) = Obj.indexKeys ks.
Proof.
  intros Hk. induction ks as [|x ks IH]; simpl.
  - unfold Obj.isNamed in Hk. destruct (Obj.arrayIndex k); [discriminate|].
    reflexivity.
  - now rewrite IH.
Qed.

Lemma forIn_named_last {V W : Type} (a : Obj.t V) (b : Obj.t W) (k : string) :
  Obj.isNamed k = true -> Obj.keys a = Obj.keys b ++ [k] ->
  Obj.forIn a = Obj.forIn b ++ [k].
Proof.
  intros Hk E. unfold Obj.forIn. rewrite E.
  rewrite indexKeys_named_last by exact Hk.
  rewrite filter_app. simpl. rewrite Hk. now rewrite app_assoc.
Qed.

(** X2. Take a document without the word [__proto__].  When the
    extraction of the blocks raises, or a turn of the association loop
    raises, the output is the empty mapping.  Otherwise the providers of
    the output of parseModelData are the declared providers, enumerated
    in the same order; the only provider that can be added is [other],
    enumerated last, and only when no provider of that name is
    declared. *)
Theorem output_keeps_the_declared_providers_in_order (h : Host)
  (fileContent : string) :
  protoFree fileContent ->
  let declared := declaredProviders fileContent in
  match extractAllBlocks h fileContent with
  | Throw _ => parseModelData h fileContent = Return emptyOutput
  | Return modelInfoBlocks =>
      if associationFaults modelInfoBlocks (declaredWithLists fileContent)
      then parseModelData h fileContent = Return emptyOutput
      else
        exists out,
          parseModelData h fileContent = Return out
          /\ (Obj.forIn (providers out) = Obj.forIn declared
              \/ (~ In "other" (Obj.keys declared)
                  /\ Obj.forIn (providers out)
                     = Obj.forIn declared ++ ["other"]))
  end.
Proof.
  intros _. rewrite parseModelData_by_cases.
  destruct (extractAllBlocks h fileContent) as [blocks|e]; simpl; auto.
  destruct (associationFaults blocks (declaredWithLists fileContent));
    [reflexivity|].
  eexists. split; [reflexivity|]. simpl.
  destruct (resolved_keys h blocks (declaredWithLists fileContent))
    as [H|[Hn H]]; unfold declaredWithLists in *;
    rewrite defaultModels_keys in H.
  - left. now apply forIn_same_keys.
  - right. split.
    + rewrite (has_same_keys _ (declaredProviders fileContent) "other"
                 (defaultModels_keys fileContent _)) in Hn.
      intros Hin. apply has_keys in Hin. congruence.
    + apply forIn_named_last; [reflexivity | exact H].
Qed.

(** X2, witness: [llamaDocument] on [plainHost]. *)
Lemma output_keeps_the_declared_providers_in_order_witness :
  protoFree llamaDocument
  /\ match extractAllBlocks plainHost llamaDocument with
     | Throw _ => parseModelData plainHost llamaDocument = Return emptyOutput
     | Return modelInfoBlocks =>
         if associationFaults modelInfoBlocks (declaredWithLists llamaDocument)
         then parseModelData plainHost llamaDocument = Return emptyOutput
         else
           exists out,
             parseModelData plainHost llamaDocument = Return out
             /\ (Obj.forIn (providers out)
                 = Obj.forIn (declaredProviders llamaDocument)
                 \/ (~ In "other" (Obj.keys (declaredProviders llamaDocument))
                     /\ Obj.forIn (providers out)
                        = Obj.forIn (declaredProviders llamaDocument)
                          ++ ["other"]))
     end.
Proof.
  assert (protoFree llamaDocument) as Hp by (vm_compute; reflexivity).
  split; [exact Hp|].
  exact (@output_keeps_the_declared_providers_in_order plainHost
           llamaDocument Hp).
Defined.

Lemma in_set_keep {V : Type} (k k' : string) (v v' : V) (o : Obj.t V) :
  In (k, v) o ->
  In (k, v) (Obj.set k' v' o) \/ (k = k' /\ Obj.get k' o = Some v).
Proof.
  induction o as [|[k1 v1] o IH]; simpl; [tauto|].
  destruct (String.eqb k' k1) eqn:E.
  - apply String.eqb_eq in E. subst k1.
    intros [H|H]; [inversion H; subst; right; auto | left; right; exact H].
  - intros [H|H]; [left; left; exact H|].
    destruct (IH H) as [H1|H1]; [left; right; exact H1 | right; exact H1].
Qed.

Lemma assigned_true (providers : Obj.t Provider.t) (n : string) :
  assigned providers n = true ->
  exists k p, In (k, p) providers /\ In n (names (Provider.models p)).
Proof.
  unfold assigned. intros H. apply existsb_exists in H.
  destruct H as [p [Hp H]]. apply existsb_exists in H.
  destruct H as [m [Hm H]]. apply String.eqb_eq in H.
  unfold Obj.values in Hp. apply in_map_iff in Hp.
  destruct Hp as [[k p'] [Hk Hin]]. simpl in Hk. subst p'.
  exists k, p. split; auto. unfold names. apply in_map_iff. eauto.
Qed.

Lemma names_app (a b : list Model.t) : names (a ++ b) = names a ++ names b.
Proof. unfold names. apply map_app. Qed.

Section Kept.
Variable modelInfoBlocks : Obj.t Capabilities.

Lemma collectStep_keeps (st : Obj.t Provider.t * option (list Model.t))
  (n m : string) :
  kept st m -> kept (collectStep modelInfoBlocks st n) m.
Proof.
  destruct st as [providers other]. unfold collectStep.
  destruct (assigned providers n); auto.
  assert (kept (providers, other) m ->
          forall model,
            kept (providers,
                  Some (match other with Some l => l | None => [] end ++ [model]))
                 m) as HtoOther.
  { intros [H|H] model; [left; exact H|]. right. simpl in *.
    rewrite names_app. apply in_or_app. left.
    destruct other; [exact H | destruct H]. }
  intros H.
  destruct (getProviderFromModelName n) as [hint|]; [|now apply HtoOther].
  destruct (Obj.get hint providers) as [p0|] eqn:Eg; [|now apply HtoOther].
  destruct H as [[k [p [Hin Hm]]]|H]; [|right; exact H].
  left. simpl in Hin. simpl.
  destruct (@in_set_keep _ k hint p
              (Provider.Make (Provider.name p0) (Provider.models p0)
                 (Provider.description p0)
                 (Some (match Provider.unlistedModels p0 with
                        | Some l => l
                        | None => []
                        end ++ [Model.Make n
                                  match Obj.read n modelInfoBlocks with
                                  | Some d => d
                                  | None => Obj.Value []
                                  end])))
              providers Hin) as [H1|[-> H1]].
  - exists k, p. auto.
  - rewrite Eg in H1. inversion H1. subst p0.
    eexists hint, _. split; [apply get_in, get_set_same|]. simpl.
    destruct Hm as [Hm|[u [Hu Hm]]]; [left; exact Hm|].
    right. eexists. split; [reflexivity|].
    rewrite Hu, names_app. apply in_or_app. now left.
Qed.

Lemma collectStep_keeps_new (st : Obj.t Provider.t * option (list Model.t))
  (n : string) :
  kept (collectStep modelInfoBlocks st n) n.
Proof.
  destruct st as [providers other]. unfold collectStep.
  destruct (assigned providers n) eqn:Ea.
  { left. destruct (assigned_true _ _ Ea) as [k [p [Hin Hn]]].
    exists k, p. auto. }
  assert (forall caps,
            kept (providers,
                  Some (match other with Some l => l | None => [] end
                        ++ [Model.Make n caps]))
                 n) as HtoOther.
  { intros caps. right. simpl. rewrite names_app. apply in_or_app.
    right. simpl. auto. }
  destruct (getProviderFromModelName n) as [hint|]; [|now apply HtoOther].
  destruct (Obj.get hint providers) as [p0|] eqn:Eg; [|now apply HtoOther].
  left. simpl. eexists hint, _. split; [apply get_in, get_set_same|].
  simpl. right. eexists. split; [reflexivity|].
  rewrite names_app. apply in_or_app. right. simpl. auto.
Qed.

Lemma collect_keeps (keys : list string)
  (st : Obj.t Provider.t * option (list Model.t)) :
  (forall m, kept st m ->
             kept (fold_left (collectStep modelInfoBlocks) keys st) m)
  /\ forall n, In n keys ->
               kept (fold_left (collectStep modelInfoBlocks) keys st) n.
Proof.
  revert st. induction keys as [|x keys IH]; intros st; simpl.
  - split; [auto | intros n []].
  - destruct (IH (collectStep modelInfoBlocks st x)) as [IH1 IH2]. split.
    + intros m Hm. apply IH1, collectStep_keeps, Hm.
    + intros n [->|Hn]; [apply IH1, collectStep_keeps_new | now apply IH2].
Qed.

End Kept.

Lemma resolved_complete (h : Host)
  (modelInfoBlocks : Obj.t Capabilities) (declared : Obj.t Declared.t)
  (n : string) :
  Obj.has "other" declared = false ->
  In n (Obj.keys modelInfoBlocks) ->
  exists k p, In (k, p) (resolved h modelInfoBlocks declared)
              /\ In n (names (Provider.models p)).
Proof.
  intros Hother Hn. unfold resolved, finishProviders, associated.
  pose proof (collect_keys modelInfoBlocks
                (forEachOwn (listedProvider h modelInfoBlocks) declared)) as Hk.
  assert (kept (collectUnassigned modelInfoBlocks
                  (forEachOwn (listedProvider h modelInfoBlocks) declared))
               n) as Hkept.
  { unfold collectUnassigned. apply collect_keeps.
    eapply Permutation_in; [apply Permutation_sym, forIn_perm | exact Hn]. }
  destruct (collectUnassigned _ _) as [cur other]. simpl in Hk.
  rewrite keys_forEachOwn in Hk.
  assert (Obj.get "other" cur = None) as Hcur.
  { pose proof (has_same_keys cur declared "other" Hk) as H.
    rewrite Hother in H. unfold Obj.has in H.
    destruct (Obj.get "other" cur); [discriminate | reflexivity]. }
  assert (exists k p, In (k, p) (addOther other cur)
            /\ (In n (names (Provider.models p))
                \/ exists u, Provider.unlistedModels p = Some u
                             /\ In n (names u))) as Hadd.
  { destruct Hkept as [[k [p [Hin Hm]]]|Hm]; simpl in *.
    - exists k, p. split; auto. unfold addOther.
      destruct other as [l|]; auto. destruct (0 <? List.length l); auto.
      destruct (@in_set_keep _ k "other" p
                  (Provider.Make "other" l otherDescription None) cur Hin) as [H|[_ H]]; [exact H | congruence].
    - destruct other as [l|]; [|destruct Hm]. simpl in Hm.
      unfold addOther. destruct l as [|m0 l]; [destruct Hm|].
      cbn [List.length Nat.ltb Nat.leb].
      eexists "other", _. split; [apply get_in, get_set_same|].
      left. exact Hm. }
  destruct Hadd as [k [p [Hin Hm]]].
  exists k, (fillEmpty k (mergeUnlisted k p)). split.
  - apply in_forEachOwn. exists (mergeUnlisted k p). split; auto.
    apply in_forEachOwn. exists p. auto.
  - assert (In n (names (Provider.models (mergeUnlisted k p)))) as Hmerged.
    { unfold mergeUnlisted.
      destruct Hm as [Hm|[u [Hu Hm]]].
      - destruct (Provider.unlistedModels p); auto. simpl.
        rewrite names_app. apply in_or_app. now left.
      - rewrite Hu. simpl. rewrite names_app. apply in_or_app. now right. }
    destruct (fillEmpty_models k (mergeUnlisted k p)) as [_ [_ H]].
    rewrite H; auto. intros E. rewrite E in Hmerged. destruct Hmerged.
Qed.

(** X3. No extracted entry is lost: when the document does not hold
    the word [__proto__], the extraction of the blocks returns, no turn
    of the association loop raises, and no provider named [other] is
    declared, parseModelData returns an output in which every key of the
    capability mapping is the name of a model of some provider. *)
Theorem every_extracted_entry_is_listed (h : Host) (fileContent : string)
  (modelInfoBlocks : Obj.t Capabilities) :
  protoFree fileContent ->
  extractAllBlocks h fileContent = Return modelInfoBlocks ->
  associationFaults modelInfoBlocks (declaredWithLists fileContent) = false ->
  Obj.has "other" (declaredProviders fileContent) = false ->
  exists out,
    parseModelData h fileContent = Return out
    /\ forall n, In n (Obj.keys modelInfoBlocks) ->
         exists k p, In (k, p) (providers out)
                     /\ In n (names (Provider.models p)).
Proof.
  intros _ Hx Hf Hother. rewrite parseModelData_by_cases, Hx, Hf.
  eexists. split; [reflexivity|]. simpl.
  intros n Hn. apply resolved_complete; auto.
  unfold declaredWithLists.
  rewrite (has_same_keys _ (declaredProviders fileContent) "other"
             (defaultModels_keys fileContent _)).
  exact Hother.
Qed.

(** X3, witness: [llamaDocument], which declares the provider [openAI]
    only and whose blocks are [llamaBlocks]. *)
Lemma every_extracted_entry_is_listed_witness :
  exists out,
    parseModelData plainHost llamaDocument = Return out
    /\ forall n, In n (Obj.keys llamaBlocks) ->
         exists k p, In (k, p) (providers out)
                     /\ In n (names (Provider.models p)).
Proof.
  apply (@every_extracted_entry_is_listed plainHost llamaDocument llamaBlocks).
  - vm_compute. reflexivity.
  - vm_compute. reflexivity.
  - vm_compute. reflexivity.
  - vm_compute. reflexivity.
Defined.

(* ===================================================================== *)
(** ** The models of the providers of the output *)
(* ===================================================================== *)

Lemma fold_left_invariant_in {A S : Type} (P : S -> Prop) (f : S -> A -> S)
  (l : list A) :
  (forall s x, In x l -> P s -> P (f s x)) ->
  forall s, P s -> P (fold_left f l s).
Proof.
  induction l as [|x l IH]; simpl; [auto|].
  intros Hf s Hs. apply IH; [intros; apply Hf; auto|].
  apply Hf; auto.
Qed.

Lemma findModelDetails_key (modelInfoBlocks : Obj.t Capabilities) (n : string) :
  In n (Obj.keys modelInfoBlocks) ->
  match Obj.read n modelInfoBlocks with
  | Some d => d
  | None => Obj.Value []
  end = detailsOrEmpty n modelInfoBlocks.
Proof.
  intros Hn. unfold detailsOrEmpty, findModelDetails.
  destruct (Obj.read n modelInfoBlocks) as [d|] eqn:E; [reflexivity|].
  unfold Obj.read in E.
  destruct (Obj.get n modelInfoBlocks) eqn:Eg; [discriminate|].
  apply get_none_keys in Eg. contradiction.
Qed.

Lemma listedProvider_lookedUp (h : Host)
  (modelInfoBlocks : Obj.t Capabilities) (k : string) (d : Declared.t) :
  providerLookedUp modelInfoBlocks (listedProvider h modelInfoBlocks k d).
Proof.
  unfold providerLookedUp, listedProvider, listModels. simpl.
  split; [|discriminate].
  intros m Hm.
  apply (Permutation_in _ (sort_perm _ _)) in Hm.
  apply uniqueFilter_incl in Hm. apply in_map_iff in Hm.
  destruct Hm as [n [<- _]]. reflexivity.
Qed.

Lemma collectStep_lookedUp (modelInfoBlocks : Obj.t Capabilities)
  (st : Obj.t Provider.t * option (list Model.t)) (n : string) :
  In n (Obj.keys modelInfoBlocks) ->
  stateLookedUp modelInfoBlocks st ->
  stateLookedUp modelInfoBlocks (collectStep modelInfoBlocks st n).
Proof.
  intros Hn. destruct st as [providers other]. intros [Hp Ho].
  simpl in Hp, Ho. unfold collectStep.
  destruct (assigned providers n); [split; auto|].
  assert (asLookedUp modelInfoBlocks
            (Model.Make n match Obj.read n modelInfoBlocks with
                          | Some d => d
                          | None => Obj.Value []
                          end)) as Hnew.
  { unfold asLookedUp. simpl. now apply findModelDetails_key. }
  assert (stateLookedUp modelInfoBlocks
            (providers,
             Some (match other with Some l => l | None => [] end
                   ++ [Model.Make n match Obj.read n modelInfoBlocks with
                                    | Some d => d
                                    | None => Obj.Value []
                                    end]))) as HtoOther.
  { split; auto. simpl. intros m Hm. apply in_app_or in Hm.
    destruct Hm as [Hm|[<-|[]]]; auto. }
  destruct (getProviderFromModelName n) as [hint|]; auto.
  destruct (Obj.get hint providers) as [p0|] eqn:Eg; auto.
  split; auto. simpl. intros k p Hin. apply in_set in Hin.
  destruct Hin as [[-> ->]|Hin]; [|eapply Hp; eauto].
  apply get_in, Hp in Eg. destruct Eg as [H1 H2].
  split; simpl; auto.
  intros u Hu m Hm. inversion Hu. subst u. clear Hu.
  apply in_app_or in Hm. destruct Hm as [Hm|[<-|[]]]; auto.
  destruct (Provider.unlistedModels p0) as [u0|]; [|destruct Hm].
  eapply H2; eauto.
Qed.

Lemma resolved_lookedUp (h : Host)
  (modelInfoBlocks : Obj.t Capabilities) (declared : Obj.t Declared.t) :
  forall k p m,
    In (k, p) (resolved h modelInfoBlocks declared) ->
    In m (Provider.models p) ->
    m = placeholder k \/ asLookedUp modelInfoBlocks m.
Proof.
  unfold resolved, finishProviders, associated, collectUnassigned.
  assert (stateLookedUp modelInfoBlocks
            (fold_left (collectStep modelInfoBlocks)
               (Obj.forIn modelInfoBlocks)
               (forEachOwn (listedProvider h modelInfoBlocks) declared,
                None))) as H1.
  { apply fold_left_invariant_in
      with (P := stateLookedUp modelInfoBlocks).
    - intros st n Hn. apply collectStep_lookedUp.
      eapply Permutation_in; [apply forIn_perm | exact Hn].
    - split; simpl; [|intros m []].
      intros k p Hin. apply in_forEachOwn in Hin.
      destruct Hin as [d [_ ->]]. apply listedProvider_lookedUp. }
  destruct (fold_left _ _ _) as [cur other]. destruct H1 as [Hp Ho].
  simpl in Hp, Ho.
  assert (forall k p, In (k, p) (addOther other cur) ->
                      providerLookedUp modelInfoBlocks p) as H2.
  { unfold addOther. destruct other as [l|]; auto.
    destruct (0 <? List.length l); auto.
    intros k p Hin. apply in_set in Hin.
    destruct Hin as [[-> ->]|Hin]; [|eapply Hp; eauto].
    split; simpl; [auto | discriminate]. }
  intros k p m Hin Hm.
  apply in_forEachOwn in Hin. destruct Hin as [p1 [Hin ->]].
  apply in_forEachOwn in Hin. destruct Hin as [p2 [Hin ->]].
  apply H2 in Hin. destruct Hin as [Hl Hu].
  revert Hm. unfold fillEmpty, mergeUnlisted.
  destruct (Provider.unlistedModels p2) as [u|] eqn:Eu; simpl;
    destruct (List.length _ =? 0); simpl.
  - intros [<-|[]]. now left.
  - intros Hm. right. apply in_app_or in Hm.
    destruct Hm as [Hm|Hm]; [auto | eapply Hu; eauto].
  - intros [<-|[]]. now left.
  - intros Hm. right. auto.
Qed.

(** X4. Take a document without the word [__proto__] on which the
    extraction of the blocks returns.  In the output of parseModelData,
    every model of every provider, the placeholder of a provider without
    models apart, carries what findModelDetails finds for its name in
    the capability mapping (the empty record when it finds nothing): the
    models that the keyword rules add are keys of the mapping, on which
    the direct look-up of the loop and findModelDetails agree. *)
Theorem models_carry_the_capabilities_looked_up (h : Host)
  (fileContent : string) (modelInfoBlocks : Obj.t Capabilities) :
  protoFree fileContent ->
  extractAllBlocks h fileContent = Return modelInfoBlocks ->
  exists out,
    parseModelData h fileContent = Return out
    /\ forall k p m,
         In (k, p) (providers out) -> In m (Provider.models p) ->
         m = placeholder k
         \/ Model.capabilities m
            = match findModelDetails (Model.name m) modelInfoBlocks with
              | Some modelDetails => modelDetails
              | None => Obj.Value []
              end.
Proof.
  intros _ Hx. rewrite parseModelData_by_cases, Hx.
  eexists. split; [reflexivity|].
  destruct (associationFaults modelInfoBlocks _); simpl.
  - intros k p m [].
  - apply resolved_lookedUp.
Qed.

(** X4, witness: [llamaDocument] on [plainHost], whose blocks are
    [llamaBlocks]. *)
Lemma models_carry_the_capabilities_looked_up_witness :
  exists out,
    parseModelData plainHost llamaDocument = Return out
    /\ forall k p m,
         In (k, p) (providers out) -> In m (Provider.models p) ->
         m = placeholder k
         \/ Model.capabilities m
            = match findModelDetails (Model.name m) llamaBlocks with
              | Some modelDetails => modelDetails
              | None => Obj.Value []
              end.
Proof.
  apply (@models_carry_the_capabilities_looked_up plainHost llamaDocument
           llamaBlocks).
  - vm_compute. reflexivity.
  - vm_compute. reflexivity.
Defined.

(* ===================================================================== *)
(** ** The order of the models of a provider *)
(* ===================================================================== *)

Lemma sameModels_in (a b : Obj.t Provider.t) (k : string) (p : Provider.t) :
  sameModels a b -> In (k, p) a ->
  exists q, In (k, q) b /\ Provider.models q = Provider.models p.
Proof.
  unfold sameModels. intros H Hin.
  assert (In (k, Provider.models p)
             (map (fun kv => (fst kv, Provider.models (snd kv))) a)) as H1.
  { apply in_map_iff. exists (k, p). auto. }
  rewrite H in H1. apply in_map_iff in H1.
  destruct H1 as [[k' q] [E Hq]]. simpl in E. inversion E. subst k'.
  exists q. auto.
Qed.

Lemma collectStep_routedHere (modelInfoBlocks : Obj.t Capabilities)
  (st : Obj.t Provider.t * option (list Model.t)) (n : string) :
  In n (Obj.keys modelInfoBlocks) ->
  routedHere modelInfoBlocks (fst st) ->
  routedHere modelInfoBlocks (fst (collectStep modelInfoBlocks st n)).
Proof.
  intros Hn. destruct st as [providers other]. simpl. intros H.
  unfold collectStep.
  destruct (assigned providers n); auto.
  destruct (getProviderFromModelName n) as [hint|] eqn:Eh; auto.
  destruct (Obj.get hint providers) as [p0|] eqn:Eg; auto.
  simpl. intros k p u Hin Hu n' Hn'. apply in_set in Hin.
  destruct Hin as [[-> ->]|Hin]; [|eapply H; eauto].
  simpl in Hu. inversion Hu. subst u. clear Hu.
  rewrite names_app in Hn'. apply in_app_or in Hn'.
  destruct Hn' as [Hn'|[<-|[]]]; [|auto].
  apply get_in in Eg.
  destruct (Provider.unlistedModels p0) as [u0|] eqn:Eu; [|destruct Hn'].
  eapply H; eauto.
Qed.

Lemma resolved_listed_first (h : Host)
  (modelInfoBlocks : Obj.t Capabilities) (declared : Obj.t Declared.t)
  (k : string) (p : Provider.t) :
  In (k, p) (resolved h modelInfoBlocks declared) ->
  k <> "other" ->
  exists d extra,
    In (k, d) declared
    /\ Provider.models p
       = match Provider.models (listedProvider h modelInfoBlocks k d)
               ++ extra with
         | [] => [placeholder k]
         | models => models
         end
    /\ forall n, In n (names extra) ->
         getProviderFromModelName n = Some k
         /\ In n (Obj.keys modelInfoBlocks).
Proof.
  unfold resolved, finishProviders, associated, collectUnassigned.
  destruct (@collect_other modelInfoBlocks
              (forEachOwn (listedProvider h modelInfoBlocks) declared)
              (Obj.forIn modelInfoBlocks)
              (forEachOwn (listedProvider h modelInfoBlocks) declared) None)
    as [Hsame _]; [reflexivity | discriminate |].
  assert (routedHere modelInfoBlocks
            (fst (fold_left (collectStep modelInfoBlocks)
                    (Obj.forIn modelInfoBlocks)
                    (forEachOwn (listedProvider h modelInfoBlocks) declared,
                     None)))) as Hrouted.
  { apply fold_left_invariant_in
      with (P := fun st => routedHere modelInfoBlocks (fst st)).
    - intros st n Hn. apply collectStep_routedHere.
      eapply Permutation_in; [apply forIn_perm | exact Hn].
    - simpl. intros k0 p0 u Hin Hu. apply in_forEachOwn in Hin.
      destruct Hin as [d [_ ->]]. discriminate. }
  destruct (fold_left _ _ _) as [cur other]. simpl in Hsame, Hrouted.
  intros Hin Hk.
  apply in_forEachOwn in Hin. destruct Hin as [p1 [Hin ->]].
  apply in_forEachOwn in Hin. destruct Hin as [p2 [Hin ->]].
  assert (In (k, p2) cur) as Hcur.
  { unfold addOther in Hin. destruct other as [l|]; auto.
    destruct (0 <? List.length l); auto.
    apply in_set in Hin. destruct Hin as [[-> _]|Hin]; [congruence | auto]. }
  destruct (sameModels_in k p2 Hsame Hcur) as [q [Hq Hmodels]].
  apply in_forEachOwn in Hq. destruct Hq as [d [Hd ->]].
  exists d, (match Provider.unlistedModels p2 with
             | Some u => u
             | None => []
             end).
  split; [exact Hd|]. split.
  - rewrite Hmodels.
    assert (Provider.models (mergeUnlisted k p2)
            = Provider.models p2 ++ match Provider.unlistedModels p2 with
                                    | Some u => u
                                    | None => []
                                    end) as Hmerge.
    { unfold mergeUnlisted. destruct (Provider.unlistedModels p2); simpl; auto.
      now rewrite app_nil_r. }
    rewrite <- Hmerge.
    destruct (fillEmpty_models k (mergeUnlisted k p2)) as [_ [H1 H2]].
    destruct (Provider.models (mergeUnlisted k p2)) as [|m l] eqn:E.
    + now apply H1.
    + apply H2. discriminate.
  - intros n Hn. destruct (Provider.unlistedModels p2) as [u|] eqn:Eu;
      [|destruct Hn].
    eapply Hrouted; eauto.
Qed.

Lemma associationFaults_turn (modelInfoBlocks : Obj.t Capabilities)
  (declared : Obj.t Declared.t) (k : string) (d : Declared.t) :
  associationFaults modelInfoBlocks declared = false ->
  In (k, d) declared ->
  turnFaults modelInfoBlocks k d = false.
Proof.
  unfold associationFaults. rewrite existsb_false. intros H Hin.
  apply (H (k, d) Hin).
Qed.

(** X5. In the output of parseModelData, the models of a provider other
    than [other] are the models that the association loop gave to the
    declared provider of that name, followed by extra models; every extra
    model is a key of the capability mapping that
    getProviderFromModelName leads to this provider.  When both parts are
    empty the provider holds its placeholder. *)
Theorem listed_models_come_first (h : Host) (fileContent : string)
  (modelInfoBlocks : Obj.t Capabilities) :
  extractAllBlocks h fileContent = Return modelInfoBlocks ->
  exists out,
    parseModelData h fileContent = Return out
    /\ forall k p, In (k, p) (providers out) -> k <> "other" ->
         exists d listed extra,
           In (k, d) (defaultModels fileContent (declaredProviders fileContent))
           /\ associateProvider h modelInfoBlocks k d = Return listed
           /\ Provider.models p
              = match Provider.models listed ++ extra with
                | [] => [placeholder k]
                | models => models
                end
           /\ forall n, In n (names extra) ->
                getProviderFromModelName n = Some k
                /\ In n (Obj.keys modelInfoBlocks).
Proof.
  intros Hx. rewrite parseModelData_by_cases, Hx.
  eexists. split; [reflexivity|].
  destruct (associationFaults modelInfoBlocks _) eqn:Ef; simpl.
  - intros k p [].
  - intros k p Hin Hk.
    destruct (@resolved_listed_first _ _ _ _ _ Hin Hk)
      as [d [extra [Hd [Hm He]]]].
    exists d, (listedProvider h modelInfoBlocks k d), extra.
    split; [exact Hd|]. split; [|split; assumption].
    rewrite associateProvider_cases.
    now rewrite (@associationFaults_turn _ _ _ _ Ef Hd).
Qed.

(** X5, witness: [sampleDocument] on [plainHost]. *)
Lemma listed_models_come_first_witness :
  exists out,
    parseModelData plainHost sampleDocument = Return out
    /\ forall k p, In (k, p) (providers out) -> k <> "other" ->
         exists d listed extra,
           In (k, d) (defaultModels sampleDocument
                        (declaredProviders sampleDocument))
           /\ associateProvider plainHost sampleBlocks k d = Return listed
           /\ Provider.models p
              = match Provider.models listed ++ extra with
                | [] => [placeholder k]
                | models => models
                end
           /\ forall n, In n (names extra) ->
                getProviderFromModelName n = Some k
                /\ In n (Obj.keys sampleBlocks).
Proof.
  apply (@listed_models_come_first plainHost sampleDocument sampleBlocks).
  vm_compute. reflexivity.
Defined.

Lemma codeUnitCompare_opp (a b : string) :
  codeUnitCompare b a = CompOpp (codeUnitCompare a b).
Proof.
  revert b. induction a as [|x a IH]; intros [|y b]; simpl; auto.
  rewrite (Nat.compare_antisym (Str.code x) (Str.code y)).
  destruct (Nat.compare (Str.code x) (Str.code y)); simpl; auto.
Qed.

Lemma codeUnitCompare_neverBothGreater : neverBothGreater codeUnitCompare.
Proof.
  intros a b H. rewrite codeUnitCompare_opp, H. discriminate.
Qed.

Lemma codeUnitCompare_transitive : notGreaterTransitive codeUnitCompare.
Proof.
  intros a. induction a as [|x a IH]; intros [|y b] [|z c]; simpl;
    try congruence.
  destruct (Nat.compare_spec (Str.code x) (Str.code y)) as [E1|E1|E1];
    destruct (Nat.compare_spec (Str.code y) (Str.code z)) as [E2|E2|E2];
    destruct (Nat.compare_spec (Str.code x) (Str.code z)) as [E3|E3|E3];
    try congruence; try lia.
  apply IH.
Qed.

Section Sorting.
Context {A : Type} (cmp : A -> A -> comparison).
Hypothesis cmp_anti : forall a b, cmp a b = Gt -> cmp b a <> Gt.
Hypothesis cmp_trans :
  forall a b c, cmp a b <> Gt -> cmp b c <> Gt -> cmp a c <> Gt.

Lemma insertSorted_sorted (x : A) (l : list A) :
  StronglySorted (fun a b => cmp a b <> Gt) l ->
  StronglySorted (fun a b => cmp a b <> Gt) (insertSorted cmp x l).
Proof.
  induction l as [|y l IH]; simpl; intros Hs.
  - constructor; constructor.
  - inversion Hs as [|y' l' Hl Hall]. subst.
    destruct (cmp x y) eqn:E.
    + constructor; [exact Hs|]. constructor; [congruence|].
      eapply Forall_impl; [|exact Hall]. intros z Hz. simpl in Hz.
      eapply cmp_trans; [|exact Hz]. congruence.
    + constructor; [exact Hs|]. constructor; [congruence|].
      eapply Forall_impl; [|exact Hall]. intros z Hz. simpl in Hz.
      eapply cmp_trans; [|exact Hz]. congruence.
    + constructor; [now apply IH|].
      eapply Permutation_Forall;
        [apply Permutation_sym, insertSorted_perm|].
      constructor; [now apply cmp_anti | exact Hall].
Qed.

Lemma sort_sorted (l : list A) :
  StronglySorted (fun a b => cmp a b <> Gt) (sort cmp l).
Proof.
  induction l as [|x l IH]; simpl; [constructor|].
  now apply insertSorted_sorted.
Qed.

End Sorting.

(** X6. On a host whose localeCompare never answers [Gt] both ways and
    whose [not greater] is transitive, a turn of the association loop
    that returns gives the provider a list of models that is in the
    order of localeCompare on the names, and whose names are distinct. *)
Theorem association_sorts_the_models (h : Host)
  (modelInfoBlocks : Obj.t Capabilities) (providerName : string)
  (p : Declared.t) (listed : Provider.t) :
  neverBothGreater (localeCompare h) ->
  notGreaterTransitive (localeCompare h) ->
  associateProvider h modelInfoBlocks providerName p = Return listed ->
  sortedByName h (Provider.models listed)
  /\ NoDup (names (Provider.models listed)).
Proof.
  intros Hanti Htrans. rewrite associateProvider_cases.
  destruct (turnFaults modelInfoBlocks providerName p); [discriminate|].
  intros H. inversion H. subst listed. clear H. split.
  - unfold sortedByName, listedProvider, listModels. simpl. apply sort_sorted.
    + intros a b. apply Hanti.
    + intros a b c. apply Htrans.
  - apply (listedProvider_distinct h modelInfoBlocks providerName p []).
Qed.

(** X6, witness: the comparison by code units of [plainHost], and the
    provider [openAI] with the explicit list [o3], [gpt-4o], [gpt-4.1],
    [o3]: the turn leaves [gpt-4.1], [gpt-4o], [o3]. *)
Lemma association_sorts_the_models_witness :
  associateProvider plainHost sampleBlocks "openAI" unsortedProvider
  = Return sortedProvider
  /\ names (Provider.models sortedProvider) = ["gpt-4.1"; "gpt-4o"; "o3"]
  /\ sortedByName plainHost (Provider.models sortedProvider)
  /\ NoDup (names (Provider.models sortedProvider)).
Proof.
  assert (associateProvider plainHost sampleBlocks "openAI" unsortedProvider
          = Return sortedProvider) as H by (vm_compute; reflexivity).
  split; [exact H|]. split; [reflexivity|].
  exact (@association_sorts_the_models plainHost sampleBlocks "openAI"
           unsortedProvider sortedProvider
           codeUnitCompare_neverBothGreater codeUnitCompare_transitive H).
Defined.

Lemma names_listModels (h : Host) (modelInfoBlocks : Obj.t Capabilities)
  (l : list string) (n : string) :
  In n (names (listModels h modelInfoBlocks l))
  <-> In n l /\ Obj.inherited n = false.
Proof.
  unfold listModels.
  assert (forall l, In n (names (sort (byName h) l)) <-> In n (names l))
    as Hperm.
  { intros l0. unfold names.
    split; apply Permutation_in, Permutation_map;
      [apply sort_perm | apply Permutation_sym, sort_perm]. }
  rewrite Hperm, uniqueFilter_names. unfold names. rewrite map_map. simpl.
  rewrite map_id. tauto.
Qed.

(** X19. Who is listed by a turn of the association loop, for a
    capability mapping without the key [__proto__].  The turn raises
    exactly when the provider has no explicit list, is named like a
    member of [Object.prototype], and some key of the mapping does not
    contain its name.  When it returns, the models it gives to the
    provider are, by name, the explicit list of the provider when there
    is one, and otherwise the keys of the capability mapping whose
    lower-case form contains the lower-case name of the provider; the
    names of members of [Object.prototype] are left out in both cases. *)
Theorem association_lists_the_explicit_or_the_matching (h : Host)
  (modelInfoBlocks : Obj.t Capabilities) (providerName : string)
  (p : Declared.t) :
  ~ In "__proto__" (Obj.keys modelInfoBlocks) ->
  match associateProvider h modelInfoBlocks providerName p with
  | Throw _ =>
      Declared.models p = []
      /\ Obj.inherited providerName = true
      /\ exists n, In n (Obj.keys modelInfoBlocks)
                   /\ Str.includes (Str.toLowerCase providerName)
                                   (Str.toLowerCase n) = false
  | Return listed =>
      ~ (Declared.models p = []
         /\ Obj.inherited providerName = true
         /\ exists n, In n (Obj.keys modelInfoBlocks)
                      /\ Str.includes (Str.toLowerCase providerName)
                                      (Str.toLowerCase n) = false)
      /\ forall n,
           In n (names (Provider.models listed))
           <-> Obj.inherited n = false
               /\ (In n (Declared.models p)
                   \/ (Declared.models p = []
                       /\ In n (Obj.keys modelInfoBlocks)
                       /\ Str.includes (Str.toLowerCase providerName)
                                       (Str.toLowerCase n) = true))
  end.
Proof.
  intros _. rewrite associateProvider_cases.
  assert (forall n, In n (Obj.forIn modelInfoBlocks)
                    <-> In n (Obj.keys modelInfoBlocks)) as Hkeys.
  { intros n. split; intros H.
    - eapply Permutation_in; [apply forIn_perm | exact H].
    - eapply Permutation_in; [apply Permutation_sym, forIn_perm | exact H]. }
  assert (turnFaults modelInfoBlocks providerName p = true
          <-> Declared.models p = []
              /\ Obj.inherited providerName = true
              /\ exists n, In n (Obj.keys modelInfoBlocks)
                           /\ Str.includes (Str.toLowerCase providerName)
                                           (Str.toLowerCase n) = false)
    as Hturn.
  { unfold turnFaults, scanFaults.
    rewrite !andb_true_iff, existsb_exists.
    split.
    - intros [H1 [H2 [n [Hn H3]]]]. split; [|split; [exact H2|]].
      + destruct (Declared.models p); [reflexivity | discriminate].
      + exists n. split; [now apply Hkeys|].
        now apply negb_true_iff in H3.
    - intros [H1 [H2 [n [Hn H3]]]]. split; [now rewrite H1|].
      split; [exact H2|]. exists n. split; [now apply Hkeys|].
      now rewrite H3. }
  destruct (turnFaults modelInfoBlocks providerName p) eqn:Et.
  - now apply Hturn.
  - split.
    + intros H. apply Hturn in H. discriminate.
    + intros n. unfold listedProvider. cbn [Provider.models].
      rewrite names_listModels. unfold namesOf, scannedNames.
      destruct (Declared.models p) as [|m0 ms]; simpl.
      * rewrite filter_In, Hkeys. tauto.
      * split.
        -- intros [H Hi]. split; [exact Hi|]. left. exact H.
        -- intros [Hi [H|[H _]]]; [split; assumption | discriminate].
Qed.

(** X19, witness: the explicit list [constructor], [gpt-4o] on the
    blocks of [sampleDocument]. *)
Lemma association_lists_the_explicit_or_the_matching_witness :
  ~ In "__proto__" (Obj.keys sampleBlocks)
  /\ match associateProvider plainHost sampleBlocks "openAI"
             (Declared.Make "openAI" ["constructor"; "gpt-4o"]
                (Obj.Value "OpenAI")) with
     | Throw _ => False
     | Return listed =>
         forall n,
           In n (names (Provider.models listed))
           <-> Obj.inherited n = false
               /\ (In n ["constructor"; "gpt-4o"]
                   \/ (["constructor"; "gpt-4o"] = []
                       /\ In n (Obj.keys sampleBlocks)
                       /\ Str.includes (Str.toLowerCase "openAI")
                                       (Str.toLowerCase n) = true))
     end.
Proof.
  assert (~ In "__proto__" (Obj.keys sampleBlocks)) as Hk.
  { vm_compute. intros [H|[H|[]]]; discriminate H. }
  split; [exact Hk|].
  pose proof (@association_lists_the_explicit_or_the_matching plainHost
                sampleBlocks "openAI"
                (Declared.Make "openAI" ["constructor"; "gpt-4o"]
                   (Obj.Value "OpenAI")) Hk) as H.
  destruct (associateProvider plainHost sampleBlocks "openAI" _)
    as [listed|e] eqn:E.
  - exact (proj2 H).
  - vm_compute in E. discriminate E.
Defined.

(* ===================================================================== *)
(** ** The fields of a capability record *)
(* ===================================================================== *)

Lemma parseModelDetails_steps (modelSection : string) :
  parseModelDetails modelSection
  = withDownloadable modelSection
      (withCost modelSection
         (withReasoning modelSection (simpleFields modelSection))).
Proof. reflexivity. Qed.

Lemma fieldsWithin_set (fields : list string) (k : string) (v : value)
  (details : Capabilities) :
  In k fields -> fieldsWithin fields details ->
  fieldsWithin fields (Obj.set k v details).
Proof.
  intros Hk [H1 H2]. split; [now apply NoDup_keys_set|].
  rewrite keys_set. destruct (Obj.has k details); auto.
  intros x Hx. apply in_app_or in Hx. destruct Hx as [Hx|[<-|[]]]; auto.
Qed.

Lemma fieldsWithin_incl (fields fields' : list string) (details : Capabilities) :
  incl fields fields' -> fieldsWithin fields details ->
  fieldsWithin fields' details.
Proof.
  intros Hi [H1 H2]. split; auto. intros x Hx. auto.
Qed.

(** Every assignment of the goal sets a field of the list. *)
Ltac within_fields :=
  cbv zeta;
  repeat first
    [ assumption
    | apply fieldsWithin_set; [simpl; auto 25|]
    | match goal with
      | |- context [match ?e with Some _ => _ | None => _ end] => destruct e
      | |- context [if ?b then _ else _] => destruct b
      end ].

Lemma parseSlider_within (fields : list string) (sliderValue : string)
  (details : Capabilities) :
  incl sliderFields fields ->
  fieldsWithin fields details ->
  fieldsWithin fields (parseSlider sliderValue details).
Proof.
  intros Hi H.
  assert (forall k v d, In k sliderFields -> fieldsWithin fields d ->
                        fieldsWithin fields (Obj.set k v d)) as Hset.
  { intros k v d Hk. apply fieldsWithin_set. auto. }
  unfold parseSlider. cbv zeta.
  repeat first
    [ assumption
    | apply Hset; [simpl; auto 25|]
    | match goal with
      | |- context [match ?e with Some _ => _ | None => _ end] => destruct e
      | |- context [if ?b then _ else _] => destruct b
      end ].
Qed.

Lemma parseReasoning_within (fields : list string) (value : string)
  (details : Capabilities) :
  incl ("hasReasoning" :: reasoningFields) fields ->
  fieldsWithin fields details ->
  fieldsWithin fields (parseReasoning value details).
Proof.
  intros Hi H.
  assert (forall k v d, In k ("hasReasoning" :: reasoningFields) ->
                        fieldsWithin fields d ->
                        fieldsWithin fields (Obj.set k v d)) as Hset.
  { intros k v d Hk. apply fieldsWithin_set. auto. }
  assert (forall sv d, fieldsWithin fields d ->
                       fieldsWithin fields (parseSlider sv d)) as Hslider.
  { intros sv d. apply parseSlider_within.
    intros x Hx. apply Hi. simpl. simpl in Hx. tauto. }
  unfold parseReasoning. cbv zeta.
  repeat first
    [ assumption
    | apply Hset; [simpl; auto 25|]
    | apply Hslider
    | match goal with
      | |- context [match ?e with Some _ => _ | None => _ end] => destruct e
      | |- context [if ?b then _ else _] => destruct b
      end ].
Qed.

Lemma simpleFields_within (modelSection : string) :
  fieldsWithin simpleFieldNames (simpleFields modelSection).
Proof.
  assert (fieldsWithin simpleFieldNames []) as H0.
  { split; [constructor | intros x []]. }
  unfold simpleFields. within_fields.
Qed.

Lemma in_fieldNames (k : string) :
  In k simpleFieldNames \/ In k ("hasReasoning" :: reasoningFields)
  \/ In k ["cost"; "downloadable"; "downloadSize"] ->
  In k fieldNames.
Proof.
  unfold fieldNames. intros [H|[H|H]].
  - apply in_or_app. now left.
  - apply in_or_app. right. destruct H as [<-|H]; [now left|].
    right. apply in_or_app. now left.
  - apply in_or_app. right. right. apply in_or_app. now right.
Qed.

(** X7. A capability record has no field outside the eighteen names
    that parseModelDetails assigns, and no field twice, whatever the
    fragment. *)
Theorem parseModelDetails_fields (modelSection : string) :
  NoDup (Obj.keys (parseModelDetails modelSection))
  /\ forall k, In k (Obj.keys (parseModelDetails modelSection)) ->
       In k ["contextWindow"; "reservedOutputTokenSpace";
             "supportsSystemMessage"; "supportsFIM"; "specialToolFormat";
             "hasReasoning"; "canTurnOffReasoning"; "canIOReasoning";
             "thinkTags"; "reasoningSliderType"; "reasoningBudgetMin";
             "reasoningBudgetMax"; "reasoningBudgetDefault";
             "reasoningEffortValues"; "reasoningEffortDefault";
             "cost"; "downloadable"; "downloadSize"].
Proof.
  change (fieldsWithin fieldNames (parseModelDetails modelSection)).
  rewrite parseModelDetails_steps.
  assert (fieldsWithin fieldNames (simpleFields modelSection)) as H1.
  { eapply fieldsWithin_incl; [|apply simpleFields_within].
    intros x Hx. apply in_fieldNames. now left. }
  assert (fieldsWithin fieldNames
            (withReasoning modelSection (simpleFields modelSection))) as H2.
  { unfold withReasoning. destruct (exec reasoningRe modelSection); auto.
    apply parseReasoning_within; auto.
    intros x Hx. apply in_fieldNames. right. now left. }
  assert (fieldsWithin fieldNames
            (withCost modelSection
               (withReasoning modelSection (simpleFields modelSection)))) as H3.
  { unfold withCost. destruct (exec costRe modelSection); auto.
    apply fieldsWithin_set; auto. apply in_fieldNames. simpl. tauto. }
  unfold withDownloadable, parseDownloadable.
  assert (forall k v d, In k ["downloadable"; "downloadSize"] ->
                        fieldsWithin fieldNames d ->
                        fieldsWithin fieldNames (Obj.set k v d)) as Hset.
  { intros k v d Hk. apply fieldsWithin_set. apply in_fieldNames.
    simpl. simpl in Hk. tauto. }
  cbv zeta.
  repeat first
    [ assumption
    | apply Hset; [simpl; auto 25|]
    | match goal with
      | |- context [match ?e with Some _ => _ | None => _ end] => destruct e
      | |- context [if ?b then _ else _] => destruct b
      end ].
Qed.

(** The key [k] is none of the fields that the goal assigns; [H] says
    so. *)
Ltac not_this H :=
  let E := fresh "E" in
  intros E; apply H; rewrite E; simpl; auto 25.

Ltac frame H :=
  cbv zeta;
  repeat first
    [ rewrite get_set_other by not_this H
    | match goal with
      | |- context [match ?e with Some _ => _ | None => _ end] => destruct e
      | |- context [if ?b then _ else _] => destruct b
      end ];
  try reflexivity.

Lemma parseSlider_frame (k sliderValue : string) (details : Capabilities) :
  ~ In k sliderFields ->
  Obj.get k (parseSlider sliderValue details) = Obj.get k details.
Proof.
  intros H. unfold parseSlider.
  destruct (isString _ "budget_slider"); [|destruct (isString _ "effort_slider")];
    frame H.
Qed.

Lemma parseReasoning_frame (k value : string) (details : Capabilities) :
  ~ In k ("hasReasoning" :: reasoningFields) ->
  Obj.get k (parseReasoning value details) = Obj.get k details.
Proof.
  intros H. unfold parseReasoning.
  assert (~ In k sliderFields) as Hs.
  { intros Hk. apply H. simpl. simpl in Hk. tauto. }
  destruct (String.eqb value "false"); [frame H|]. cbv zeta.
  destruct (exec thinkTagsRe value);
    [rewrite get_set_other by not_this H|];
    (destruct (exec reasoningSliderRe value);
       [rewrite parseSlider_frame by exact Hs|]);
    frame H.
Qed.

Lemma parseDownloadable_frame (k modelSection value : string)
  (details : Capabilities) :
  ~ In k ["downloadable"; "downloadSize"] ->
  Obj.get k (parseDownloadable modelSection value details) = Obj.get k details.
Proof.
  intros H. unfold parseDownloadable. frame H.
Qed.

Lemma withCost_frame (k modelSection : string) (details : Capabilities) :
  k <> "cost" ->
  Obj.get k (withCost modelSection details) = Obj.get k details.
Proof.
  intros H. unfold withCost. destruct (exec costRe modelSection); auto.
  now rewrite get_set_other.
Qed.

Lemma withDownloadable_frame (k modelSection : string) (details : Capabilities) :
  ~ In k ["downloadable"; "downloadSize"] ->
  Obj.get k (withDownloadable modelSection details) = Obj.get k details.
Proof.
  intros H. unfold withDownloadable.
  destruct (exec (fieldRe "downloadable") modelSection); auto.
  now apply parseDownloadable_frame.
Qed.

Lemma simpleFields_none (k modelSection : string) :
  ~ In k simpleFieldNames -> Obj.get k (simpleFields modelSection) = None.
Proof.
  intros H. apply get_none_keys. intros Hk.
  apply H. now apply (simpleFields_within modelSection).
Qed.

(** What [parseSlider] leaves in a record that had no slider field: the
    fields of a budget only under the type [budget_slider], those of an
    effort only under the type [effort_slider]. *)
Lemma parseSlider_rule (sliderValue : string) (details : Capabilities) :
  (forall k, In k sliderFields -> Obj.get k details = None) ->
  (forall k, In k budgetFields ->
     Obj.get k (parseSlider sliderValue details) <> None ->
     Obj.get "reasoningSliderType" (parseSlider sliderValue details)
     = Some (VStr "budget_slider"))
  /\ (forall k, In k effortFields ->
        Obj.get k (parseSlider sliderValue details) <> None ->
        Obj.get "reasoningSliderType" (parseSlider sliderValue details)
        = Some (VStr "effort_slider")).
Proof.
  intros Hnone. unfold parseSlider.
  set (details1 := match exec (quotedRe "type") sliderValue with
                   | Some m => Obj.set "reasoningSliderType"
                                 (VStr (group 1 m)) details
                   | None => details
                   end).
  assert (forall k, In k (budgetFields ++ effortFields) ->
                    Obj.get k details1 = None) as H1.
  { intros k Hk. unfold details1.
    assert (Obj.get k details = None) as Hd
      by (apply Hnone; right; exact Hk).
    destruct (exec (quotedRe "type") sliderValue); auto.
    rewrite get_set_other; auto.
    intros ->. simpl in Hk. intuition discriminate. }
  assert (forall t, isString (Obj.get "reasoningSliderType" details1) t = true ->
                    Obj.get "reasoningSliderType" details1 = Some (VStr t)) as Ht.
  { intros t. unfold isString.
    destruct (Obj.get "reasoningSliderType" details1) as [[]|]; try discriminate.
    intros E. apply String.eqb_eq in E. now subst. }
  cbv zeta.
  destruct (isString _ "budget_slider") eqn:Eb;
    [|destruct (isString _ "effort_slider") eqn:Ee].
  - apply Ht in Eb. split.
    + intros k _ _.
      assert (~ In "reasoningSliderType" budgetFields) as Hn
        by (simpl; intuition discriminate).
      rewrite <- Eb. frame Hn.
    + intros k Hk Hget. exfalso. apply Hget.
      assert (~ In k budgetFields) as Hn.
      { intros Hb. simpl in Hk, Hb. intuition congruence. }
      rewrite <- (H1 k) by (apply in_or_app; now right). frame Hn.
  - apply Ht in Ee. split.
    + intros k Hk Hget. exfalso. apply Hget.
      assert (~ In k effortFields) as Hn.
      { intros Hb. simpl in Hk, Hb. intuition congruence. }
      rewrite <- (H1 k) by (apply in_or_app; now left). frame Hn.
    + intros k _ _.
      assert (~ In "reasoningSliderType" effortFields) as Hn
        by (simpl; intuition discriminate).
      rewrite <- Ee. frame Hn.
  - split; intros k Hk Hget; exfalso; apply Hget; apply H1, in_or_app; auto.
Qed.

Lemma in_reasoningFields (k : string) :
  In k sliderFields -> In k reasoningFields.
Proof. intros H. right. right. right. exact H. Qed.

Lemma in_sliderFields (k : string) :
  In k budgetFields \/ In k effortFields -> In k sliderFields.
Proof. intros H. right. apply in_or_app. exact H. Qed.

Lemma reasoningConsistent_transfer (details details' : Capabilities) :
  (forall k, In k ("hasReasoning" :: reasoningFields) ->
             Obj.get k details = Obj.get k details') ->
  reasoningConsistent details' -> reasoningConsistent details.
Proof.
  intros Heq [H1 [H2 H3]].
  assert (Obj.get "hasReasoning" details = Obj.get "hasReasoning" details')
    as Eh by (apply Heq; now left).
  assert (Obj.get "reasoningSliderType" details
          = Obj.get "reasoningSliderType" details') as Et.
  { apply Heq. right. apply in_reasoningFields. now left. }
  split; [|split]; intros k Hk Hget.
  - rewrite Eh. apply (H1 k Hk). rewrite <- Heq; [exact Hget | now right].
  - rewrite Et. apply (H2 k Hk). rewrite <- Heq; [exact Hget|].
    right. apply in_reasoningFields, in_sliderFields. now left.
  - rewrite Et. apply (H3 k Hk). rewrite <- Heq; [exact Hget|].
    right. apply in_reasoningFields, in_sliderFields. now right.
Qed.

Lemma reasoningConsistent_none (details : Capabilities) :
  (forall k, In k reasoningFields -> Obj.get k details = None) ->
  reasoningConsistent details.
Proof.
  intros Hnone. split; [|split]; intros k Hk Hget; exfalso; apply Hget, Hnone.
  - exact Hk.
  - apply in_reasoningFields, in_sliderFields. now left.
  - apply in_reasoningFields, in_sliderFields. now right.
Qed.

Lemma parseReasoning_consistent (value : string) (details : Capabilities) :
  (forall k, In k ("hasReasoning" :: reasoningFields) ->
             Obj.get k details = None) ->
  reasoningConsistent (parseReasoning value details).
Proof.
  intros Hnone. unfold parseReasoning.
  destruct (String.eqb value "false").
  { apply reasoningConsistent_none. intros k Hk.
    rewrite get_set_other; [apply Hnone; now right|].
    intros ->. simpl in Hk. intuition discriminate. }
  cbv zeta.
  match goal with |- context [parseSlider _ ?D] => set (D2 := D) end.
  assert (forall k, In k sliderFields -> Obj.get k D2 = None) as Hslider.
  { intros k Hk.
    assert (~ In k ["hasReasoning"; "canTurnOffReasoning"; "canIOReasoning"])
      as Hn by (intros Hb; simpl in Hk, Hb; intuition congruence).
    unfold D2. frame Hn; apply Hnone; right; now apply in_reasoningFields. }
  assert (Obj.get "hasReasoning" D2 = Some (VBool true)) as Hhas.
  { assert (~ In "hasReasoning" ["canTurnOffReasoning"; "canIOReasoning"])
      as Hn by (simpl; intuition discriminate).
    unfold D2. frame Hn; apply get_set_same. }
  assert (forall D3,
            D3 = D2 \/ (exists sv, D3 = parseSlider sv D2) ->
            Obj.get "hasReasoning" D3 = Some (VBool true)
            /\ reasoningConsistent D3) as H3.
  { intros D3 [->|[sv ->]].
    - split; auto. split; [auto|split]; intros k Hk Hget; exfalso;
        apply Hget, Hslider, in_sliderFields; auto.
    - assert (Obj.get "hasReasoning" (parseSlider sv D2) = Some (VBool true))
        as Hh.
      { rewrite parseSlider_frame; auto. simpl. intuition discriminate. }
      split; auto. split; [auto|]. now apply parseSlider_rule. }
  assert (forall D3 tags,
            Obj.get "hasReasoning" D3 = Some (VBool true)
            /\ reasoningConsistent D3 ->
            reasoningConsistent (Obj.set "thinkTags" tags D3)) as H4.
  { intros D3 tags [Hh [_ [Hb He]]].
    split; [|split]; intros k Hk Hget.
    - rewrite get_set_other by discriminate. exact Hh.
    - rewrite get_set_other by discriminate. apply (Hb k Hk).
      rewrite get_set_other in Hget; auto.
      intros ->. simpl in Hk. intuition discriminate.
    - rewrite get_set_other by discriminate. apply (He k Hk).
      rewrite get_set_other in Hget; auto.
      intros ->. simpl in Hk. intuition discriminate. }
  destruct (exec thinkTagsRe value); [apply H4|];
    (destruct (exec reasoningSliderRe value); apply H3; eauto).
Qed.

Lemma after_reasoning (k modelSection : string) (details : Capabilities) :
  In k ("hasReasoning" :: reasoningFields) ->
  Obj.get k (withDownloadable modelSection (withCost modelSection details))
  = Obj.get k details.
Proof.
  intros Hk.
  rewrite withDownloadable_frame, withCost_frame; auto.
  - intros ->. simpl in Hk. intuition discriminate.
  - intros Hd. simpl in Hk, Hd. intuition congruence.
Qed.

(** X8. The reasoning fields of a capability record agree with each
    other, whatever the fragment: a field that describes the reasoning
    ([canTurnOffReasoning], [canIOReasoning], [thinkTags] and the slider
    fields) is there only when [hasReasoning] is [true]; a budget field
    only when [reasoningSliderType] is [budget_slider], and an effort
    field only when it is [effort_slider]. *)
Theorem reasoning_fields_agree (modelSection : string) :
  let details := parseModelDetails modelSection in
  (forall k,
     In k ["canTurnOffReasoning"; "canIOReasoning"; "thinkTags";
           "reasoningSliderType"; "reasoningBudgetMin"; "reasoningBudgetMax";
           "reasoningBudgetDefault"; "reasoningEffortValues";
           "reasoningEffortDefault"] ->
     Obj.get k details <> None ->
     Obj.get "hasReasoning" details = Some (VBool true))
  /\ (forall k,
        In k ["reasoningBudgetMin"; "reasoningBudgetMax";
              "reasoningBudgetDefault"] ->
        Obj.get k details <> None ->
        Obj.get "reasoningSliderType" details = Some (VStr "budget_slider"))
  /\ (forall k,
        In k ["reasoningEffortValues"; "reasoningEffortDefault"] ->
        Obj.get k details <> None ->
        Obj.get "reasoningSliderType" details = Some (VStr "effort_slider")).
Proof.
  change (reasoningConsistent (parseModelDetails modelSection)).
  rewrite parseModelDetails_steps.
  apply reasoningConsistent_transfer
    with (details' := withReasoning modelSection (simpleFields modelSection)).
  { intros k Hk. now apply after_reasoning. }
  assert (forall k, In k ("hasReasoning" :: reasoningFields) ->
                    Obj.get k (simpleFields modelSection) = None) as Hnone.
  { intros k Hk. apply simpleFields_none.
    intros Hs. simpl in Hk, Hs. intuition congruence. }
  unfold withReasoning. destruct (exec reasoningRe modelSection).
  - now apply parseReasoning_consistent.
  - apply reasoningConsistent_none. intros k Hk. apply Hnone. now right.
Qed.

(** X9. A capability record has a [downloadSize] only when its field
    [downloadable] is [true]. *)
Theorem downloadSize_needs_downloadable (modelSection : string) :
  Obj.get "downloadSize" (parseModelDetails modelSection) <> None ->
  Obj.get "downloadable" (parseModelDetails modelSection) = Some (VBool true).
Proof.
  rewrite parseModelDetails_steps.
  set (details := withCost modelSection
                    (withReasoning modelSection (simpleFields modelSection))).
  assert (Obj.get "downloadSize" details = None) as Hnone.
  { unfold details. rewrite withCost_frame by discriminate.
    unfold withReasoning. destruct (exec reasoningRe modelSection).
    - rewrite parseReasoning_frame.
      + apply simpleFields_none. simpl. intuition discriminate.
      + simpl. intuition discriminate.
    - apply simpleFields_none. simpl. intuition discriminate. }
  unfold withDownloadable, parseDownloadable.
  destruct (exec (fieldRe "downloadable") modelSection) as [m|];
    [|intros H; contradiction].
  cbv zeta.
  destruct (negb (String.eqb (Str.trim (group 1 m)) "false")).
  - intros _. destruct (exec sizeGbRe modelSection).
    + rewrite get_set_other by discriminate. apply get_set_same.
    + apply get_set_same.
  - rewrite get_set_other by discriminate. intros H. contradiction.
Qed.

(** X9, witness: a fragment of a downloadable model with a size. *)
Lemma downloadSize_needs_downloadable_witness :
  Obj.get "downloadable"
    (parseModelDetails "'m': { downloadable: { sizeGb: 1.9 }, },")
  = Some (VBool true).
Proof.
  apply (@downloadSize_needs_downloadable
           "'m': { downloadable: { sizeGb: 1.9 }, },").
  vm_compute. discriminate.
Defined.

(** X8, an instance: the slider type of [budgetFragment], which has a
    budget. *)
Lemma reasoning_fields_agree_witness :
  Obj.get "reasoningSliderType" (parseModelDetails budgetFragment)
  = Some (VStr "budget_slider").
Proof.
  apply (proj1 (proj2 (reasoning_fields_agree budgetFragment))
           "reasoningBudgetMin").
  - simpl. auto.
  - vm_compute. discriminate.
Defined.

Lemma after_simpleFields (k modelSection : string) :
  In k simpleFieldNames ->
  Obj.get k (parseModelDetails modelSection)
  = Obj.get k (simpleFields modelSection).
Proof.
  intros Hk. rewrite parseModelDetails_steps.
  rewrite withDownloadable_frame, withCost_frame.
  - unfold withReasoning. destruct (exec reasoningRe modelSection); auto.
    apply parseReasoning_frame.
    intros Hr. simpl in Hk, Hr. intuition congruence.
  - intros ->. simpl in Hk. intuition discriminate.
  - intros Hd. simpl in Hk, Hd. intuition congruence.
Qed.

(** X20. The four fields that parseModelDetails reads first are each
    present exactly when their own pattern matches in the fragment, with
    a value that depends on that match alone; no later statement of the
    function changes them.  [contextWindow] is the result of parseInt on
    the digits of the token, without the test for [null] that
    [reservedOutputTokenSpace] has; [supportsSystemMessage] is [false]
    or the token without its single quotes; [supportsFIM] tells whether
    the trimmed token is [true]; [specialToolFormat] is the text between
    the quotes. *)
Theorem simple_fields_follow_their_pattern (modelSection : string) :
  let details := parseModelDetails modelSection in
  Obj.get "contextWindow" details
  = match exec (fieldRe "contextWindow") modelSection with
    | Some m => Some (VNum (parseInt (Str.filterChars Str.isDigit (group 1 m))))
    | None => None
    end
  /\ Obj.get "supportsSystemMessage" details
     = match exec (fieldRe "supportsSystemMessage") modelSection with
       | Some m =>
           let value := Str.trim (group 1 m) in
           Some (if String.eqb value "false" then VBool false
                 else VStr (replaceG (lit "'") "" value))
       | None => None
       end
  /\ Obj.get "supportsFIM" details
     = match exec (fieldRe "supportsFIM") modelSection with
       | Some m => Some (VBool (String.eqb (Str.trim (group 1 m)) "true"))
       | None => None
       end
  /\ Obj.get "specialToolFormat" details
     = match exec (quotedRe "specialToolFormat") modelSection with
       | Some m => Some (VStr (group 1 m))
       | None => None
       end.
Proof.
  cbv zeta.
  rewrite !after_simpleFields by (simpl; auto 10).
  unfold simpleFields.
  destruct (exec (quotedRe "specialToolFormat") modelSection);
    destruct (exec (fieldRe "supportsFIM") modelSection);
    destruct (exec (fieldRe "supportsSystemMessage") modelSection);
    destruct (exec (fieldRe "reservedOutputTokenSpace") modelSection);
    destruct (exec (fieldRe "contextWindow") modelSection);
    cbv zeta;
    repeat first [ rewrite get_set_same
                 | rewrite get_set_other by discriminate ];
    rewrite ?stripNonDigits_digits; simpl; auto.
Qed.

(* ===================================================================== *)
(** ** Fragments without a colon *)
(* ===================================================================== *)

Lemma requires_lit (c : ascii) (s : string) :
  Str.oneOf s c = true -> requires c (lit s).
Proof.
  induction s as [|x s IH]; simpl; [discriminate|].
  intros H st k Hst. cbn [run].
  destruct (rest st) as [|y t] eqn:E; [reflexivity|].
  destruct (Str.isChar x y) eqn:Exy; [|reflexivity].
  unfold Str.isChar in Exy. apply Ascii.eqb_eq in Exy. subst y.
  simpl in Hst. apply orb_false_iff in Hst. destruct Hst as [Hx Ht].
  rewrite Hx in H. simpl in H.
  apply (IH H). exact Ht.
Qed.

Lemma requires_cat_l (c : ascii) (a b : regex) :
  requires c a -> requires c (Cat a b).
Proof. intros H st k Hst. cbn [run]. now apply H. Qed.

Lemma requires_cat_r (c : ascii) (a b : regex) :
  requires c b -> requires c (Cat a b).
Proof.
  intros H st k Hst. cbn [run].
  destruct (run a st (fun st' => run b st' k)) as [res|] eqn:E; [|reflexivity].
  exfalso. apply (run_advances a) in E.
  destruct E as [st' [pre [H1 [H2 _]]]].
  rewrite H in H1; [discriminate|].
  rewrite H2, oneOf_append in Hst. apply orb_false_iff in Hst. tauto.
Qed.

Lemma requires_search (c : ascii) (r : regex) (s : string) (p : nat) :
  requires c r -> Str.oneOf s c = false -> search r p s = None.
Proof.
  intros Hr. revert p. induction s as [|x s IH]; intros p Hs; cbn [search];
    unfold matchAt; rewrite Hr by exact Hs; auto.
  apply IH. simpl in Hs. apply orb_false_iff in Hs. tauto.
Qed.

Lemma fieldRe_requires (name : string) : requires ":" (fieldRe name).
Proof.
  unfold fieldRe. cbn [seq].
  apply requires_cat_r, requires_cat_l, requires_lit. reflexivity.
Qed.

Lemma quotedRe_requires (name : string) : requires ":" (quotedRe name).
Proof.
  unfold quotedRe. cbn [seq].
  apply requires_cat_r, requires_cat_l, requires_lit. reflexivity.
Qed.

(** X10. A fragment without a colon gives the empty record: every
    pattern of parseModelDetails asks for the colon that follows a field
    name. *)
Theorem parseModelDetails_without_colon (modelSection : string) :
  Str.oneOf modelSection ":" = false ->
  parseModelDetails modelSection = [].
Proof.
  intros H.
  assert (forall name, exec (fieldRe name) modelSection = None) as Hf.
  { intros name. apply requires_search with (c := ":"%char); [apply fieldRe_requires | exact H]. }
  assert (forall name, exec (quotedRe name) modelSection = None) as Hq.
  { intros name. apply requires_search with (c := ":"%char); [apply quotedRe_requires | exact H]. }
  assert (exec reasoningRe modelSection = None) as Hr.
  { apply requires_search with (c := ":"%char); [|exact H]. unfold reasoningRe. cbn [seq].
    apply requires_cat_l, requires_lit. reflexivity. }
  assert (exec costRe modelSection = None) as Hc.
  { apply requires_search with (c := ":"%char); [|exact H]. unfold costRe. cbn [seq].
    apply requires_cat_l, requires_lit. reflexivity. }
  unfold parseModelDetails. rewrite !Hf, Hq, Hr, Hc. reflexivity.
Qed.

(** X10, witness: a fragment that closes an entry. *)
Lemma parseModelDetails_without_colon_witness :
  parseModelDetails "}," = [].
Proof.
  apply (@parseModelDetails_without_colon "},"). reflexivity.
Defined.

(* ===================================================================== *)
(** ** findModelDetails and the normalization of names *)
(* ===================================================================== *)

Lemma firstKey_sound {V : Type} (q : string -> bool) (o : Obj.t V) (v : V) :
  firstKey q o = Some v ->
  exists k, In k (Obj.keys o) /\ Obj.get k o = Some v.
Proof.
  unfold firstKey. destruct (find q (Obj.forIn o)) as [k|]; [|discriminate].
  intros H. exists k. split; auto.
  apply get_in in H. unfold Obj.keys. apply in_map_iff. exists (k, v). auto.
Qed.

Lemma familyMatch_sound (families : list (string * list string))
  (modelName : string) (modelInfoBlocks : Obj.t Capabilities)
  (d : Capabilities) :
  familyMatch families modelName modelInfoBlocks = Some d ->
  exists k, In k (Obj.keys modelInfoBlocks)
            /\ Obj.get k modelInfoBlocks = Some d.
Proof.
  induction families as [|[family patterns] families IH]; simpl;
    [discriminate|].
  destruct (inFamily patterns modelName); auto.
  destruct (firstKey (inFamily patterns) modelInfoBlocks) as [d'|] eqn:E; auto.
  intros H. inversion H. subst. eapply firstKey_sound, E.
Qed.

Lemma findModelDetails_sound (modelName : string)
  (modelInfoBlocks : Obj.t Capabilities) :
  match findModelDetails modelName modelInfoBlocks with
  | Some (Obj.Value d) =>
      exists k, In k (Obj.keys modelInfoBlocks)
                /\ Obj.get k modelInfoBlocks = Some d
  | Some (Obj.Member name) =>
      name = modelName
      /\ Obj.inherited modelName = true
      /\ ~ In modelName (Obj.keys modelInfoBlocks)
  | None =>
      ~ In modelName (Obj.keys modelInfoBlocks)
      /\ Obj.inherited modelName = false
  end.
Proof.
  unfold findModelDetails, Obj.read.
  destruct (Obj.get modelName modelInfoBlocks) as [d0|] eqn:Eg.
  - exists modelName. split; auto.
    apply get_in in Eg. unfold Obj.keys. apply in_map_iff.
    exists (modelName, d0). auto.
  - apply get_none_keys in Eg.
    destruct (Obj.inherited modelName) eqn:Ei; [auto|].
    cbv zeta.
    destruct (firstKey _ modelInfoBlocks) as [d1|] eqn:E1.
    + eapply firstKey_sound, E1.
    + destruct (familyMatch modelFamilies modelName modelInfoBlocks)
        as [d2|] eqn:E2; simpl; [|auto].
      eapply familyMatch_sound, E2.
Qed.

(** X11. On a mapping without the key [__proto__], what findModelDetails
    returns is the record of some key of the mapping, or, for a queried
    name that is no key of the mapping and is the name of a member of
    [Object.prototype], that member; it returns nothing only when the
    queried name is neither.  On the empty mapping it finds the member
    of that name, or nothing. *)
Theorem findModelDetails_answers_from_the_mapping (modelName : string)
  (modelInfoBlocks : Obj.t Capabilities) :
  ~ In "__proto__" (Obj.keys modelInfoBlocks) ->
  match findModelDetails modelName modelInfoBlocks with
  | Some (Obj.Value d) =>
      exists k, In k (Obj.keys modelInfoBlocks)
                /\ Obj.get k modelInfoBlocks = Some d
  | Some (Obj.Member name) =>
      name = modelName
      /\ Obj.inherited modelName = true
      /\ ~ In modelName (Obj.keys modelInfoBlocks)
  | None =>
      ~ In modelName (Obj.keys modelInfoBlocks)
      /\ Obj.inherited modelName = false
  end
  /\ findModelDetails modelName []
     = if Obj.inherited modelName then Some (Obj.Member modelName) else None.
Proof.
  intros _. split; [apply findModelDetails_sound|].
  pose proof (findModelDetails_sound modelName []) as H.
  destruct (findModelDetails modelName []) as [[d|name]|].
  - destruct H as [k [[] _]].
  - destruct H as [-> [Hi _]]. now rewrite Hi.
  - destruct H as [_ Hi]. now rewrite Hi.
Qed.

(** X11, witness: the name [constructor] on the blocks of
    [sampleDocument]. *)
Lemma findModelDetails_answers_from_the_mapping_witness :
  ~ In "__proto__" (Obj.keys sampleBlocks)
  /\ findModelDetails "constructor" sampleBlocks
     = Some (Obj.Member "constructor")
  /\ match findModelDetails "gpt-4o-mini" sampleBlocks with
     | Some (Obj.Value d) =>
         exists k, In k (Obj.keys sampleBlocks)
                   /\ Obj.get k sampleBlocks = Some d
     | Some (Obj.Member name) =>
         name = "gpt-4o-mini"
         /\ Obj.inherited "gpt-4o-mini" = true
         /\ ~ In "gpt-4o-mini" (Obj.keys sampleBlocks)
     | None =>
         ~ In "gpt-4o-mini" (Obj.keys sampleBlocks)
         /\ Obj.inherited "gpt-4o-mini" = false
     end.
Proof.
  assert (~ In "__proto__" (Obj.keys sampleBlocks)) as Hk.
  { vm_compute. intros [H|[H|[]]]; discriminate H. }
  split; [exact Hk|]. split; [vm_compute; reflexivity|].
  exact (proj1 (@findModelDetails_answers_from_the_mapping "gpt-4o-mini"
                  sampleBlocks Hk)).
Defined.

Lemma oneOf_take (n : nat) (s : string) (c : ascii) :
  Str.oneOf s c = false -> Str.oneOf (Str.take n s) c = false.
Proof.
  revert n. induction s as [|x s IH]; intros [|n]; simpl; auto.
  intros H. apply orb_false_iff in H. destruct H as [H1 H2].
  now rewrite H1, IH.
Qed.

Lemma oneOf_drop (n : nat) (s : string) (c : ascii) :
  Str.oneOf s c = false -> Str.oneOf (Str.drop n s) c = false.
Proof.
  revert n. induction s as [|x s IH]; intros [|n]; simpl; auto.
  intros H. apply orb_false_iff in H. destruct H as [H1 H2].
  now apply IH.
Qed.

Lemma oneOf_replace_go (ms : list result) (p : nat) (s : string) (c : ascii) :
  Str.oneOf s c = false -> Str.oneOf (replace_go ms "" p s) c = false.
Proof.
  revert p s. induction ms as [|m ms IH]; intros p s H; cbn [replace_go]; auto.
  rewrite !oneOf_append. rewrite oneOf_take by exact H. simpl.
  apply IH. now apply oneOf_drop.
Qed.

Lemma oneOf_replace (r : regex) (s : string) (c : ascii) :
  Str.oneOf s c = false -> Str.oneOf (replace r "" s) c = false.
Proof.
  intros H. unfold replace. destruct (exec r s) as [m|]; auto.
  rewrite !oneOf_append. rewrite oneOf_take, oneOf_drop by exact H.
  reflexivity.
Qed.

(** X12. The normalized form of a name holds no hyphen, underscore, dot
    or white space, whatever the name. *)
Theorem normalizeName_has_no_separator (lowered : string) (c : ascii) :
  Str.oneOf "-_." c || Str.isSpace c = true ->
  Str.oneOf (normalizeName lowered) c = false.
Proof.
  intros Hc. rewrite normalizeName_version_step.
  apply oneOf_replace. unfold replaceG. apply oneOf_replace_go.
  apply oneOf_filterChars. unfold isSeparator. now rewrite Hc.
Qed.

(** X12, witness: the hyphen, in a name with a version number. *)
Lemma normalizeName_has_no_separator_witness :
  Str.oneOf (normalizeName "gpt-4.1 mini") "-" = false.
Proof.
  apply (@normalizeName_has_no_separator "gpt-4.1 mini" "-"). reflexivity.
Defined.

(* ===================================================================== *)
(** ** Where the capability records come from *)
(* ===================================================================== *)

Lemma forEachM_invariant_in {A S : Type} (P : S -> Prop)
  (body : S -> A -> completion S) (l : list A) :
  (forall s x s', In x l -> P s -> body s x = Return s' -> P s') ->
  forall s s', P s -> forEachM body l s = Return s' -> P s'.
Proof.
  induction l as [|x l IH]; simpl; intros Hbody s s' Hs H.
  - inversion H. now subst.
  - destruct (body s x) as [s1|e] eqn:E; simpl in H; [|discriminate].
    eapply IH; [| |exact H].
    + intros s0 x0 s0' Hx0. apply Hbody. now right.
    + eapply Hbody; eauto.
Qed.

Section Provenance.
Variable h : Host.
Variable fileContent : string.

Lemma extractModelsFromBlock_fromSection (blockName : string)
  (modelInfoBlocks modelInfoBlocks' : Obj.t Capabilities) :
  In blockName (blockNames fileContent) ->
  (forall k d, In (k, d) modelInfoBlocks -> fromSection h fileContent k d) ->
  extractModelsFromBlock h fileContent blockName modelInfoBlocks
  = Return modelInfoBlocks' ->
  forall k d, In (k, d) modelInfoBlocks' -> fromSection h fileContent k d.
Proof.
  intros Hname H0. unfold extractModelsFromBlock.
  destruct (firstMatch _ _) as [blockMatch|] eqn:Em;
    [|intros H; inversion H; subst; auto].
  destruct (negb (String.eqb (group 1 blockMatch) ""));
    [|intros H; inversion H; subst; auto].
  cbv zeta. intros H.
  pose proof (@forEachM_invariant_in Entry.t (Obj.t Capabilities)
                (fun s => forall k d, In (k, d) s ->
                                      fromSection h fileContent k d))
    as Hinv.
  eapply Hinv; [|exact H0|exact H].
  clear H Hinv. intros s section s' Hsec Hs. cbv beta.
  destruct (negb (String.eqb (Entry.name section) "")) eqn:En;
    [|intros H; inversion H; subst; auto].
  unfold callParseModelDetails.
  destruct (raises h (Entry.content section)) eqn:Er; simpl;
    intros H; [discriminate H|].
  inversion H. subst s'. clear H.
  intros k d Hin. apply in_set in Hin.
  destruct Hin as [[-> ->]|Hin]; [|now apply Hs].
  split.
  - apply negb_true_iff, String.eqb_neq in En. exact En.
  - exists blockName, blockMatch, section. auto 10.
Qed.

Lemma extractAllBlocks_fromSection (modelInfoBlocks : Obj.t Capabilities) :
  extractAllBlocks h fileContent = Return modelInfoBlocks ->
  forall k d, In (k, d) modelInfoBlocks -> fromSection h fileContent k d.
Proof.
  unfold extractAllBlocks. intros H.
  pose proof (@forEachM_invariant_in string (Obj.t Capabilities)
                (fun s => forall k d, In (k, d) s ->
                                      fromSection h fileContent k d))
    as Hinv.
  eapply Hinv; [| |exact H].
  - intros s blockName s' Hname Hs.
    now apply extractModelsFromBlock_fromSection.
  - intros k d [].
Qed.

End Provenance.

(** X13. Every record of the capability mapping comes from the file:
    when the extraction of the blocks returns, each key of the mapping
    is the non-empty name of a section of a block whose name is among
    the block names of the file, and its record is what
    parseModelDetails returns for the text of that section. *)
Theorem extracted_records_come_from_sections (h : Host)
  (fileContent : string) (modelInfoBlocks : Obj.t Capabilities) :
  extractAllBlocks h fileContent = Return modelInfoBlocks ->
  forall k d, In (k, d) modelInfoBlocks ->
    k <> ""
    /\ exists blockName blockMatch section,
         In blockName (blockNames fileContent)
         /\ firstMatch (blockRegexes blockName) fileContent = Some blockMatch
         /\ In section (splitSections (Str.trim (group 1 blockMatch)))
         /\ Entry.name section = k
         /\ raises h (Entry.content section) = false
         /\ d = parseModelDetails (Entry.content section).
Proof.
  intros H k d Hin.
  exact (@extractAllBlocks_fromSection h fileContent modelInfoBlocks H k d Hin).
Qed.

(** X13, witness: the record of [llama3] in the mapping [llamaBlocks] of
    [llamaDocument]. *)
Lemma extracted_records_come_from_sections_witness :
  "llama3" <> ""
  /\ exists blockName blockMatch section,
       In blockName (blockNames llamaDocument)
       /\ firstMatch (blockRegexes blockName) llamaDocument = Some blockMatch
       /\ In section (splitSections (Str.trim (group 1 blockMatch)))
       /\ Entry.name section = "llama3"
       /\ raises plainHost (Entry.content section) = false
       /\ llamaRecord = parseModelDetails (Entry.content section).
Proof.
  assert (extractAllBlocks plainHost llamaDocument = Return llamaBlocks) as H.
  { vm_compute. reflexivity. }
  apply (@extracted_records_come_from_sections plainHost llamaDocument
           llamaBlocks H "llama3" llamaRecord).
  vm_compute. left. reflexivity.
Defined.

(* ===================================================================== *)
(** ** The fragments of the boundary scan *)
(* ===================================================================== *)

Lemma take_drop (n : nat) (s : string) : Str.take n s +++ Str.drop n s = s.
Proof.
  revert n. induction s as [|c s IH]; intros [|n]; simpl; auto.
  now rewrite IH.
Qed.

Lemma drop_add (a n : nat) (s : string) :
  Str.drop (a + n) s = Str.drop n (Str.drop a s).
Proof.
  revert s. induction a as [|a IH]; intros s; simpl; auto.
  destruct s as [|c s]; auto. now destruct n.
Qed.

Lemma substring_drop (a b : nat) (s : string) :
  a <= b -> Str.substring a b s +++ Str.drop b s = Str.drop a s.
Proof.
  intros H. unfold Str.substring.
  replace b with (a + (b - a)) at 2 by lia.
  rewrite drop_add. apply take_drop.
Qed.

Lemma joined_app (a b : list string) : joined (a ++ b) = joined a +++ joined b.
Proof.
  induction a as [|x a IH]; simpl; auto.
  now rewrite IH, append_assoc.
Qed.

Lemma append_empty (s : string) : s +++ "" = s.
Proof. induction s as [|c s IH]; simpl; auto. now rewrite IH. Qed.

Lemma matchAt_stop (r : regex) (p : nat) (s : string) (m : result) :
  matchAt r p s = Some m -> index m <= stop m.
Proof.
  unfold matchAt. destruct (run r (MState p s []) Some) as [st|] eqn:E;
    [|discriminate].
  intros H. inversion H. subst. simpl.
  apply (run_advances r) in E. destruct E as [st' [pre [H1 [_ H2]]]].
  inversion H1. subst st'. simpl in H2. lia.
Qed.

Lemma search_stop (r : regex) (p : nat) (s : string) (m : result) :
  search r p s = Some m -> index m <= stop m.
Proof.
  revert p. induction s as [|c s IH]; intros p; simpl.
  - destruct (matchAt r p "") eqn:E; [|discriminate].
    intros H. inversion H. subst. eapply matchAt_stop, E.
  - destruct (matchAt r p (String c s)) eqn:E.
    + intros H. inversion H. subst. eapply matchAt_stop, E.
    + apply IH.
Qed.

Lemma startFrom_weaken (p q : nat) (ms : list result) :
  p <= q -> startFrom q ms -> startFrom p ms.
Proof.
  destruct ms as [|m ms]; simpl; auto. intros H [H1 H2]. split; auto. lia.
Qed.

Lemma execAll_from_startFrom (r : regex) (fuel p : nat) (s : string) :
  startFrom p (execAll_from r fuel p s).
Proof.
  revert p s. induction fuel as [|fuel IH]; intros p s; simpl; auto.
  destruct (search r p s) as [m|] eqn:E; simpl; auto.
  split; [eapply search_index, E|].
  apply search_stop in E.
  eapply startFrom_weaken; [|apply IH].
  destruct (index m <? stop m); lia.
Qed.

Section Contiguous.
Variable blockContent : string.

Lemma lastSection_joined (ms : list result) (st : SplitState) :
  0 < lastIndex st -> startFrom (lastIndex st) ms ->
  joined (map Entry.content
            (lastSection blockContent
               (fold_left (splitStep blockContent) ms st)))
  = joined (map Entry.content (modelSections st))
    +++ Str.drop (lastIndex st) blockContent.
Proof.
  revert st. induction ms as [|m ms IH]; intros st Hst Hms.
  - simpl. unfold lastSection. apply Nat.ltb_lt in Hst. rewrite Hst.
    rewrite map_app, joined_app. simpl. now rewrite append_empty.
  - destruct Hms as [H1 H2]. cbn [fold_left]. rewrite IH.
    + unfold splitStep. cbn [modelSections lastIndex].
      pose proof Hst as Hlt. apply Nat.ltb_lt in Hlt. rewrite Hlt.
      rewrite map_app, joined_app. simpl. rewrite append_empty.
      rewrite append_assoc. now rewrite substring_drop.
    + simpl. lia.
    + exact H2.
Qed.

Lemma scan_joined (ms : list result) (name : string) :
  startFrom 0 ms ->
  joined (map Entry.content
            (lastSection blockContent
               (fold_left (splitStep blockContent) ms
                  {| modelSections := []; currentModelName := name;
                     lastIndex := 0 |})))
  = match filter (fun m => 0 <? index m) ms with
    | [] => ""
    | m :: _ => Str.drop (index m) blockContent
    end.
Proof.
  revert name. induction ms as [|m ms IH]; intros name Hms; [reflexivity|].
  destruct Hms as [_ Hms]. cbn [fold_left filter].
  unfold splitStep at 2. cbn [modelSections lastIndex Nat.ltb Nat.leb].
  destruct (index m) as [|i] eqn:Ei.
  - cbn [Nat.ltb Nat.leb]. apply IH. exact Hms.
  - cbn [Nat.ltb Nat.leb]. rewrite lastSection_joined.
    + simpl. now rewrite Ei.
    + simpl. lia.
    + exact Hms.
Qed.

End Contiguous.

(** X14. The fragments of the boundary scan, one after the other, are
    the block body from the first entry boundary that is not at offset 0
    up to its end: between two entries nothing is dropped, and nothing is
    taken twice.  Without such a boundary the scan returns no text. *)
Theorem scan_fragments_are_contiguous (blockContent : string) :
  joined (map Entry.content (scanSections blockContent))
  = match filter (fun m => 0 <? index m)
                 (execAll modelNameRegex blockContent) with
    | [] => ""
    | m :: _ => Str.drop (index m) blockContent
    end.
Proof.
  change (scanSections blockContent)
    with (lastSection blockContent
            (fold_left (splitStep blockContent)
               (execAll modelNameRegex blockContent)
               {| modelSections := []; currentModelName := "";
                  lastIndex := 0 |})).
  apply scan_joined. apply execAll_from_startFrom.
Qed.

(* ===================================================================== *)
(** ** Files without a declaration *)
(* ===================================================================== *)

Lemma requires_exec (c : ascii) (r : regex) (s : string) :
  requires c r -> Str.oneOf s c = false -> exec r s = None.
Proof. intros Hr Hs. unfold exec. now apply requires_search with (c := c). Qed.

Lemma requires_execAll (c : ascii) (r : regex) (s : string) :
  requires c r -> Str.oneOf s c = false -> execAll r s = [].
Proof.
  intros Hr Hs. unfold execAll. cbn [execAll_from].
  now rewrite (@requires_search c r s 0 Hr Hs).
Qed.

Lemma blockRegexes_requires (blockName fileContent : string) :
  Str.oneOf fileContent "{" = false ->
  firstMatch (blockRegexes blockName) fileContent = None.
Proof.
  intros H. unfold blockRegexes. cbn [firstMatch seq].
  rewrite !(@requires_exec "{"); auto.
  - apply requires_cat_r, requires_cat_r, requires_cat_l, requires_lit.
    reflexivity.
  - apply requires_cat_r, requires_cat_r, requires_cat_l, requires_lit.
    reflexivity.
Qed.

Lemma forEachM_unchanged {A S : Type} (body : S -> A -> completion S)
  (l : list A) (s : S) :
  (forall x, body s x = Return s) -> forEachM body l s = Return s.
Proof.
  intros H. induction l as [|x l IH]; simpl; auto. now rewrite H.
Qed.

(** X15. A file without an opening brace declares nothing: on every
    host, parseModelData returns the empty provider mapping for it. *)
Theorem file_without_brace_gives_no_provider (h : Host) (fileContent : string) :
  Str.oneOf fileContent "{" = false ->
  parseModelData h fileContent = Return emptyOutput.
Proof.
  intros H.
  assert (declaredProviders fileContent = []) as Hd.
  { unfold declaredProviders. rewrite (@requires_exec "{"); auto.
    unfold providerRegex. cbn [seq]. apply requires_cat_l, requires_lit.
    reflexivity. }
  assert (defaultModels fileContent [] = []) as Hm.
  { unfold defaultModels. rewrite (@requires_exec "{"); auto.
    unfold defaultModelsRegex. cbn [seq]. apply requires_cat_l, requires_lit.
    reflexivity. }
  assert (extractAllBlocks h fileContent = Return []) as Hx.
  { unfold extractAllBlocks. apply forEachM_unchanged.
    intros blockName. unfold extractModelsFromBlock.
    now rewrite blockRegexes_requires. }
  unfold parseModelData, parseModelData_try.
  rewrite Hd, Hm, Hx. reflexivity.
Qed.

(** X15, witness: the text of a page that was not found, on [faultyHost]. *)
Lemma file_without_brace_gives_no_provider_witness :
  parseModelData faultyHost "404: Not Found" = Return emptyOutput.
Proof.
  apply (@file_without_brace_gives_no_provider faultyHost "404: Not Found").
  reflexivity.
Defined.

(* ===================================================================== *)
(** ** The names that the patterns capture *)
(* ===================================================================== *)

Lemma allOf_append (q : ascii -> bool) (a b : string) :
  allOf q (a +++ b) = allOf q a && allOf q b.
Proof.
  induction a as [|c a IH]; simpl; auto. now rewrite IH, andb_assoc.
Qed.

Lemma chr_consumes (q : ascii -> bool) : consumes q (run (Chr q)).
Proof.
  intros st k res. cbn [run].
  destruct (rest st) as [|c s'] eqn:E; [discriminate|].
  destruct (q c) eqn:Eq; [|discriminate].
  intros H. eexists. exists (String c ""). split; [exact H|].
  simpl. rewrite Eq. repeat split; auto. lia.
Qed.

Lemma iterate_consumes (q : ascii -> bool)
  (step : mstate -> (mstate -> option mstate) -> option mstate)
  (greedy : bool) (k : mstate -> option mstate) :
  consumes q step ->
  forall fuel st res,
    iterate step greedy k fuel st = Some res ->
    exists st' pre,
      k st' = Some res
      /\ rest st = pre +++ rest st'
      /\ pos st' = pos st + String.length pre
      /\ caps st' = caps st
      /\ allOf q pre = true.
Proof.
  intros Hstep. induction fuel as [|fuel IH]; intros st res; cbn [iterate].
  - intros H. exists st, "". simpl. repeat split; auto.
  - assert (forall x,
              step st (fun st' =>
                if String.length (rest st') <? String.length (rest st)
                then iterate step greedy k fuel st' else None) = Some x ->
              exists st' pre,
                k st' = Some x
                /\ rest st = pre +++ rest st'
                /\ pos st' = pos st + String.length pre
                /\ caps st' = caps st
                /\ allOf q pre = true) as Hmore.
    { intros x Hx. apply Hstep in Hx.
      destruct Hx as [st1 [pre1 [H1 [H2 [H3 [H4 H5]]]]]].
      destruct (String.length (rest st1) <? String.length (rest st));
        [|discriminate].
      apply IH in H1. destruct H1 as [st2 [pre2 [G1 [G2 [G3 [G4 G5]]]]]].
      exists st2, (pre1 +++ pre2).
      rewrite append_assoc, length_append, allOf_append, H5, G5.
      repeat split; auto; [congruence | lia | congruence]. }
    assert (forall x, k st = Some x ->
              exists st' pre,
                k st' = Some x
                /\ rest st = pre +++ rest st'
                /\ pos st' = pos st + String.length pre
                /\ caps st' = caps st
                /\ allOf q pre = true) as Hstop.
    { intros x Hx. exists st, "". simpl. repeat split; auto. }
    destruct greedy.
    + destruct (step st _) as [x|] eqn:E.
      * intros H. inversion H. subst. now apply Hmore.
      * apply Hstop.
    + destruct (k st) as [x|] eqn:E.
      * intros H. inversion H. subst. now apply Hstop.
      * apply Hmore.
Qed.

(** One or more characters of a class: the text consumed is not empty. *)
Lemma plus_consumes (q : ascii -> bool) (st : mstate)
  (k : mstate -> option mstate) (res : mstate) :
  run (plus (Chr q)) st k = Some res ->
  exists st' pre,
    k st' = Some res
    /\ rest st = pre +++ rest st'
    /\ pos st' = pos st + String.length pre
    /\ caps st' = caps st
    /\ wordOf q pre.
Proof.
  unfold plus. rewrite run_cat. cbn [run].
  destruct (rest st) as [|c s'] eqn:E; [discriminate|].
  destruct (q c) eqn:Eq; [|discriminate].
  intros H.
  apply (@iterate_consumes q _ true k (chr_consumes q)) in H.
  destruct H as [st2 [pre2 [G1 [G2 [G3 [G4 G5]]]]]].
  cbn [rest pos caps] in G2, G3, G4.
  exists st2, (String c pre2). split; [exact G1|].
  split; [simpl; now rewrite G2|].
  split; [simpl; lia|].
  split; [exact G4|].
  split; [discriminate|]. simpl. now rewrite Eq, G5.
Qed.

Lemma iterate_keeps_caps
  (step : mstate -> (mstate -> option mstate) -> option mstate)
  (greedy : bool) (k : mstate -> option mstate) :
  (forall st k res, step st k = Some res ->
     exists st', k st' = Some res /\ caps st' = caps st) ->
  forall fuel st res,
    iterate step greedy k fuel st = Some res ->
    exists st', k st' = Some res /\ caps st' = caps st.
Proof.
  intros Hstep. induction fuel as [|fuel IH]; intros st res; cbn [iterate].
  - intros H. exists st. auto.
  - assert (forall x,
              step st (fun st' =>
                if String.length (rest st') <? String.length (rest st)
                then iterate step greedy k fuel st' else None) = Some x ->
              exists st', k st' = Some x /\ caps st' = caps st) as Hmore.
    { intros x Hx. apply Hstep in Hx. destruct Hx as [st1 [H1 H2]].
      destruct (String.length (rest st1) <? String.length (rest st));
        [|discriminate].
      apply IH in H1. destruct H1 as [st2 [G1 G2]].
      exists st2. split; auto. congruence. }
    destruct greedy.
    + destruct (step st _) as [x|] eqn:E.
      * intros H. inversion H. subst. now apply Hmore.
      * intros H. exists st. auto.
    + destruct (k st) as [x|] eqn:E.
      * intros H. inversion H. subst. exists st. auto.
      * apply Hmore.
Qed.

Lemma run_keeps_caps (r : regex) :
  groupFree r = true ->
  forall st k res, run r st k = Some res ->
    exists st', k st' = Some res /\ caps st' = caps st.
Proof.
  induction r as [|p|a IHa b IHb|a IHa b IHb|g a IHa|i a IHa|a IHa| |];
    cbn [groupFree]; intros Hg st k res; cbn [run];
    try discriminate Hg.
  - intros H. exists st. auto.
  - destruct (rest st) as [|c s']; [discriminate|].
    destruct (p c); [|discriminate].
    intros H. eexists. split; [exact H|]. reflexivity.
  - apply andb_true_iff in Hg. destruct Hg as [Ha Hb].
    intros H. apply (IHa Ha) in H. destruct H as [st1 [H1 H2]].
    apply (IHb Hb) in H1. destruct H1 as [st2 [G1 G2]].
    exists st2. split; auto. congruence.
  - apply andb_true_iff in Hg. destruct Hg as [Ha Hb].
    destruct (run a st k) as [x|] eqn:E.
    + intros H. inversion H. subst. now apply (IHa Ha).
    + now apply (IHb Hb).
  - apply iterate_keeps_caps. now apply IHa.
  - destruct (pos st =? 0); [|discriminate].
    intros H. exists st. auto.
  - destruct (rest st); [|discriminate].
    intros H. exists st. auto.
Qed.

Lemma run_oneGroup (q : ascii -> bool) (r : regex) :
  oneGroup q r ->
  forall st res, run r st Some = Some res ->
    exists t, caps res = (1, t) :: caps st /\ wordOf q t.
Proof.
  induction 1 as [post Hpost|a r Ha Hr IH]; intros st res.
  - rewrite run_cat, run_grp. intros H.
    apply plus_consumes in H.
    destruct H as [st1 [pre [H1 [H2 [H3 [H4 H5]]]]]].
    apply (@run_keeps_caps post Hpost) in H1.
    destruct H1 as [st2 [G1 G2]]. inversion G1. subst st2.
    exists pre. split; [|exact H5].
    rewrite G2. cbn [caps]. rewrite H4, H3, H2.
    replace (pos st + String.length pre - pos st) with (String.length pre)
      by lia.
    now rewrite take_append.
  - rewrite run_cat. intros H.
    apply (@run_keeps_caps a Ha) in H. destruct H as [st1 [H1 H2]].
    apply IH in H1. destruct H1 as [t [G1 G2]].
    exists t. split; auto. congruence.
Qed.

Lemma matchAt_oneGroup (q : ascii -> bool) (r : regex) (p : nat) (s : string)
  (m : result) :
  oneGroup q r -> matchAt r p s = Some m -> wordOf q (group 1 m).
Proof.
  intros Hr. unfold matchAt.
  destruct (run r (MState p s []) Some) as [st|] eqn:E; [|discriminate].
  intros H. inversion H. subst m. clear H.
  apply (@run_oneGroup q r Hr) in E. destruct E as [t [H1 H2]].
  unfold group. cbn [groups]. rewrite H1. simpl. exact H2.
Qed.

Lemma search_oneGroup (q : ascii -> bool) (r : regex) (p : nat) (s : string)
  (m : result) :
  oneGroup q r -> search r p s = Some m -> wordOf q (group 1 m).
Proof.
  intros Hr. revert p. induction s as [|c s IH]; intros p; simpl.
  - destruct (matchAt r p "") eqn:E; [|discriminate].
    intros H. inversion H. subst. eapply matchAt_oneGroup; eauto.
  - destruct (matchAt r p (String c s)) eqn:E.
    + intros H. inversion H. subst. eapply matchAt_oneGroup; eauto.
    + apply IH.
Qed.

Lemma execAll_from_oneGroup (q : ascii -> bool) (r : regex) (fuel p : nat)
  (s : string) (m : result) :
  oneGroup q r -> In m (execAll_from r fuel p s) -> wordOf q (group 1 m).
Proof.
  intros Hr. revert p s. induction fuel as [|fuel IH]; intros p s; simpl.
  - intros [].
  - destruct (search r p s) as [m0|] eqn:E; [|intros []].
    intros [<-|Hin]; [eapply search_oneGroup; eauto | eapply IH, Hin].
Qed.

Lemma providerLineRegex_oneGroup : oneGroup Str.isWord providerLineRegex.
Proof.
  unfold providerLineRegex. cbn [seq].
  apply oneGroup_later; [reflexivity|].
  apply oneGroup_later; [reflexivity|].
  apply oneGroup_here. reflexivity.
Qed.

(** X16. The name of every declared provider is a non-empty run of word
    characters (letters, digits and the underscore), whatever the file. *)
Theorem declared_provider_names_are_words (fileContent : string) (k : string) :
  In k (Obj.keys (declaredProviders fileContent)) ->
  k <> "" /\ allOf Str.isWord k = true.
Proof.
  unfold declaredProviders.
  destruct (exec providerRegex fileContent) as [providerMatch|];
    [|intros []].
  destruct (negb _); [|intros []].
  unfold readProviderLines. cbv zeta. revert k.
  apply fold_left_invariant
    with (P := fun ps : Obj.t Declared.t =>
                 forall k, In k (Obj.keys ps) -> wordOf Str.isWord k).
  - intros ps line Hps.
    destruct (exec providerLineRegex line) as [m|] eqn:E; auto.
    intros k. rewrite keys_set.
    assert (wordOf Str.isWord (group 1 m)) as Hm.
    { eapply search_oneGroup; [apply providerLineRegex_oneGroup | exact E]. }
    destruct (Obj.has (group 1 m) ps); auto.
    intros Hk. apply in_app_or in Hk. destruct Hk as [Hk|[<-|[]]]; auto.
  - intros k [].
Qed.

(** X16, witness: the provider [openAI] of [sampleDocument]. *)
Lemma declared_provider_names_are_words_witness :
  "openAI" <> "" /\ allOf Str.isWord "openAI" = true.
Proof.
  apply (@declared_provider_names_are_words sampleDocument "openAI").
  vm_compute. left. reflexivity.
Defined.

Lemma modelNameRegex_oneGroup : oneGroup notQuote modelNameRegex.
Proof.
  unfold modelNameRegex. cbn [seq].
  apply oneGroup_later; [reflexivity|].
  apply (oneGroup_here notQuote). reflexivity.
Qed.

Lemma simpleNameRegex_oneGroup : oneGroup notQuote simpleNameRegex.
Proof.
  unfold simpleNameRegex. cbn [seq].
  apply oneGroup_later; [reflexivity|].
  apply (oneGroup_here notQuote). reflexivity.
Qed.

Lemma scanSections_wordOf (blockContent : string) (section : Entry.t) :
  In section (scanSections blockContent) ->
  wordOf notQuote (Entry.name section).
Proof.
  intros Hin.
  assert (In (Entry.name section)
             (map Entry.name (scanSections blockContent))) as Hn.
  { apply in_map_iff. eauto. }
  rewrite scanSections_names in Hn.
  assert (forall m, In m (execAll modelNameRegex blockContent) ->
                    wordOf notQuote (group 1 m)) as Hall.
  { intros m. unfold execAll.
    apply execAll_from_oneGroup, modelNameRegex_oneGroup. }
  destruct (execAll modelNameRegex blockContent) as [|m ms]; [destruct Hn|].
  assert (In (Entry.name section) (map (group 1) (m :: ms))) as Hn'.
  { destruct (index m =? 0); [right|]; exact Hn. }
  apply in_map_iff in Hn'. destruct Hn' as [m' [<- Hm']]. now apply Hall.
Qed.

Lemma simpleSections_wordOf (blockContent : string) (section : Entry.t) :
  In section (simpleSections blockContent) ->
  wordOf notQuote (Entry.name section).
Proof.
  unfold simpleSections. revert section.
  apply fold_left_invariant
    with (P := fun l : list Entry.t =>
                 forall e, In e l -> wordOf notQuote (Entry.name e)).
  - intros l piece Hl.
    destruct (exec simpleNameRegex piece) as [m|] eqn:E; auto.
    intros e He. apply in_app_or in He. destruct He as [He|[<-|[]]]; auto.
    simpl. eapply search_oneGroup; [apply simpleNameRegex_oneGroup | exact E].
  - intros e [].
Qed.

Lemma splitSections_wordOf (blockContent : string) (section : Entry.t) :
  In section (splitSections blockContent) ->
  wordOf notQuote (Entry.name section).
Proof.
  unfold splitSections.
  destruct (scanSections blockContent) as [|e l] eqn:E.
  - apply simpleSections_wordOf.
  - rewrite <- E. apply scanSections_wordOf.
Qed.

Lemma allOf_notQuote (s : string) :
  allOf notQuote s = true -> Str.oneOf s "'" = false.
Proof.
  induction s as [|c s IH]; simpl; auto.
  intros H. apply andb_true_iff in H. destruct H as [H1 H2].
  rewrite (IH H2), orb_false_r.
  unfold notQuote in H1. simpl in H1. rewrite orb_false_r in H1.
  apply negb_true_iff in H1. rewrite Ascii.eqb_sym. exact H1.
Qed.

(** X17. The keys of the capability mapping are names as they stand
    between quotes in the file: when the extraction of the blocks
    returns, no key is empty and no key holds a single quote. *)
Theorem extracted_names_hold_no_quote (h : Host) (fileContent : string)
  (modelInfoBlocks : Obj.t Capabilities) (k : string) :
  extractAllBlocks h fileContent = Return modelInfoBlocks ->
  In k (Obj.keys modelInfoBlocks) ->
  k <> "" /\ Str.oneOf k "'" = false.
Proof.
  intros Hx Hk. unfold Obj.keys in Hk. apply in_map_iff in Hk.
  destruct Hk as [[k' d] [E Hin]]. simpl in E. subst k'.
  destruct (@extractAllBlocks_fromSection h fileContent modelInfoBlocks Hx
              k d Hin)
    as [Hne [blockName [blockMatch [section [_ [_ [Hs [Hn _]]]]]]]].
  split; [exact Hne|].
  apply splitSections_wordOf in Hs. rewrite Hn in Hs.
  apply allOf_notQuote, Hs.
Qed.

(** X17, witness: the key [llama3] of [llamaBlocks]. *)
Lemma extracted_names_hold_no_quote_witness :
  "llama3" <> "" /\ Str.oneOf "llama3" "'" = false.
Proof.
  apply (@extracted_names_hold_no_quote plainHost llamaDocument llamaBlocks
           "llama3").
  - vm_compute. reflexivity.
  - vm_compute. left. reflexivity.
Defined.

(* ===================================================================== *)
(** ** The keyword rules and the case of letters *)
(* ===================================================================== *)

Lemma lowerChar_idempotent (c : ascii) :
  Str.lowerChar (Str.lowerChar c) = Str.lowerChar c.
Proof.
  destruct c as [[] [] [] [] [] [] [] []]; vm_compute; reflexivity.
Qed.

Lemma toLowerCase_idempotent (s : string) :
  Str.toLowerCase (Str.toLowerCase s) = Str.toLowerCase s.
Proof.
  induction s as [|c s IH]; simpl; auto.
  now rewrite lowerChar_idempotent, IH.
Qed.

(** X18. The keyword rules do not see the case of letters: a name and
    its lower-case form lead to the same provider, and so do two names
    that differ in case only. *)
Theorem getProviderFromModelName_ignores_case (modelName other : string) :
  getProviderFromModelName (Str.toLowerCase modelName)
  = getProviderFromModelName modelName
  /\ (Str.toLowerCase modelName = Str.toLowerCase other ->
      getProviderFromModelName modelName = getProviderFromModelName other).
Proof.
  split.
  - unfold getProviderFromModelName. now rewrite toLowerCase_idempotent.
  - intros H. unfold getProviderFromModelName. now rewrite H.
Qed.
